(** * Mindmap backend: the document-tree transformation pipeline

    A shallow embedding of the tree-shaping functions of the backend:

    - [ensure_child], [nodes_to_toc_tree]       (parser/parser.py)
    - [clean_toc_tree]                          (llm/llm_transform.py)
    - [split_tree_into_chunks]                  (llm/fallback_llm.py)
    - the single-shot call with its retry       (llm/llm_transform.py)
    - [collapse_root_unary_nodes]               (main.py)

    The first part of the file holds the definitions, the second part the
    lemmas and theorems about them. *)

From Stdlib Require Import String Ascii List ZArith Lia Bool Arith PeanoNat
  DecimalNat.
Import ListNotations.
Local Open Scope Z_scope.
#[local] Set Warnings "-register-all".

(* ===================================================================== *)
(** * Part I: definitions                                                 *)
(* ===================================================================== *)

(* --------------------------------------------------------------------- *)
(** ** Python strings

    A Python [str] is a sequence of Unicode code points; [len], slicing,
    [count] and [strip] all work on code points, so a string is a list of
    code points here. *)

Definition char := N.
Definition str := list char.

(** An ASCII literal of the source as a [str]. *)
Definition lit (s : string) : str :=
  map N_of_ascii (list_ascii_of_string s).

Definition char_eqb (a b : char) : bool := N.eqb a b.

Fixpoint str_eqb (a b : str) : bool :=
  match a, b with
  | [], [] => true
  | x :: a', y :: b' => char_eqb x y && str_eqb a' b'
  | _, _ => false
  end.

(** [len(s)] as a Python int. *)
Definition len {A} (l : list A) : Z := Z.of_nat (length l).

(** [str.isspace] on one code point: the code points for which CPython's
    [Py_UNICODE_ISSPACE] holds. *)
Definition is_space (c : char) : bool :=
  ((9 <=? c) && (c <=? 13) || (28 <=? c) && (c <=? 32) ||
   (c =? 133) || (c =? 160) || (c =? 5760) ||
   (8192 <=? c) && (c <=? 8202) ||
   (c =? 8232) || (c =? 8233) || (c =? 8239) || (c =? 8287) ||
   (c =? 12288))%N.

Fixpoint lstrip (s : str) : str :=
  match s with
  | c :: s' => if is_space c then lstrip s' else s
  | [] => []
  end.

Definition rstrip (s : str) : str := rev (lstrip (rev s)).

(** [s.strip()] *)
Definition strip (s : str) : str := rstrip (lstrip s).

(** [s.count(c)] for a one-character needle. *)
Definition count_char (c : char) (s : str) : Z :=
  len (filter (char_eqb c) s).

Fixpoint starts_with (prefix s : str) : bool :=
  match prefix, s with
  | [], _ => true
  | p :: prefix', c :: s' => char_eqb p c && starts_with prefix' s'
  | _ :: _, [] => false
  end.

(** [needle in hay] for two strings. *)
Fixpoint contains (needle hay : str) : bool :=
  starts_with needle hay ||
  match hay with
  | [] => false
  | _ :: hay' => contains needle hay'
  end.

(** [s[:n]] for a Python int [n]: a negative [n] counts from the end. *)
Definition slice_to (n : Z) (s : str) : str :=
  if 0 <=? n then firstn (Z.to_nat n) s
  else firstn (Z.to_nat (len s + n)) s.

Definition DOT : char := 46%N.          (* '.' *)
Definition ELLIPSIS : char := 8230%N.   (* U+2026 *)

(* --------------------------------------------------------------------- *)
(** ** Python objects loaded from JSON

    [json.load] yields [None], [bool], [int], [str], [list] and [dict]
    objects (floats are left out: no function below computes with one).
    A [dict] keeps its keys in insertion order. *)

Inductive value : Type :=
| VNone
| VBool (b : bool)
| VInt (z : Z)
| VStr (s : str)
| VList (l : list value)
| VDict (d : list (str * value)).

Definition dict := list (str * value).

(** [d.get(k)] *)
Fixpoint dict_get (k : str) (d : dict) : option value :=
  match d with
  | [] => None
  | (k', v) :: d' => if str_eqb k' k then Some v else dict_get k d'
  end.

(** [k in d] *)
Definition dict_mem (k : str) (d : dict) : bool :=
  match dict_get k d with Some _ => true | None => false end.

(** [d.get(k, default)] *)
Definition dict_get_default (k : str) (default : value) (d : dict) : value :=
  match dict_get k d with Some v => v | None => default end.

(** [d[k] = v]: an existing key keeps its position, a new key goes last. *)
Fixpoint dict_set (k : str) (v : value) (d : dict) : dict :=
  match d with
  | [] => [(k, v)]
  | (k', v') :: d' =>
      if str_eqb k' k then (k', v) :: d' else (k', v') :: dict_set k v d'
  end.

(** [d.pop(k, None)] *)
Fixpoint dict_pop (k : str) (d : dict) : dict :=
  match d with
  | [] => []
  | (k', v') :: d' =>
      if str_eqb k' k then dict_pop k d' else (k', v') :: dict_pop k d'
  end.

(** Truth value of an object ([if x:], [x or y], [not x]). *)
Definition truthy (v : value) : bool :=
  match v with
  | VNone => false
  | VBool b => b
  | VInt z => negb (z =? 0)
  | VStr s => match s with [] => false | _ => true end
  | VList l => match l with [] => false | _ => true end
  | VDict d => match d with [] => false | _ => true end
  end.

(* --------------------------------------------------------------------- *)
(** ** Exceptions *)

Inductive exn : Type :=
| TypeError
| AttributeError.

Inductive result (A : Type) : Type :=
| Ok (a : A)
| Raise (e : exn).
Arguments Ok {A} a.
Arguments Raise {A} e.

Definition bind {A B} (m : result A) (k : A -> result B) : result B :=
  match m with
  | Ok a => k a
  | Raise e => Raise e
  end.

Declare Scope py_scope.
Delimit Scope py_scope with py.
Notation "x <- m ;; k" := (bind m (fun x => k))
  (at level 61, m at next level, right associativity) : py_scope.
Local Open Scope py_scope.

(** A list comprehension / [for] loop whose body may raise: elements are
    visited left to right and the first exception ends the loop. *)
Fixpoint mapM {A B} (f : A -> result B) (l : list A) : result (list B) :=
  match l with
  | [] => Ok []
  | a :: l' => b <- f a ;; bs <- mapM f l' ;; Ok (b :: bs)
  end.

(** [for x in v]: the elements a [for] loop sees.  A list yields its
    elements, a string its characters as one-character strings, a dict its
    keys; [None], booleans and integers are not iterable. *)
Definition py_iter (v : value) : result (list value) :=
  match v with
  | VList l => Ok l
  | VStr s => Ok (map (fun c => VStr [c]) s)
  | VDict d => Ok (map (fun kv => VStr (fst kv)) d)
  | VNone | VBool _ | VInt _ => Raise TypeError
  end.

Definition is_the_str (k : str) (v : value) : bool :=
  match v with VStr s => str_eqb s k | _ => false end.

(** [k in v] for a string [k]: key test on a dict, substring test on a
    string, element test on a list. *)
Definition py_contains (k : str) (v : value) : result bool :=
  match v with
  | VDict d => Ok (dict_mem k d)
  | VStr s => Ok (contains k s)
  | VList l => Ok (existsb (is_the_str k) l)
  | VNone | VBool _ | VInt _ => Raise TypeError
  end.

(** [v[k]] for a string [k] that passed the [k in v] test: only a dict can
    be indexed by a string. *)
Definition py_getitem (v : value) (k : str) : result value :=
  match v with
  | VDict d => Ok (dict_get_default k VNone d)
  | _ => Raise TypeError
  end.

(** [v.strip()]: only strings have the method. *)
Definition py_strip (v : value) : result str :=
  match v with
  | VStr s => Ok (strip s)
  | _ => Raise AttributeError
  end.

(* --------------------------------------------------------------------- *)
(** ** TreeCleaner: [clean_toc_tree] (llm/llm_transform.py) *)

Definition k_title : str := lit "title".
Definition k_children : str := lit "children".
Definition k_sections : str := lit "sections".
Definition k_page : str := lit "page".
Definition k_section_text : str := lit "section_text".
Definition MARKER : str := lit "...".

(** The body of the loop over [cleaned["sections"]] for one entry:
    [None] when the entry is skipped ([continue], or no "section_text"),
    [Some text] when [text] is appended to [cleaned_sections]. *)
Definition clean_section (section : value) (max_section_text_length : Z)
  : result (option str) :=
  has <- py_contains k_section_text section ;;
  if has : bool then
    raw <- py_getitem section k_section_text ;;
    section_text <- py_strip raw ;;
    if len section_text <? 10 then Ok None
    else
      let dot_count := count_char DOT section_text
                       + count_char ELLIPSIS section_text in
      (* dot_count > len(section_text) * 0.5 *)
      if len section_text <? 2 * dot_count then Ok None
      else if max_section_text_length <? len section_text
      then Ok (Some (slice_to max_section_text_length section_text ++ MARKER))
      else Ok (Some section_text)
  else Ok None.

(** The whole loop: [cleaned_sections] in the order of the entries. *)
Fixpoint clean_sections (sections : list value) (max_section_text_length : Z)
  : result (list str) :=
  match sections with
  | [] => Ok []
  | section :: rest =>
      r <- clean_section section max_section_text_length ;;
      kept <- clean_sections rest max_section_text_length ;;
      Ok (match r with Some text => text :: kept | None => kept end)
  end.

(** The [if "sections" in cleaned:] block, on the copy [cleaned]. *)
Definition clean_sections_field (cleaned : dict) (max_section_text_length : Z)
  : result dict :=
  match dict_get k_sections cleaned with
  | Some sections =>
      entries <- py_iter sections ;;
      cleaned_sections <- clean_sections entries max_section_text_length ;;
      match cleaned_sections with
      | _ :: _ => Ok (dict_set k_sections (VList (map VStr cleaned_sections)) cleaned)
      | [] => Ok (dict_pop k_sections cleaned)
      end
  | None => Ok cleaned
  end.

(** The [if "children" in cleaned and cleaned["children"]:] block, given
    the outcome [cleaned_children] of the comprehension over the children
    (present exactly when the key is). *)
Definition clean_children_field (cleaned : dict)
    (cleaned_children : option (result (list value))) : result value :=
  match dict_get k_children cleaned, cleaned_children with
  | Some children, Some comprehension =>
      if truthy children then
        cs <- comprehension ;;
        Ok (VDict (dict_set k_children (VList cs) cleaned))
      else Ok (VDict cleaned)
  | _, _ => Ok (VDict cleaned)
  end.

(** [clean_toc_tree(node, max_section_text_length)].

    [node.copy()] exists for dicts and lists only.  On a list, the two
    [in] tests look for the strings "sections" and "children" among the
    elements, and indexing the list with either raises.

    The recursion goes through the value stored under "children": the
    inner [children_of] is the look-up of that key, written as a local
    recursion so that the comprehension over the children is a recursion
    on sub-objects of [node] (lemma [clean_toc_tree_dict] states it with
    [dict_get]).  A string or dict under "children" is iterated too and
    its elements, being strings, have no [copy]. *)
Fixpoint clean_toc_tree (node : value) (max_section_text_length : Z)
  {struct node} : result value :=
  match node with
  | VDict d =>
      let cleaned_children :=
        (fix children_of (es : dict) : option (result (list value)) :=
           match es with
           | [] => None
           | (k, v) :: es' =>
               if str_eqb k k_children then
                 Some match v with
                      | VList cs =>
                          (fix each (cs : list value) : result (list value) :=
                             match cs with
                             | [] => Ok []
                             | child :: cs' =>
                                 c <- clean_toc_tree child max_section_text_length ;;
                                 r <- each cs' ;;
                                 Ok (c :: r)
                             end) cs
                      | _ =>
                          elems <- py_iter v ;;
                          mapM (fun _ : value => Raise AttributeError) elems
                      end
               else children_of es'
           end) d in
      cleaned <- clean_sections_field d max_section_text_length ;;
      clean_children_field cleaned cleaned_children
  | VList l =>
      if existsb (is_the_str k_sections) l || existsb (is_the_str k_children) l
      then Raise TypeError
      else Ok (VList l)
  | VNone | VBool _ | VInt _ | VStr _ => Raise AttributeError
  end.

(** [[clean_toc_tree(child, ...) for child in children]] *)
Definition clean_children (max_section_text_length : Z) (children : value)
  : result (list value) :=
  match children with
  | VList cs => mapM (fun child => clean_toc_tree child max_section_text_length) cs
  | _ =>
      elems <- py_iter children ;;
      mapM (fun _ : value => Raise AttributeError) elems
  end.

(* --------------------------------------------------------------------- *)
(** ** ChunkSplitter: [split_tree_into_chunks] (llm/fallback_llm.py) *)

Section ChunkSplitter.

(** [count_tokens_in_json]: the length of the tokenizer's encoding of
    [json.dumps(data)].  The tokenizer is a collaborator; all the
    splitter uses of it is that it returns a count. *)
Variable count_tokens_in_json : value -> nat.

(** The dict a chunk starts as: the tree's title, no children, and the
    tree's "page" and "sections" when it has them. *)
Definition new_chunk (tree : dict) : dict :=
  let current_chunk :=
    [(k_title, dict_get_default k_title (VStr []) tree);
     (k_children, VList [])] in
  fold_left
    (fun chunk key =>
       match dict_get key tree with
       | Some v => dict_set key v chunk
       | None => chunk
       end)
    [k_page; k_sections] current_chunk.

(** [{k: v for k, v in current_chunk.items() if k != "children"}] *)
Definition without_children (chunk : dict) : dict :=
  filter (fun kv => negb (str_eqb (fst kv) k_children)) chunk.

(** [current_chunk["children"]], a list by construction. *)
Definition chunk_children (chunk : value) : list value :=
  match chunk with
  | VDict d =>
      match dict_get k_children d with
      | Some (VList l) => l
      | _ => []
      end
  | _ => []
  end.

(** [current_chunk["children"].append(child)] *)
Definition chunk_append (child : value) (chunk : dict) : dict :=
  dict_set k_children (VList (chunk_children (VDict chunk) ++ [child])) chunk.

Record split_state : Type := {
  chunks : list value;
  current_chunk : dict;
  current_tokens : Z
}.

Definition split_init (tree : dict) : split_state :=
  {| chunks := [];
     current_chunk := new_chunk tree;
     current_tokens :=
       Z.of_nat (count_tokens_in_json (VDict (without_children (new_chunk tree)))) |}.

(** One turn of [for child in tree.get("children", [])]. *)
Definition split_step (tree : dict) (chunk_size : Z)
    (st : split_state) (child : value) : split_state :=
  let child_tokens := Z.of_nat (count_tokens_in_json child) in
  let st :=
    if (chunk_size <? current_tokens st + child_tokens)
       && truthy (VList (chunk_children (VDict (current_chunk st))))
    then {| chunks := chunks st ++ [VDict (current_chunk st)];
            current_chunk := new_chunk tree;
            current_tokens :=
              Z.of_nat (count_tokens_in_json
                          (VDict (without_children (new_chunk tree)))) |}
    else st in
  {| chunks := chunks st;
     current_chunk := chunk_append child (current_chunk st);
     current_tokens := current_tokens st + child_tokens |}.

(** [split_tree_into_chunks(tree, chunk_size)] *)
Definition split_tree_into_chunks (tree : value) (chunk_size : Z)
  : result (list value) :=
  match tree with
  | VDict t =>
      children <- py_iter (dict_get_default k_children (VList []) t) ;;
      let st := fold_left (split_step t chunk_size) children (split_init t) in
      if truthy (VList (chunk_children (VDict (current_chunk st))))
      then Ok (chunks st ++ [VDict (current_chunk st)])
      else Ok (chunks st)
  | _ => Raise AttributeError   (* only a dict has [get] *)
  end.

(** The chunks a state stands for once the loop is over. *)
Definition final_chunks (st : split_state) : list value :=
  if truthy (VList (chunk_children (VDict (current_chunk st))))
  then chunks st ++ [VDict (current_chunk st)]
  else chunks st.

(** The splitter's own account of a chunk's size: the cost of the seed
    plus the cost of each child it holds (the value of [current_tokens]
    when the chunk is pushed). *)
Definition base_tokens (tree : dict) : Z :=
  Z.of_nat (count_tokens_in_json (VDict (without_children (new_chunk tree)))).

Definition children_tokens (cs : list value) : Z :=
  fold_right (fun c acc => Z.of_nat (count_tokens_in_json c) + acc) 0 cs.

Definition chunk_tokens (tree : dict) (chunk : value) : Z :=
  base_tokens tree + children_tokens (chunk_children chunk).

End ChunkSplitter.

(* --------------------------------------------------------------------- *)
(** ** [str.lower]

    CPython lowers a string code point by code point.  An ASCII code point
    maps to its ASCII lower-case letter whatever surrounds it; the mapping
    of the other code points comes from the Unicode tables and may look at
    the context (final sigma) and produce several code points, so it is a
    parameter: [lower_other s i] is what position [i] of [s] becomes. *)

Section Lower.

Variable lower_other : str -> nat -> str.

Definition lower_ascii (c : char) : char :=
  if ((65 <=? c) && (c <=? 90))%N then (c + 32)%N else c.

Fixpoint lower_from (whole : str) (i : nat) (s : str) : str :=
  match s with
  | [] => []
  | c :: s' =>
      (if (c <? 128)%N then [lower_ascii c] else lower_other whole i)
        ++ lower_from whole (S i) s'
  end.

Definition lower (s : str) : str := lower_from s 0 s.

End Lower.

(** A stand-in for the Unicode tables where a concrete run needs one:
    code points outside ASCII are left as they are. *)
Definition keep_other : str -> nat -> str :=
  fun s i => [nth i s 0%N].

(* --------------------------------------------------------------------- *)
(** ** StructuredTransformer: the single-shot call and its retry
       ([transform_toc_tree_to_api_format], the first [try] block) *)

(** What the handler looks at in a caught exception. *)
Record exception : Type := {
  type_name : str;     (* type(token_error).__name__ *)
  message : str        (* str(token_error) *)
}.

Inductive outcome (A : Type) : Type :=
| Returns (a : A)
| Raises (e : exception).
Arguments Returns {A} a.
Arguments Raises {A} e.

Definition FALLBACK_MODEL : str := lit "gpt-4.1-nano".

Section SingleShot.

Variable lower_other : str -> nat -> str.

(** [is_token_error], as computed in the handler. *)
Definition is_token_error (token_error : exception) : bool :=
  let error_msg := lower lower_other (message token_error) in
  let error_type := type_name token_error in
  contains (lit "token") error_msg ||
  contains (lit "context") error_msg ||
  contains (lit "length") error_msg ||
  contains (lit "maximum context") error_msg ||
  contains (lit "request too large") error_msg ||
  contains (lit "tokens per min") error_msg ||
  contains (lit "tpm") error_msg ||
  (contains (lit "ratelimiterror") (lower lower_other error_type)
   && contains (lit "token") error_msg).

(** The model service is a black box with its own state: a call takes
    the model name, the target schema and the messages, and returns a
    response or raises an [Exception]. *)
Variables World Schema Messages Response : Type.
Variable chat : str -> Schema -> Messages -> World -> outcome Response * World.

Variable LLM_MODEL : str.            (* os.getenv("LLM_MODEL", "gpt-4.1") *)
Variable MindmapDocument : Schema.

Record call : Type := {
  call_model : str;
  call_schema : Schema;
  call_messages : Messages
}.

(** The state threaded through the calls: the service, and the calls
    made so far, oldest first. *)
Definition llm_state : Type := (World * list call)%type.

(** [OpenAI(model=model, ...).as_structured_llm(schema).chat(messages)] *)
Definition sllm_chat (model : str) (schema : Schema) (messages : Messages)
    (st : llm_state) : outcome Response * llm_state :=
  let (r, w) := chat model schema messages (fst st) in
  (r, (w, snd st ++ [{| call_model := model;
                        call_schema := schema;
                        call_messages := messages |}])).

(** [try: resp = sllm.chat(messages)] with its [except Exception] handler:
    the outcome is the response bound to [resp], or the exception that
    leaves the function. *)
Definition single_shot_chat (messages : Messages) (st : llm_state)
  : outcome Response * llm_state :=
  let (r, st1) := sllm_chat LLM_MODEL MindmapDocument messages st in
  match r with
  | Returns resp => (Returns resp, st1)
  | Raises token_error =>
      if is_token_error token_error
      then sllm_chat FALLBACK_MODEL MindmapDocument messages st1
      else (Raises token_error, st1)     (* raise *)
  end.

End SingleShot.

Arguments call_model {Schema Messages} c.
Arguments call_schema {Schema Messages} c.
Arguments call_messages {Schema Messages} c.
Arguments sllm_chat {World Schema Messages Response} chat model schema messages st.
Arguments single_shot_chat lower_other {World Schema Messages Response}
  chat LLM_MODEL MindmapDocument messages st.

(** The substrings the handler looks for in the lower-cased message. *)
Definition TOKEN_ERROR_MARKS : list str :=
  [lit "token"; lit "context"; lit "length"; lit "maximum context";
   lit "request too large"; lit "tokens per min"; lit "tpm"].

(** A service for the concrete runs: its state counts the calls; the
    first call raises a rate-limit error, the later ones return. *)
Definition sample_error : exception :=
  {| type_name := lit "RateLimitError";
     message := lit "Request too large: limit 30000 TPM" |}.

Definition sample_chat (model : str) (schema messages : unit) (w : nat)
  : outcome unit * nat :=
  match w with
  | O => (Raises sample_error, 1%nat)
  | S _ => (Returns tt, S w)
  end.

(* --------------------------------------------------------------------- *)
(** ** TreeNormalizer: [collapse_root_unary_nodes] (main.py)

    The function updates the dict it is given; the tree comes from
    [json.load], so no object is reachable twice and the update is the
    same as building the new dict. *)

Definition k_description : str := lit "description".
Definition k_question : str := lit "question".
Definition k_keywords : str := lit "keywords".

Definition GENERIC_TITLES : list str :=
  [lit "my document mind map"; lit "document mind map"; lit "mind map";
   lit "root"].

Definition max_iterations : nat := 10.

(** [len(v)] *)
Definition py_len (v : value) : result Z :=
  match v with
  | VStr s => Ok (len s)
  | VList l => Ok (len l)
  | VDict d => Ok (len d)
  | VNone | VBool _ | VInt _ => Raise TypeError
  end.

Definition hashable (v : value) : bool :=
  match v with
  | VList _ | VDict _ => false
  | _ => true
  end.

(** [set(v)]: the elements put into the set, in the order of insertion;
    the set is empty exactly when this list is. *)
Definition py_set (v : value) : result (list value) :=
  elems <- py_iter v ;;
  if forallb hashable elems then Ok elems else Raise TypeError.

Definition is_empty {A} (l : list A) : bool :=
  match l with [] => true | _ => false end.

(** The string under a key, [""] when there is none. *)
Definition str_field (k : str) (d : dict) : str :=
  match dict_get k d with
  | Some (VStr s) => s
  | _ => []
  end.

(** The list under a key, [[]] when there is none. *)
Definition list_field (k : str) (d : dict) : list value :=
  match dict_get k d with
  | Some (VList l) => l
  | _ => []
  end.

Section TreeNormalizer.

Variable lower_other : str -> nat -> str.

(** [list(set(a) | set(b))]: the order in which Python enumerates the
    union depends on the hashes of the elements. *)
Variable list_of_union : list value -> list value -> list value.

(** [(d.get("title") or "").strip()] *)
Definition stripped_title (d : dict) : result str :=
  let t := dict_get_default k_title VNone d in
  if truthy t then py_strip t else Ok (strip []).

Definition is_generic_title (root_title : str) : bool :=
  is_empty root_title
  || existsb (str_eqb (lower lower_other root_title)) GENERIC_TITLES.

(** The body of the loop once the sole child is known to be a dict:
    promote [child] into [node]. *)
Definition promote_child (node child : dict) : result dict :=
  root_title <- stripped_title node ;;
  child_title <- stripped_title child ;;
  let node :=
    if is_generic_title root_title
    then dict_set k_title (VStr child_title) node
    else node in
  let child_description := dict_get_default k_description VNone child in
  let node_description := dict_get_default k_description VNone node in
  node <-
    (if truthy child_description then
       if negb (truthy node_description)
       then Ok (dict_set k_description child_description node)
       else
         lc <- py_len child_description ;;
         ln <- py_len node_description ;;
         if ln <? lc
         then Ok (dict_set k_description child_description node)
         else Ok node
     else Ok node) ;;
  let child_question := dict_get_default k_question VNone child in
  let node :=
    if truthy child_question
       && negb (truthy (dict_get_default k_question VNone node))
    then dict_set k_question child_question node
    else node in
  parent_keywords <- py_set (dict_get_default k_keywords (VList []) node) ;;
  child_keywords <- py_set (dict_get_default k_keywords (VList []) child) ;;
  let node :=
    if negb (is_empty parent_keywords) || negb (is_empty child_keywords)
    then dict_set k_keywords
           (VList (list_of_union parent_keywords child_keywords)) node
    else node in
  Ok (dict_set k_children (dict_get_default k_children (VList []) child) node).

(** The dict [promote_child] builds out of two nodes whose fields have
    the types of the schema, step by step: title, description, question,
    keywords, children. *)
Definition promoted (node child : dict) : dict :=
  let node1 :=
    if is_generic_title (strip (str_field k_title node))
    then dict_set k_title (VStr (strip (str_field k_title child))) node
    else node in
  let cd := str_field k_description child in
  let nd := str_field k_description node1 in
  let node2 :=
    if negb (is_empty cd) && (is_empty nd || (len nd <? len cd))
    then dict_set k_description (VStr cd) node1
    else node1 in
  let cq := str_field k_question child in
  let node3 :=
    if negb (is_empty cq) && is_empty (str_field k_question node2)
    then dict_set k_question (VStr cq) node2
    else node2 in
  let pk := list_field k_keywords node3 in
  let ck := list_field k_keywords child in
  let node4 :=
    if negb (is_empty pk) || negb (is_empty ck)
    then dict_set k_keywords (VList (list_of_union pk ck)) node3
    else node3 in
  dict_set k_children (VList (list_field k_children child)) node4.

(** [while iteration < max_iterations:], with [remaining] the number of
    turns left; the result carries the final value of [iteration]. *)
Fixpoint root_loop (remaining : nat) (node : dict) : result (dict * nat) :=
  match remaining with
  | O => Ok (node, O)
  | S remaining' =>
      match dict_get k_children node with
      | Some (VList children) =>
          match children with
          | [] => Ok (node, O)                       (* children_count == 0 *)
          | [VDict child] =>
              node' <- promote_child node child ;;
              r <- root_loop remaining' node' ;;
              Ok (fst r, S (snd r))
          | [_] => Ok (node, O)                      (* child is not a dict *)
          | _ :: _ :: _ => Ok (node, O)              (* children_count > 1 *)
          end
      | _ => Ok (node, O)       (* no "children", or not a list *)
      end
  end.

(** The call with [is_root_level=False], and the last block of the
    call at root level: the children are replaced by the list of their
    images, and nothing is collapsed. *)
Fixpoint collapse_below (node : value) : value :=
  match node with
  | VDict d =>
      let processed :=
        (fix children_of (es : dict) : option (list value) :=
           match es with
           | [] => None
           | (k, v) :: es' =>
               if str_eqb k k_children then
                 match v with
                 | VList cs => Some (map collapse_below cs)
                 | _ => None
                 end
               else children_of es'
           end) d in
      match processed with
      | Some cs => VDict (dict_set k_children (VList cs) d)
      | None => VDict d
      end
  | _ => node
  end.

(** [collapse_root_unary_nodes(node, is_root_level)] *)
Definition collapse_root_unary_nodes (node : value) (is_root_level : bool)
  : result value :=
  match node with
  | VDict d =>
      if is_root_level then
        r <- root_loop max_iterations d ;;
        Ok (collapse_below (VDict (fst r)))
      else Ok (collapse_below node)
  | _ => Ok node
  end.

(** The run of the root loop alone: the dict it ends with and the number
    of turns it made. *)
Definition collapse_iterations (node : dict) : result (dict * nat) :=
  root_loop max_iterations node.

End TreeNormalizer.

(** The number of children of a node: the length of its "children" list,
    0 when it has none. *)
Definition children_count (node : value) : nat :=
  match node with
  | VDict d =>
      match dict_get k_children d with
      | Some (VList l) => length l
      | _ => O
      end
  | _ => O
  end.

(* --------------------------------------------------------------------- *)
(** ** TocTreeBuilder: [ensure_child], [nodes_to_toc_tree] (parser/parser.py)

    The builder makes every dict of its tree itself, with the keys
    "title", "children" and, once a block has landed on the node,
    "sections"; the tree is a record with these fields. *)

(** The dict appended to a node's "sections". *)
Record payload : Type := {
  node_id : value;
  heading_level : option Z;
  section_text : str
}.

Inductive toc : Type :=
| Toc (title : str) (children : list toc) (sections : option (list payload)).

Definition toc_title (t : toc) : str :=
  match t with Toc title _ _ => title end.

Definition toc_children (t : toc) : list toc :=
  match t with Toc _ children _ => children end.

Definition toc_sections (t : toc) : option (list payload) :=
  match t with Toc _ _ sections => sections end.

(** [{"title": title, "children": []}] *)
Definition new_node (title : str) : toc := Toc title [] None.

(** The position of the first [c] of the list with [c.get("title") == title]. *)
Fixpoint find_child (title : str) (cs : list toc) : option nat :=
  match cs with
  | [] => None
  | c :: cs' =>
      if str_eqb (toc_title c) title then Some O
      else option_map S (find_child title cs')
  end.

(** [ensure_child(parent, title)].  The Python function returns the child
    object, which sits in [parent["children"]]: what it returns here is the
    parent as the call leaves it and the position of that child in it. *)
Definition ensure_child (parent : toc) (title : str) : toc * nat :=
  match find_child title (toc_children parent) with
  | Some i => (parent, i)
  | None =>
      (Toc (toc_title parent)
           (toc_children parent ++ [new_node title])
           (toc_sections parent),
       length (toc_children parent))
  end.

(** An update made through a reference to the child at position [i]. *)
Fixpoint update_nth {A} (i : nat) (f : A -> A) (l : list A) : list A :=
  match l, i with
  | [], _ => []
  | x :: l', O => f x :: l'
  | x :: l', S i' => x :: update_nth i' f l'
  end.

Definition update_child (i : nat) (f : toc -> toc) (parent : toc) : toc :=
  Toc (toc_title parent) (update_nth i f (toc_children parent))
      (toc_sections parent).

(** [cur.setdefault("sections", []).append(payload)] *)
Definition append_section (p : payload) (cur : toc) : toc :=
  Toc (toc_title cur) (toc_children cur)
      (Some (match toc_sections cur with
             | Some l => l ++ [p]
             | None => [p]
             end)).

(** [for t in path: cur = ensure_child(cur, t)] followed by the append to
    [cur], seen from the node the walk starts at. *)
Fixpoint add_block (path : list str) (p : payload) (cur : toc) : toc :=
  match path with
  | [] => append_section p cur
  | t :: path' =>
      let (cur', i) := ensure_child cur t in
      update_child i (add_block path' p) cur'
  end.

(** What [extract_heading_level_title_and_body] returns. *)
Record heading_info : Type := {
  info_heading_level : option Z;
  info_heading_title : str;
  info_body : str
}.

Section TocTreeBuilder.

(** The blocks come from the markdown splitter; the builder reads a
    block through three functions only, whose results it does not look
    into. *)
Variable Node : Type.
Variable get_node_id : Node -> value.          (* getattr(n, "node_id", None) *)
Variable ancestors_of : Node -> list str.
  (* parse_header_path(meta.get("header_path"), HEADER_PATH_SEPARATOR) *)
Variable extract_heading_level_title_and_body : Node -> heading_info.

Definition path_of (n : Node) : list str :=
  ancestors_of n
    ++ [info_heading_title (extract_heading_level_title_and_body n)].

Definition payload_of (n : Node) : payload :=
  let info := extract_heading_level_title_and_body n in
  {| node_id := get_node_id n;
     heading_level := info_heading_level info;
     section_text := info_body info |}.

Definition ROOT : toc := Toc (lit "ROOT") [] None.

(** [nodes_to_toc_tree(nodes)] *)
Definition nodes_to_toc_tree (nodes : list Node) : toc :=
  fold_left (fun root n => add_block (path_of n) (payload_of n) root)
            nodes ROOT.

End TocTreeBuilder.

Arguments path_of {Node} ancestors_of extract_heading_level_title_and_body n.
Arguments payload_of {Node} get_node_id extract_heading_level_title_and_body n.
Arguments nodes_to_toc_tree {Node} get_node_id ancestors_of
  extract_heading_level_title_and_body nodes.

(** Every node's children bear pairwise distinct titles. *)
Fixpoint distinct_titles (t : toc) : Prop :=
  match t with
  | Toc _ children _ =>
      NoDup (map toc_title children) /\
      (fix all (cs : list toc) : Prop :=
         match cs with
         | [] => True
         | c :: cs' => distinct_titles c /\ all cs'
         end) children
  end.

(** The tree without its sections: titles and children only. *)
Fixpoint topology (t : toc) : toc :=
  match t with
  | Toc title children _ => Toc title (map topology children) None
  end.

(** The node a walk along [path] ends at: at each step the first child
    with the title. *)
Fixpoint node_at (path : list str) (t : toc) : option toc :=
  match path with
  | [] => Some t
  | title :: path' =>
      match find_child title (toc_children t) with
      | Some i =>
          match nth_error (toc_children t) i with
          | Some c => node_at path' c
          | None => None
          end
      | None => None
      end
  end.

(** The first child with a title, if any. *)
Definition child_at (title : str) (cs : list toc) : option toc :=
  match find_child title cs with
  | Some i => nth_error cs i
  | None => None
  end.

Fixpoint path_eqb (p q : list str) : bool :=
  match p, q with
  | [], [] => true
  | a :: p', b :: q' => str_eqb a b && path_eqb p' q'
  | _, _ => false
  end.

(** The section records accumulated on the node a path leads to. *)
Definition sections_at (path : list str) (t : toc) : list payload :=
  match node_at path t with
  | Some n =>
      match toc_sections n with
      | Some l => l
      | None => []
      end
  | None => []
  end.

(** The JSON object the builder's tree is written as. *)
Definition payload_value (p : payload) : value :=
  VDict [(lit "node_id", node_id p);
         (lit "heading_level",
          match heading_level p with Some z => VInt z | None => VNone end);
         (k_section_text, VStr (section_text p))].

Fixpoint toc_value (t : toc) : value :=
  match t with
  | Toc title children sections =>
      VDict ([(k_title, VStr title);
              (k_children, VList (map toc_value children))]
             ++ match sections with
                | Some l => [(k_sections, VList (map payload_value l))]
                | None => []
                end)
  end.

(* --------------------------------------------------------------------- *)
(** ** Shapes of input and the vocabulary of the statements *)

Definition is_str (v : value) : bool :=
  match v with VStr _ => true | _ => false end.

(** A section record as the builder writes it: a dict whose
    "section_text", when present, is a string. *)
Definition is_section_entry (v : value) : bool :=
  match v with
  | VDict d =>
      match dict_get k_section_text d with
      | Some x => is_str x
      | None => true
      end
  | _ => false
  end.

(** A TOC node: a dict whose "sections", when present, is a list of
    section records and whose "children", when present, is a list of TOC
    nodes.  Any other key is free. *)
Fixpoint is_toc_node (v : value) : bool :=
  match v with
  | VDict d =>
      forallb
        (fun kv : str * value =>
           let (k, x) := kv in
           if str_eqb k k_sections then
             match x with
             | VList es => forallb is_section_entry es
             | _ => false
             end
           else if str_eqb k k_children then
             match x with
             | VList cs => forallb is_toc_node cs
             | _ => false
             end
           else true) d
  | _ => false
  end.

(** The text of a section record. *)
Definition entry_text (section : value) : option str :=
  match section with
  | VDict d =>
      match dict_get k_section_text d with
      | Some (VStr s) => Some s
      | _ => None
      end
  | _ => None
  end.

(** Total number of characters of a list of strings. *)
Definition total_len (l : list str) : Z :=
  fold_right (fun s acc => len s + acc) 0 l.

(** A concept node as [MindmapDocument] and [MindmapSection] are dumped
    (with [exclude_none]): a dict whose "title", "question" and
    "description", when present, are strings, whose "keywords" is a list
    of strings and whose "children" is a list of concept nodes. *)
Fixpoint is_concept_node (v : value) : bool :=
  match v with
  | VDict d =>
      forallb
        (fun kv : str * value =>
           let (k, x) := kv in
           if str_eqb k k_title || str_eqb k k_question
              || str_eqb k k_description
           then is_str x
           else if str_eqb k k_keywords then
             match x with
             | VList ks => forallb is_str ks
             | _ => false
             end
           else if str_eqb k k_children then
             match x with
             | VList cs => forallb is_concept_node cs
             | _ => false
             end
           else true) d
  | _ => false
  end.

(** The test [is_concept_node] makes on one item of the dict. *)
Definition concept_entry (kv : str * value) : bool :=
  let (k, x) := kv in
  if str_eqb k k_title || str_eqb k k_question || str_eqb k k_description
  then is_str x
  else if str_eqb k k_keywords then
    match x with
    | VList ks => forallb is_str ks
    | _ => false
    end
  else if str_eqb k k_children then
    match x with
    | VList cs => forallb is_concept_node cs
    | _ => false
    end
  else true.

(** An enumeration of a union that can stand for [list_of_union] in a
    concrete run: first occurrences, in order of insertion. *)
Definition same_str (x y : value) : bool :=
  match x, y with
  | VStr a, VStr b => str_eqb a b
  | _, _ => false
  end.

Fixpoint first_occurrences (seen l : list value) : list value :=
  match l with
  | [] => []
  | x :: l' =>
      if existsb (same_str x) seen then first_occurrences seen l'
      else x :: first_occurrences (x :: seen) l'
  end.

Definition union_in_order (a b : list value) : list value :=
  first_occurrences [] (a ++ b).

(** A chain of [n] single-child nodes above a leaf. *)
Fixpoint chain (n : nat) : value :=
  match n with
  | O => VDict [(k_title, VStr (lit "Leaf"))]
  | S n' => VDict [(k_title, VStr (lit "Link")); (k_children, VList [chain n'])]
  end.

Section ChunkVocabulary.

Variable count_tokens_in_json : value -> nat.
Variable tree : dict.
Variable chunk_size : Z.

Definition group_tokens (g : list value) : Z :=
  base_tokens count_tokens_in_json tree
  + children_tokens count_tokens_in_json g.

(** Between two groups of children that follow each other, the first
    was closed, holding a child, because the first child of the second
    did not fit. *)
Fixpoint closed_when_full (gs : list (list value)) : Prop :=
  match gs with
  | [] => True
  | a :: rest =>
      match rest with
      | [] => True
      | b :: _ =>
          match b with
          | [] => False
          | x :: _ =>
              a <> [] /\
              chunk_size < group_tokens a + Z.of_nat (count_tokens_in_json x)
          end
      end /\ closed_when_full rest
  end.

(** The grouping the loop computes, as a recursion over the children
    still to come: [cur] is the group being filled and [tokens] its
    running total. *)
Fixpoint groups (cur : list value) (tokens : Z) (children : list value)
  : list (list value) :=
  match children with
  | [] => if is_empty cur then [] else [cur]
  | child :: rest =>
      let child_tokens := Z.of_nat (count_tokens_in_json child) in
      if (chunk_size <? tokens + child_tokens) && negb (is_empty cur)
      then cur :: groups [child]
                    (base_tokens count_tokens_in_json tree + child_tokens) rest
      else groups (cur ++ [child]) (tokens + child_tokens) rest
  end.

End ChunkVocabulary.

(** A size that can stand for the tokenizer in a concrete run: one per
    object and one per key. *)
Fixpoint object_count (v : value) : nat :=
  match v with
  | VList l => S (fold_right (fun x acc => object_count x + acc)%nat O l)
  | VDict d =>
      S (fold_right (fun kv acc => S (object_count (snd kv)) + acc)%nat O d)
  | _ => 1%nat
  end.

(** The strings one section record contributes to the output. *)
Definition emitted (max_section_text_length : Z) (section : value) : list str :=
  match clean_section section max_section_text_length with
  | Ok (Some text) => [text]
  | _ => []
  end.

(** The texts of the section records of a list. *)
Definition texts (entries : list value) : list str :=
  flat_map (fun e => match entry_text e with Some s => [s] | None => [] end)
           entries.

(** A section record holding [raw]. *)
Definition entry (raw : str) : value := VDict [(k_section_text, VStr raw)].

(* --------------------------------------------------------------------- *)
(** ** Sample inputs for the concrete runs *)

(** [{"title": "T", "sections": [{"section_text": raw}]}] *)
Definition node_with_section (raw : str) : dict :=
  [(k_title, VStr (lit "T")); (k_sections, VList [entry raw])].

Definition leaf (title : string) : value := VDict [(k_title, VStr (lit title))].

(** A root with four children, of costs 3, 3, 1 and 3 under
    [object_count], the seed of a chunk costing 3. *)
Definition four_children : dict :=
  [(k_title, VStr (lit "T"));
   (k_children, VList [leaf "a"; leaf "b"; VInt 1; leaf "c"])].

(** A root with one child of cost 1. *)
Definition one_small_child : dict :=
  [(k_title, VStr (lit "T")); (k_children, VList [VInt 1])].

(** The dict of [chain 3]. *)
Definition three_links : dict :=
  [(k_title, VStr (lit "Link")); (k_children, VList [chain 2])].

(** The tree ROOT -> A -> B -> C of the scenario: A and B have an empty
    title and an empty description, and C is any node. *)
Definition scenario_B (c : dict) : dict :=
  [(k_title, VStr []); (k_description, VStr []);
   (k_children, VList [VDict c])].

Definition scenario_A (c : dict) : dict :=
  [(k_title, VStr []); (k_description, VStr []);
   (k_children, VList [VDict (scenario_B c)])].

Definition scenario_ROOT (c : dict) : dict :=
  [(k_title, VStr (lit "ROOT"));
   (k_children, VList [VDict (scenario_A c)])].

(** A node C with three children and all its fields. *)
Definition sample_C : dict :=
  [(k_title, VStr (lit " Plans "));
   (k_question, VStr (lit "Which plans?"));
   (k_description, VStr (lit "All plans"));
   (k_keywords, VList [VStr (lit "hsa"); VStr (lit "ppo"); VStr (lit "hsa")]);
   (k_children, VList [leaf "X"; leaf "Y"; leaf "Z"])].

(** A root whose title is a placeholder with a space in front. *)
Definition padded_root : dict :=
  [(k_title, VStr (lit " root"));
   (k_children, VList [VDict [(k_title, VStr (lit "Intro"))]])].

(* --------------------------------------------------------------------- *)
(** ** More of the pipeline: vocabulary *)

(** A string that [strip] leaves as it is: empty, or with a first and a
    last character that are not whitespace. *)
Definition is_trimmed (s : str) : bool :=
  match s with
  | [] => true
  | c :: _ => negb (is_space c) && negb (is_space (last s c))
  end.

(** [sep.join(parts)] *)
Fixpoint join (sep : str) (parts : list str) : str :=
  match parts with
  | [] => []
  | [p] => p
  | p :: rest => p ++ sep ++ join sep rest
  end.

(* --------------------------------------------------------------------- *)
(** ** [combine_section_texts] (llm/llm_transform.py) *)

Definition BLANK_LINE : str := [10; 10]%N.       (* "\n\n" *)

(** One turn of the loop: the text an element of "sections" contributes,
    if any.  A string contributes itself, trimmed; a dict its
    "section_text", trimmed ([""] when it has none); nothing else
    contributes; an empty text is not kept. *)
Definition combined_text (s : value) : result (option str) :=
  match s with
  | VStr t => Ok (if is_empty (strip t) then None else Some (strip t))
  | VDict e =>
      text <- py_strip (dict_get_default k_section_text (VStr []) e) ;;
      Ok (if is_empty text then None else Some text)
  | VNone | VBool _ | VInt _ | VList _ => Ok None
  end.

(** The loop: [texts], in the order of the elements. *)
Fixpoint combined_texts (sections : list value) : result (list str) :=
  match sections with
  | [] => Ok []
  | s :: rest =>
      r <- combined_text s ;;
      texts <- combined_texts rest ;;
      Ok (match r with Some text => text :: texts | None => texts end)
  end.

(** [combine_section_texts(node)] *)
Definition combine_section_texts (node : value) : result str :=
  match node with
  | VDict d =>
      let sections := dict_get_default k_sections (VList []) d in
      if negb (truthy sections) then Ok []
      else
        elems <- py_iter sections ;;
        texts <- combined_texts elems ;;
        Ok (join BLANK_LINE texts)
  | _ => Raise AttributeError       (* only a dict has [get] *)
  end.

(** The non-blank texts of a list of strings, trimmed. *)
Definition non_blank (l : list str) : list str :=
  filter (fun t => negb (is_empty t)) (map strip l).

(* --------------------------------------------------------------------- *)
(** ** TocTreeBuilder: counting *)

(** The number of section records in a tree. *)
Fixpoint section_count (t : toc) : nat :=
  match t with
  | Toc _ children sections =>
      (match sections with Some l => length l | None => O end
       + fold_right (fun c acc => section_count c + acc) O children)%nat
  end.

(* --------------------------------------------------------------------- *)
(** ** The text-level parsers of a block (parser/parser.py)

    The functions [parse_header_path] and
    [extract_heading_level_title_and_body], which the builder above takes
    as parameters, as the source has them. *)

Definition GREATER : char := 62%N.     (* '>' *)
Definition SPACE : char := 32%N.       (* ' ' *)
Definition HASH : char := 35%N.        (* '#' *)
Definition NEWLINE : char := 10%N.     (* '\n' *)

Module Parser.

Definition HEADER_PATH_SEPARATOR : str := [SPACE; GREATER; SPACE].

(** [s.split(sep)] for a non-empty [sep]: the text is read from the left;
    where [sep] begins, the piece read so far is closed and the
    characters of [sep] are skipped ([skip] counts those still to skip). *)
Fixpoint split_from (sep : str) (skip : nat) (cur : str) (s : str)
  : list str :=
  match s with
  | [] => [cur]
  | c :: s' =>
      match skip with
      | S k => split_from sep k cur s'
      | O =>
          if starts_with sep s
          then cur :: split_from sep (length sep - 1) [] s'
          else split_from sep O (cur ++ [c]) s'
      end
  end.

(** [s.split(sep)]; [None] stands for the [ValueError] that an empty
    separator raises. *)
Definition split (s sep : str) : option (list str) :=
  match sep with
  | [] => None
  | _ :: _ => Some (split_from sep O [] s)
  end.

(** [s.endswith(suffix)] *)
Definition ends_with (suffix s : str) : bool :=
  starts_with (rev suffix) (rev s).

(** [parse_header_path(header_path, sep)]; [None] stands for the
    [ValueError] of [split]. *)
Definition parse_header_path (header_path : option str) (sep : str)
  : option (list str) :=
  match header_path with
  | None => Some []
  | Some h =>
      if is_empty h || str_eqb h sep then Some []
      else
        let s := h in
        let s := if starts_with sep s then skipn (length sep) s else s in
        let s := if ends_with sep s then slice_to (- len sep) s else s in
        match split s sep with
        | Some parts => Some (non_blank parts)
        | None => None
        end
  end.

(** The characters at which [str.splitlines] ends a line. *)
Definition is_line_boundary (c : char) : bool :=
  ((c =? 10) || (c =? 13) || (c =? 11) || (c =? 12) || (c =? 28) ||
   (c =? 29) || (c =? 30) || (c =? 133) || (c =? 8232) || (c =? 8233))%N.

(** [s.splitlines()]: a line ends at a boundary, "\r\n" counting as one;
    the text after the last boundary is a line unless it is empty. *)
Fixpoint splitlines_from (cur : str) (s : str) : list str :=
  match s with
  | [] => match cur with [] => [] | _ :: _ => [cur] end
  | c :: s' =>
      if is_line_boundary c then
        cur :: match s' with
               | c' :: s'' =>
                   if ((c =? 13) && (c' =? 10))%N
                   then splitlines_from [] s''
                   else splitlines_from [] s'
               | [] => splitlines_from [] s'
               end
      else splitlines_from (cur ++ [c]) s'
  end.

Definition splitlines (s : str) : list str := splitlines_from [] s.

Fixpoint leading_hashes (s : str) : nat :=
  match s with
  | c :: s' => if char_eqb c HASH then S (leading_hashes s') else O
  | [] => O
  end.

(** [HEADER_RE.match(line)] on a line of [splitlines], which holds no
    line break.  The pattern reads: at the start one or more '#'
    (group 1), then one or more whitespace characters, then any
    characters (group 2), then optional whitespace up to the end.  The
    result is the number of characters of group 1 and the text of
    group 2.  Group 1 is the whole run of '#' the line begins with (a
    shorter run would have to be followed by whitespace and is followed
    by '#'); a whitespace character must follow it; the whitespace part
    takes the whole run of whitespace, and group 2, which stops at a line
    break only, takes the rest of the line. *)
Definition match_header (line : str) : option (nat * str) :=
  let n := leading_hashes line in
  match n, skipn n line with
  | S _, c :: rest => if is_space c then Some (n, lstrip rest) else None
  | _, _ => None
  end.

(** [extract_heading_level_title_and_body(node)], of the text
    [node.get_content(metadata_mode=MetadataMode.NONE)]. *)
Definition extract_heading_level_title_and_body (full_text : str)
  : heading_info :=
  match splitlines full_text with
  | [] =>
      {| info_heading_level := None;
         info_heading_title := lit "(empty)";
         info_body := [] |}
  | first :: rest =>
      match match_header first with
      | None =>
          {| info_heading_level := None;
             info_heading_title := lit "(preamble)";
             info_body := strip full_text |}
      | Some (n, title) =>
          {| info_heading_level := Some (Z.of_nat n);
             info_heading_title := strip title;
             info_body := strip (join [NEWLINE] rest) |}
      end
  end.

End Parser.

(** The nodes that the root loop merges into the root: the sole
    children met going down from [d], [n] of them at most. *)
Fixpoint merged_chain (n : nat) (d : dict) : list dict :=
  match n with
  | O => []
  | S n' =>
      match list_field k_children d with
      | [VDict c] => c :: merged_chain n' c
      | _ => []
      end
  end.

(* --------------------------------------------------------------------- *)
(** ** ChunkedTransformer: [transform_large_tree_chunked]
       (llm/fallback_llm.py) *)

Definition CHUNK_SIZE : Z := 100000.

(** [s.replace(old, new)]: the occurrences of [old] are found from the
    left and do not overlap ([skip] counts the characters of an
    occurrence still to pass); with an empty [old], [new] is put before
    every character and at the end. *)
Fixpoint replace_from (old new : str) (skip : nat) (s : str) : str :=
  match s with
  | [] => []
  | c :: s' =>
      match skip with
      | S k => replace_from old new k s'
      | O =>
          if starts_with old s
          then new ++ replace_from old new (length old - 1) s'
          else c :: replace_from old new O s'
      end
  end.

Definition replace (old new s : str) : str :=
  match old with
  | [] => new ++ flat_map (fun c => c :: new) s
  | _ :: _ => replace_from old new O s
  end.

(** [str(n)] for a number [n >= 0]: its decimal digits. *)
Fixpoint uint_digits (u : Decimal.uint) : str :=
  match u with
  | Decimal.Nil => []
  | Decimal.D0 u' => 48%N :: uint_digits u'
  | Decimal.D1 u' => 49%N :: uint_digits u'
  | Decimal.D2 u' => 50%N :: uint_digits u'
  | Decimal.D3 u' => 51%N :: uint_digits u'
  | Decimal.D4 u' => 52%N :: uint_digits u'
  | Decimal.D5 u' => 53%N :: uint_digits u'
  | Decimal.D6 u' => 54%N :: uint_digits u'
  | Decimal.D7 u' => 55%N :: uint_digits u'
  | Decimal.D8 u' => 56%N :: uint_digits u'
  | Decimal.D9 u' => 57%N :: uint_digits u'
  end.

Definition str_of_nat (n : nat) : str := uint_digits (Nat.to_uint n).

(** [output_file.replace(".json", f"_chunk_{chunk_num}.json")] *)
Definition intermediate_file (output_file : str) (chunk_num : nat) : str :=
  replace (lit ".json")
          (lit "_chunk_" ++ str_of_nat chunk_num ++ lit ".json")
          output_file.

(** ["gpt-4.1" if chunk_num % 2 == 1 else "gpt-5.1"] *)
Definition chunk_model (chunk_num : nat) : str :=
  if (chunk_num mod 2 =? 1)%nat then lit "gpt-4.1" else lit "gpt-5.1".

Inductive MessageRole : Type := SYSTEM | USER.

Definition ChatMessage : Type := (MessageRole * str)%type.

(** What leaves the function: the [RuntimeError] of the missing key, an
    exception of the interpreter, or an exception raised by a
    collaborator (the model service, the file system). *)
Inductive raised : Type :=
| RuntimeError (msg : str)
| Builtin (e : exn)
| External (e : exception).

Inductive completion (A : Type) : Type :=
| Return (a : A)
| Throw (t : raised).
Arguments Return {A} a.
Arguments Throw {A} t.

Section ChunkedTransformer.

Variable count_tokens_in_json : value -> nat.

(** The collaborators.  [chat model schema messages] stands for
    [OpenAI(model=model, ...).as_structured_llm(schema).chat(messages)]
    followed by [resp.raw.model_dump(exclude_none=True)]: it returns the
    dumped dict or raises.  [write_json file data] stands for
    [with open(file, "w") as f: json.dump(data, f, ...)], [None] being the
    Python [None].  Both act on a state of their own. *)
Variables World Schema : Type.
Variable chat :
  str -> Schema -> list ChatMessage -> World -> outcome dict * World.
Variable write_json : str -> option dict -> World -> outcome unit * World.

Variable system_prompt : str.        (* prompts.TRANSFORM_SYSTEM_PROMPT *)

(** The two f-strings of the loop, of [chunk_num], [total_chunks] and the
    data whose JSON text they embed. *)
Variable first_user_message : nat -> nat -> value -> str.
Variable continuation_user_message :
  nat -> nat -> option dict -> value -> str.

(** The state threaded through: the collaborators' state with the calls
    made so far, and the files written so far, oldest first. *)
Definition chunked_state : Type :=
  ((World * list (call Schema (list ChatMessage)))
   * list (str * option dict))%type.

Definition calls_of (st : chunked_state)
  : list (call Schema (list ChatMessage)) := snd (fst st).

Definition writes_of (st : chunked_state) : list (str * option dict) :=
  snd st.

Definition world_of (st : chunked_state) : World := fst (fst st).

Definition chat_chunk (model : str) (schema : Schema)
    (messages : list ChatMessage) (st : chunked_state)
  : outcome dict * chunked_state :=
  let (r, s) := sllm_chat chat model schema messages (fst st) in
  (r, (s, snd st)).

Definition dump_json (file : str) (data : option dict) (st : chunked_state)
  : outcome unit * chunked_state :=
  let (r, w) := write_json file data (world_of st) in
  (r, ((w, calls_of st), writes_of st ++ [(file, data)])).

(** The messages of one turn. *)
Definition chunk_messages (chunk_num total_chunks : nat)
    (previous_response : option dict) (chunk : value) : list ChatMessage :=
  let user_message :=
    if (chunk_num =? 1)%nat
    then first_user_message chunk_num total_chunks chunk
    else continuation_user_message chunk_num total_chunks
           previous_response chunk in
  [(SYSTEM, system_prompt); (USER, user_message)].

(** [for i, chunk in enumerate(chunks):], from the turn numbered
    [chunk_num] on; the result is the final [previous_response]. *)
Fixpoint process_chunks (pydantic_schema : Schema) (output_file : str)
    (total_chunks chunk_num : nat) (chunks : list value)
    (previous_response : option dict) (st : chunked_state)
  : completion (option dict) * chunked_state :=
  match chunks with
  | [] => (Return previous_response, st)
  | chunk :: rest =>
      let model := chunk_model chunk_num in
      let messages :=
        chunk_messages chunk_num total_chunks previous_response chunk in
      let (resp, st1) := chat_chunk model pydantic_schema messages st in
      match resp with
      | Raises e => (Throw (External e), st1)
      | Returns previous_response =>
          let (written, st2) :=
            dump_json (intermediate_file output_file chunk_num)
                      (Some previous_response) st1 in
          match written with
          | Raises e => (Throw (External e), st2)
          | Returns _ =>
              process_chunks pydantic_schema output_file total_chunks
                (S chunk_num) rest (Some previous_response) st2
          end
      end
  end.

(** [transform_large_tree_chunked(toc_tree_data, pydantic_schema,
    output_file)]; [api_key] tells whether OPENAI_API_KEY is set to a
    non-empty text.  The first loop over the chunks only prints. *)
Definition transform_large_tree_chunked (api_key : bool)
    (toc_tree_data : value) (pydantic_schema : Schema) (output_file : str)
    (st : chunked_state) : completion dict * chunked_state :=
  if negb api_key
  then (Throw (RuntimeError
                 (lit "Set OPENAI_API_KEY in your environment first.")), st)
  else
    match split_tree_into_chunks count_tokens_in_json toc_tree_data CHUNK_SIZE
    with
    | Raise e => (Throw (Builtin e), st)
    | Ok chunks =>
        let (r, st1) :=
          process_chunks pydantic_schema output_file (length chunks)
            1 chunks None st in
        match r with
        | Throw t => (Throw t, st1)
        | Return final_result =>
            let (written, st2) := dump_json output_file final_result st1 in
            match written with
            | Raises e => (Throw (External e), st2)
            | Returns _ =>
                match final_result with
                | None => (Throw (Builtin AttributeError), st2)
                              (* final_result.get on None *)
                | Some d =>
                    match py_len (dict_get_default k_children (VList []) d)
                    with
                    | Raise e => (Throw (Builtin e), st2)
                    | Ok _ => (Return d, st2)
                    end
                end
            end
        end
    end.

End ChunkedTransformer.

Arguments calls_of {World Schema} st.
Arguments writes_of {World Schema} st.
Arguments world_of {World Schema} st.
Arguments chat_chunk {World Schema} chat model schema messages st.
Arguments dump_json {World Schema} write_json file data st.
Arguments process_chunks {World Schema} chat write_json system_prompt
  first_user_message continuation_user_message pydantic_schema output_file
  total_chunks chunk_num chunks previous_response st.
Arguments transform_large_tree_chunked count_tokens_in_json {World Schema}
  chat write_json system_prompt first_user_message continuation_user_message
  api_key toc_tree_data pydantic_schema output_file st.

Section ChunkedReplies.

Variables World Schema : Type.
Variable chat :
  str -> Schema -> list ChatMessage -> World -> outcome dict * World.
Variable write_json : str -> option dict -> World -> outcome unit * World.
Variable system_prompt : str.
Variable first_user_message : nat -> nat -> value -> str.
Variable continuation_user_message :
  nat -> nat -> option dict -> value -> str.
Variable pydantic_schema : Schema.
Variable output_file : str.

(** [answered total_chunks chunk_num chunks previous_response w replies
    w']: from the state [w], the calls for [chunks], numbered from
    [chunk_num] and each made with the reply to the one before
    ([previous_response] for the first), are answered by the service with
    [replies], one each and in order; each reply is accepted by the file
    system as the content of the intermediate file of its chunk; and the
    state is [w'] in the end. *)
Fixpoint answered (total_chunks chunk_num : nat) (chunks : list value)
    (previous_response : option dict) (w : World) (replies : list dict)
    (w' : World) : Prop :=
  match chunks, replies with
  | [], [] => w' = w
  | chunk :: rest, reply :: replies' =>
      exists w1 w2 u,
        chat (chunk_model chunk_num) pydantic_schema
             (chunk_messages system_prompt first_user_message
                continuation_user_message chunk_num total_chunks
                previous_response chunk) w
        = (Returns reply, w1) /\
        write_json (intermediate_file output_file chunk_num) (Some reply) w1
        = (Returns u, w2) /\
        answered total_chunks (S chunk_num) rest (Some reply) w2 replies' w'
  | _, _ => False
  end.

End ChunkedReplies.

Arguments answered {World Schema} chat write_json system_prompt
  first_user_message continuation_user_message pydantic_schema output_file
  total_chunks chunk_num chunks previous_response w replies w'.

(** Collaborators for the concrete runs: the service counts its calls,
    answers with a document titled by the model it ran, and fails at its
    third call; every write succeeds. *)
Definition counting_chat (model : str) (schema : unit)
    (messages : list ChatMessage) (w : nat) : outcome dict * nat :=
  match w with
  | 2%nat => (Raises sample_error, S w)
  | _ => (Returns [(k_title, VStr model)], S w)
  end.

Definition accepting_write (file : str) (data : option dict) (w : nat)
  : outcome unit * nat := (Returns tt, w).

Definition plain_first_message (chunk_num total_chunks : nat) (chunk : value)
  : str := lit "first".

Definition plain_continuation_message (chunk_num total_chunks : nat)
    (previous_response : option dict) (chunk : value) : str :=
  lit "continuation".

(** A tokenizer for the concrete runs that counts 60000 tokens for
    every object: no two children fit in a chunk of [CHUNK_SIZE]. *)
Definition heavy_count (v : value) : nat := Z.to_nat 60000.

(** A root with two children. *)
Definition two_children : dict :=
  [(k_title, VStr (lit "T")); (k_children, VList [leaf "a"; leaf "b"])].

(** The concrete runs: the state before, and the run on a tree with the
    collaborators above. *)
Definition sample_state : chunked_state nat unit := ((0%nat, []), []).

Definition sample_run (count_tokens_in_json : value -> nat) (tree : dict)
  : completion dict * chunked_state nat unit :=
  transform_large_tree_chunked count_tokens_in_json counting_chat
    accepting_write (lit "system") plain_first_message
    plain_continuation_message true (VDict tree) tt (lit "out.json")
    sample_state.

Definition sample_chunks (count_tokens_in_json : value -> nat) (tree : dict)
  : list value :=
  match split_tree_into_chunks count_tokens_in_json (VDict tree) CHUNK_SIZE with
  | Ok chunks => chunks
  | Raise _ => []
  end.

(* --------------------------------------------------------------------- *)
(** ** StructuredTransformer: [transform_toc_tree_to_api_format] as a
       whole (llm/llm_transform.py) *)

Section ApiFormat.

Variable count_tokens_in_json : value -> nat.
Variable lower_other : str -> nat -> str.

(** The collaborators: [chat] is [sllm.chat], [model_dump] is
    [resp.raw.model_dump(exclude_none=True)], [write_json] the writing of
    a JSON file. *)
Variables World Schema Response : Type.
Variable chat :
  str -> Schema -> list ChatMessage -> World -> outcome Response * World.
Variable model_dump : Response -> outcome dict.
Variable write_json : str -> option dict -> World -> outcome unit * World.

Variable TOKEN_LIMIT : Z.               (* int(os.getenv("TOKEN_LIMIT", ...)) *)
Variable MAX_SECTION_TEXT_LENGTH : Z.
Variable LLM_MODEL : str.
Variable MindmapDocument : Schema.
Variable TRANSFORM_SYSTEM_PROMPT : str.

(** [prompts.TRANSFORM_USER_PROMPT.format(toc_json=json.dumps(...))] *)
Variable user_prompt : value -> str.
Variable first_user_message : nat -> nat -> value -> str.
Variable continuation_user_message :
  nat -> nat -> option dict -> value -> str.

(** The call as the chunked transformation makes it: the chat, then the
    dump of the response. *)
Definition chat_and_dump (model : str) (schema : Schema)
    (messages : list ChatMessage) (w : World) : outcome dict * World :=
  let (r, w') := chat model schema messages w in
  (match r with
   | Returns resp => model_dump resp
   | Raises e => Raises e
   end, w').

(** [transform_toc_tree_to_api_format(toc_tree_data, output_file)] *)
Definition transform_toc_tree_to_api_format (api_key : bool)
    (toc_tree_data : value) (output_file : str)
    (st : chunked_state World Schema) :
  completion dict * chunked_state World Schema :=
  if negb api_key
  then (Throw (RuntimeError
                 (lit "Set OPENAI_API_KEY in your environment first.")), st)
  else
    match clean_toc_tree toc_tree_data MAX_SECTION_TEXT_LENGTH with
    | Raise e => (Throw (Builtin e), st)
    | Ok cleaned_toc_tree =>
        let toc_tokens := Z.of_nat (count_tokens_in_json cleaned_toc_tree) in
        let chunked :=
          transform_large_tree_chunked count_tokens_in_json chat_and_dump
            write_json TRANSFORM_SYSTEM_PROMPT first_user_message
            continuation_user_message api_key cleaned_toc_tree
            MindmapDocument output_file in
        if TOKEN_LIMIT <? toc_tokens then chunked st
        else
          let messages :=
            [(SYSTEM, TRANSFORM_SYSTEM_PROMPT);
             (USER, user_prompt cleaned_toc_tree)] in
          let (r, s1) :=
            single_shot_chat lower_other chat LLM_MODEL MindmapDocument
              messages (fst st) in
          let st1 := (s1, snd st) in
          match r with
          | Raises e => (Throw (External e), st1)
          | Returns resp =>
              (* the second [try]: any exception falls back to chunks *)
              match model_dump resp with
              | Raises e => chunked st1
              | Returns result =>
                  let (written, st2) :=
                    dump_json write_json output_file (Some result) st1 in
                  match written with
                  | Raises e => chunked st2
                  | Returns _ => (Return result, st2)
                  end
              end
          end
    end.

End ApiFormat.

Arguments chat_and_dump {World Schema Response} chat model_dump
  model schema messages w.
Arguments transform_toc_tree_to_api_format count_tokens_in_json lower_other
  {World Schema Response} chat model_dump write_json TOKEN_LIMIT
  MAX_SECTION_TEXT_LENGTH LLM_MODEL MindmapDocument TRANSFORM_SYSTEM_PROMPT
  user_prompt first_user_message continuation_user_message api_key
  toc_tree_data output_file st.

(** For the concrete runs: the response is the document itself. *)
Definition plain_dump (resp : dict) : outcome dict := Returns resp.

Definition plain_user_prompt (cleaned : value) : str := lit "tree".

Definition sample_api_run (tree : dict)
  : completion dict * chunked_state nat unit :=
  transform_toc_tree_to_api_format object_count keep_other counting_chat
    plain_dump accepting_write 175000 3000 (lit "gpt-4.1") tt (lit "system")
    plain_user_prompt plain_first_message plain_continuation_message
    true (VDict tree) (lit "out.json") sample_state.

(** A file of a run: the output file or one of its intermediate
    files. *)
Definition file_of_run (output_file : str) (w : str * option dict) : Prop :=
  fst w = output_file \/
  exists k, (1 <= k)%nat /\ fst w = intermediate_file output_file k.

(* ===================================================================== *)
(** * Part II: lemmas and theorems                                        *)
(* ===================================================================== *)

(* --------------------------------------------------------------------- *)
(** ** Strings and dicts *)

Lemma char_eqb_eq (a b : char) : char_eqb a b = true <-> a = b.
Proof. unfold char_eqb. apply N.eqb_eq. Qed.

Lemma str_eqb_eq (a b : str) : str_eqb a b = true <-> a = b.
Proof.
  revert b. induction a as [|x a IH]; intros [|y b]; simpl;
    try (split; [discriminate | discriminate]); try tauto.
  rewrite andb_true_iff, char_eqb_eq, IH.
  split; [intros [-> ->]; reflexivity | intros H; inversion H; auto].
Qed.

Lemma str_eqb_refl (a : str) : str_eqb a a = true.
Proof. apply str_eqb_eq. reflexivity. Qed.

Lemma str_eqb_neq (a b : str) : str_eqb a b = false <-> a <> b.
Proof.
  rewrite <- str_eqb_eq. destruct (str_eqb a b); split; congruence.
Qed.

Lemma str_eqb_sym (a b : str) : str_eqb a b = str_eqb b a.
Proof.
  destruct (str_eqb a b) eqn:E.
  - apply str_eqb_eq in E. subst. symmetry. apply str_eqb_refl.
  - symmetry. apply str_eqb_neq. apply str_eqb_neq in E. congruence.
Qed.

Lemma dict_get_set (k k' : str) (v : value) (d : dict) :
  dict_get k (dict_set k' v d)
  = if str_eqb k' k then Some v else dict_get k d.
Proof.
  induction d as [|[k2 v2] d IH]; simpl.
  - reflexivity.
  - destruct (str_eqb k2 k') eqn:E; simpl.
    + apply str_eqb_eq in E. subst k2. destruct (str_eqb k' k); reflexivity.
    + rewrite IH. destruct (str_eqb k2 k) eqn:E2; [|reflexivity].
      apply str_eqb_eq in E2. subst k2. rewrite str_eqb_sym, E. reflexivity.
Qed.

Lemma dict_get_set_same (k : str) (v : value) (d : dict) :
  dict_get k (dict_set k v d) = Some v.
Proof. rewrite dict_get_set, str_eqb_refl. reflexivity. Qed.

Lemma dict_get_pop (k k' : str) (d : dict) :
  dict_get k (dict_pop k' d)
  = if str_eqb k' k then None else dict_get k d.
Proof.
  induction d as [|[k2 v2] d IH]; simpl.
  - destruct (str_eqb k' k); reflexivity.
  - destruct (str_eqb k2 k') eqn:E; simpl.
    + rewrite IH. apply str_eqb_eq in E. subst k2.
      destruct (str_eqb k' k); reflexivity.
    + rewrite IH. destruct (str_eqb k2 k) eqn:E2; [|reflexivity].
      apply str_eqb_eq in E2. subst k2. rewrite str_eqb_sym, E. reflexivity.
Qed.

Lemma dict_set_same_value (k : str) (v : value) (d : dict) :
  dict_get k d = Some v -> dict_set k v d = d.
Proof.
  induction d as [|[k2 v2] d IH]; simpl; [discriminate|].
  destruct (str_eqb k2 k) eqn:E.
  - intros H. inversion H. reflexivity.
  - intros H. rewrite IH by assumption. reflexivity.
Qed.

(** Induction over an object and the objects inside it.  For a dict the
    hypothesis covers its values and, where a value is a list, the
    elements of that list: the shape of a tree whose nodes are dicts
    holding the list of their children. *)
Lemma value_nested_ind (P : value -> Prop) :
  P VNone ->
  (forall b, P (VBool b)) ->
  (forall z, P (VInt z)) ->
  (forall s, P (VStr s)) ->
  (forall l, Forall P l -> P (VList l)) ->
  (forall d,
     Forall (fun kv => P (snd kv) /\
                       forall cs, snd kv = VList cs -> Forall P cs) d ->
     P (VDict d)) ->
  forall v, P v.
Proof.
  intros HN HB HI HS HL HD.
  assert (H : forall v, P v /\ forall cs, v = VList cs -> Forall P cs).
  { fix self 1. intros [| b | z | s | l | d].
    - split; [exact HN | discriminate].
    - split; [apply HB | discriminate].
    - split; [apply HI | discriminate].
    - split; [apply HS | discriminate].
    - assert (Hl : Forall P l).
      { induction l as [|x l IHl]; constructor;
          [apply (self x) | exact IHl]. }
      split; [apply HL; exact Hl | intros cs E; inversion E; subst; exact Hl].
    - split; [|discriminate].
      apply HD. induction d as [|[k x] d IHd]; constructor;
        [apply (self x) | exact IHd]. }
  intros v. apply H.
Qed.

Lemma dict_get_In (k : str) (d : dict) (x : value) :
  dict_get k d = Some x -> exists k', In (k', x) d.
Proof.
  induction d as [|[k' v] d IH]; cbn [dict_get]; [discriminate|].
  destruct (str_eqb k' k).
  - intros E. inversion E; subst. exists k'. left. reflexivity.
  - intros E. destruct (IH E) as [k2 H]. exists k2. right. exact H.
Qed.

Lemma len_nonneg {A} (l : list A) : 0 <= len l.
Proof. unfold len. lia. Qed.

Lemma len_app {A} (a b : list A) : len (a ++ b) = len a + len b.
Proof. unfold len. rewrite length_app. lia. Qed.

Lemma lstrip_len (s : str) : len (lstrip s) <= len s.
Proof.
  induction s as [|c s IH]; simpl; [lia|].
  destruct (is_space c); unfold len in *; simpl; lia.
Qed.

Lemma strip_len (s : str) : len (strip s) <= len s.
Proof.
  unfold strip, rstrip.
  pose proof (lstrip_len (rev (lstrip s))) as H1.
  pose proof (lstrip_len s) as H2.
  unfold len in *. rewrite length_rev in *. lia.
Qed.

Lemma slice_to_len (n : Z) (s : str) :
  len (slice_to n s) <= len s /\
  (0 <= n -> len (slice_to n s) <= n) /\
  (n < 0 -> len (slice_to n s) <= Z.max 0 (len s + n)).
Proof.
  unfold slice_to, len.
  destruct (0 <=? n) eqn:E; rewrite length_firstn.
  - apply Z.leb_le in E. lia.
  - apply Z.leb_gt in E. lia.
Qed.

(* --------------------------------------------------------------------- *)
(** ** TreeCleaner *)

Lemma mapM_clean_each (m : Z) (cs : list value) :
  (fix each (cs : list value) : result (list value) :=
     match cs with
     | [] => Ok []
     | child :: cs' =>
         c <- clean_toc_tree child m ;; r <- each cs' ;; Ok (c :: r)
     end) cs
  = mapM (fun child => clean_toc_tree child m) cs.
Proof. induction cs as [|c cs IH]; simpl; [reflexivity | rewrite IH; reflexivity]. Qed.

(** [clean_toc_tree] on a dict, with the look-up of "children" written as
    the source has it. *)
Lemma clean_toc_tree_dict (d : dict) (m : Z) :
  clean_toc_tree (VDict d) m
  = (cleaned <- clean_sections_field d m ;;
     clean_children_field cleaned
       (option_map (clean_children m) (dict_get k_children d))).
Proof.
  cbn [clean_toc_tree].
  destruct (clean_sections_field d m) as [cleaned|e]; cbn [bind];
    [|reflexivity].
  f_equal. clear cleaned.
  induction d as [|[k v] d IH]; [reflexivity|].
  cbn [dict_get]. destruct (str_eqb k k_children).
  - cbn [option_map]. f_equal. unfold clean_children.
    destruct v; try reflexivity. apply mapM_clean_each.
  - exact IH.
Qed.

(** The sections block leaves the other keys alone. *)
Lemma clean_sections_field_other (d cleaned : dict) (m : Z) (k : str) :
  clean_sections_field d m = Ok cleaned ->
  str_eqb k_sections k = false ->
  dict_get k cleaned = dict_get k d.
Proof.
  unfold clean_sections_field. intros H Hk.
  destruct (dict_get k_sections d) as [sections|]; [|congruence].
  destruct (py_iter sections) as [entries|]; [|discriminate].
  cbn [bind] in H.
  destruct (clean_sections entries m) as [[|t kept]|]; cbn [bind] in H;
    inversion H; subst.
  - rewrite dict_get_pop, Hk. reflexivity.
  - rewrite dict_get_set, Hk. reflexivity.
Qed.

(** What the sections block leaves under "sections". *)
Lemma clean_sections_field_sections (d cleaned : dict) (m : Z) (entries : list value) :
  clean_sections_field d m = Ok cleaned ->
  dict_get k_sections d = Some (VList entries) ->
  exists kept,
    clean_sections entries m = Ok kept /\
    dict_get k_sections cleaned
    = match kept with
      | [] => None
      | _ :: _ => Some (VList (map VStr kept))
      end.
Proof.
  unfold clean_sections_field. intros H Hs. rewrite Hs in H.
  cbn [py_iter bind] in H.
  destruct (clean_sections entries m) as [[|t kept]|]; cbn [bind] in H;
    inversion H; subst.
  - exists []. split; [reflexivity|].
    rewrite dict_get_pop, str_eqb_refl. reflexivity.
  - exists (t :: kept). split; [reflexivity|].
    rewrite dict_get_set_same. reflexivity.
Qed.

Lemma clean_sections_field_absent (d : dict) (m : Z) :
  dict_get k_sections d = None -> clean_sections_field d m = Ok d.
Proof. unfold clean_sections_field. intros ->. reflexivity. Qed.

(** The children block leaves the other keys alone. *)
Lemma clean_children_field_other (cleaned : dict) (r : option (result (list value)))
    (out : value) (k : str) :
  clean_children_field cleaned r = Ok out ->
  str_eqb k_children k = false ->
  exists d', out = VDict d' /\ dict_get k d' = dict_get k cleaned.
Proof.
  unfold clean_children_field. intros H Hk.
  destruct (dict_get k_children cleaned) as [children|];
    [|inversion H; eauto].
  destruct r as [[cs|e]|]; [| |inversion H; eauto];
    destruct (truthy children); cbn [bind] in H; inversion H; eauto.
  eexists. split; [reflexivity|]. rewrite dict_get_set, Hk. reflexivity.
Qed.

(** The output node's "sections": the survivors of the input's entries,
    as bare strings and in order, and no key at all when none survives. *)
Lemma clean_toc_tree_sections (d : dict) (m : Z) (out : value) (entries : list value) :
  clean_toc_tree (VDict d) m = Ok out ->
  dict_get k_sections d = Some (VList entries) ->
  exists d' kept,
    out = VDict d' /\
    clean_sections entries m = Ok kept /\
    dict_get k_sections d'
    = match kept with
      | [] => None
      | _ :: _ => Some (VList (map VStr kept))
      end.
Proof.
  rewrite clean_toc_tree_dict. intros H Hs.
  destruct (clean_sections_field d m) as [cleaned|] eqn:Hc; [|discriminate].
  cbn [bind] in H.
  destruct (clean_sections_field_sections _ _ _ _ Hc Hs) as (kept & Hk & Hg).
  destruct (clean_children_field_other _ _ _ k_sections H eq_refl)
    as (d' & -> & Hd').
  exists d', kept. split; [reflexivity|]. split; [exact Hk|].
  rewrite Hd'. exact Hg.
Qed.

(** A node without "sections" has none in the output either. *)
Lemma clean_toc_tree_no_sections (d : dict) (m : Z) (out : value) :
  clean_toc_tree (VDict d) m = Ok out ->
  dict_get k_sections d = None ->
  exists d', out = VDict d' /\ dict_get k_sections d' = None.
Proof.
  rewrite clean_toc_tree_dict. intros H Hs.
  rewrite (clean_sections_field_absent _ _ Hs) in H. cbn [bind] in H.
  destruct (clean_children_field_other _ _ _ k_sections H eq_refl)
    as (d' & -> & Hd').
  exists d'. split; [reflexivity | congruence].
Qed.

Lemma clean_sections_emitted (entries : list value) (m : Z) (kept : list str) :
  clean_sections entries m = Ok kept ->
  kept = flat_map (emitted m) entries.
Proof.
  revert kept. induction entries as [|e es IH]; simpl; intros kept H.
  - inversion H. reflexivity.
  - unfold emitted at 1.
    destruct (clean_section e m) as [r|]; [|discriminate]. cbn [bind] in H.
    destruct (clean_sections es m) as [kept'|]; [|discriminate].
    cbn [bind] in H. inversion H; subst.
    rewrite (IH kept' eq_refl). destruct r; reflexivity.
Qed.

(** A section record yields something only when it holds a string, and
    the yield is the trimmed text or its first characters and the marker. *)
Lemma clean_section_some (section : value) (m : Z) (out : str) :
  clean_section section m = Ok (Some out) ->
  exists raw,
    entry_text section = Some raw /\
    10 <= len (strip raw) /\
    out = (if m <? len (strip raw)
           then slice_to m (strip raw) ++ MARKER
           else strip raw).
Proof.
  unfold clean_section, entry_text.
  destruct section as [| | | s | l | d]; cbn [py_contains bind];
    try discriminate.
  - destruct (contains k_section_text s); cbn; discriminate.
  - destruct (existsb (is_the_str k_section_text) l); cbn; discriminate.
  - unfold dict_mem, py_getitem, dict_get_default.
    destruct (dict_get k_section_text d) as [raw|]; [|discriminate].
    cbn [bind].
    destruct raw as [| | | raw | |]; cbn [py_strip bind]; try discriminate.
    intros H. exists raw. split; [reflexivity|].
    destruct (len (strip raw) <? 10) eqn:E1; [discriminate|].
    apply Z.ltb_ge in E1. split; [exact E1|].
    destruct (len (strip raw) <? _); [discriminate|].
    destruct (m <? len (strip raw)); inversion H; reflexivity.
Qed.

Lemma clean_section_bound (section : value) (m : Z) (out : str) :
  In out (emitted m section) ->
  exists raw,
    entry_text section = Some raw /\
    len out <= len raw + 2 /\
    (len (strip raw) <= m -> len out <= len raw).
Proof.
  unfold emitted.
  destruct (clean_section section m) as [[t|]|] eqn:E; simpl; try tauto.
  intros [<-|[]].
  destruct (clean_section_some _ _ _ E) as (raw & Hraw & H10 & Hout).
  exists raw. split; [exact Hraw|].
  pose proof (strip_len raw) as Hs.
  destruct (m <? len (strip raw)) eqn:Em.
  - apply Z.ltb_lt in Em. subst t. rewrite len_app.
    destruct (slice_to_len m (strip raw)) as (_ & Hpos & Hneg).
    change (len MARKER) with 3.
    split; [|lia].
    destruct (Z_lt_le_dec m 0) as [Hm|Hm]; [specialize (Hneg Hm)|specialize (Hpos Hm)]; lia.
  - apply Z.ltb_ge in Em. subst t. split; lia.
Qed.

Lemma total_len_app (a b : list str) :
  total_len (a ++ b) = total_len a + total_len b.
Proof. induction a as [|x a IH]; simpl; [reflexivity | rewrite IH; lia]. Qed.

Lemma total_len_nonneg (l : list str) : 0 <= total_len l.
Proof.
  induction l as [|x l IH]; simpl; [lia|]. pose proof (len_nonneg x). lia.
Qed.

Lemma emitted_total (m : Z) (entries : list value) :
  total_len (flat_map (emitted m) entries)
  <= total_len (texts entries) + 2 * len (flat_map (emitted m) entries).
Proof.
  induction entries as [|e es IH]; [unfold len; simpl; lia|].
  unfold texts in *. cbn [flat_map]. rewrite !total_len_app, len_app.
  pose proof (clean_section_bound e m) as Hb. unfold emitted at 1 3.
  unfold emitted in Hb.
  destruct (clean_section e m) as [[t|]|].
  - destruct (Hb t (or_introl eq_refl)) as (raw & -> & Hle & _).
    cbn [total_len fold_right]. change (len [t]) with 1. lia.
  - pose proof (total_len_nonneg
                  (match entry_text e with Some s => [s] | None => [] end)).
    cbn [total_len fold_right] in *. change (len (@nil str)) with 0. lia.
  - pose proof (total_len_nonneg
                  (match entry_text e with Some s => [s] | None => [] end)).
    cbn [total_len fold_right] in *. change (len (@nil str)) with 0. lia.
Qed.

(** C2 (as the code has it).  For every node and every maximum length,
    the strings of the output node's "sections" are the strings emitted
    from the input's section records, in order.  A string emitted from a
    record is at most two characters longer than the record's
    "section_text" (the three-character marker replaces at least one
    character), and no longer than it when the trimmed text is within the
    maximum; so the total text of a node grows by at most two characters
    per emitted string. *)
Theorem clean_toc_tree_growth_bound
    (d : dict) (m : Z) (out : value) (entries : list value) :
  clean_toc_tree (VDict d) m = Ok out ->
  dict_get k_sections d = Some (VList entries) ->
  exists d',
    out = VDict d' /\
    dict_get k_sections d'
    = match flat_map (emitted m) entries with
      | [] => None
      | kept => Some (VList (map VStr kept))
      end /\
    (forall e t, In e entries -> In t (emitted m e) ->
       exists raw,
         entry_text e = Some raw /\
         len t <= len raw + 2 /\
         (len (strip raw) <= m -> len t <= len raw)) /\
    total_len (flat_map (emitted m) entries)
    <= total_len (texts entries) + 2 * len (flat_map (emitted m) entries).
Proof.
  intros H Hs.
  destruct (clean_toc_tree_sections _ _ _ _ H Hs) as (d' & kept & -> & Hk & Hg).
  apply clean_sections_emitted in Hk. subst kept.
  exists d'. split; [reflexivity|]. split.
  - rewrite Hg. destruct (flat_map (emitted m) entries); reflexivity.
  - split; [|apply emitted_total].
    intros e t _ Ht. apply (clean_section_bound e m t Ht).
Qed.

Lemma clean_toc_tree_growth_bound_witness :
  exists d',
    VDict [(k_title, VStr (lit "T"));
           (k_sections, VList [VStr (lit "abcdefghij...")])] = VDict d' /\
    dict_get k_sections d'
    = match flat_map (emitted 10) [entry (lit "abcdefghijk")] with
      | [] => None
      | kept => Some (VList (map VStr kept))
      end /\
    (forall e t, In e [entry (lit "abcdefghijk")] -> In t (emitted 10 e) ->
       exists raw,
         entry_text e = Some raw /\
         len t <= len raw + 2 /\
         (len (strip raw) <= 10 -> len t <= len raw)) /\
    total_len (flat_map (emitted 10) [entry (lit "abcdefghijk")])
    <= total_len (texts [entry (lit "abcdefghijk")])
       + 2 * len (flat_map (emitted 10) [entry (lit "abcdefghijk")]).
Proof.
  apply (clean_toc_tree_growth_bound (node_with_section (lit "abcdefghijk")) 10);
    reflexivity.
Defined.

(** C2 fails as stated: with a maximum of 10, the 11-character text
    "abcdefghijk" is emitted as the 13-character "abcdefghij...". *)
Lemma truncation_can_lengthen :
  clean_toc_tree (VDict (node_with_section (lit "abcdefghijk"))) 10
  = Ok (VDict [(k_title, VStr (lit "T"));
               (k_sections, VList [VStr (lit "abcdefghij...")])])
  /\ len (lit "abcdefghijk") = 11
  /\ len (lit "abcdefghij...") = 13.
Proof. repeat split. Qed.





(** The lengths of the rules are those of the trimmed text: of the ten
    characters of " abcdefghi", none a dot or an ellipsis, nine are left
    by rule 1, and the record is dropped by rule 2. *)
Lemma ten_characters_with_padding_dropped :
  length (lit " abcdefghi") = 10%nat /\
  count_char DOT (lit " abcdefghi") + count_char ELLIPSIS (lit " abcdefghi") = 0 /\
  len (strip (lit " abcdefghi")) = 9 /\
  clean_section (entry (lit " abcdefghi")) 3000 = Ok None /\
  clean_toc_tree (VDict (node_with_section (lit " abcdefghi"))) 3000
  = Ok (VDict [(k_title, VStr (lit "T"))]).
Proof. repeat split. Qed.

Lemma is_toc_node_sections (d : dict) (x : value) :
  is_toc_node (VDict d) = true ->
  dict_get k_sections d = Some x ->
  exists es, x = VList es /\ forallb is_section_entry es = true.
Proof.
  cbn [is_toc_node].
  induction d as [|[k v] d IH]; cbn [forallb dict_get]; [discriminate|].
  intros H Hg. apply andb_true_iff in H. destruct H as [Hv Hd].
  destruct (str_eqb k k_sections).
  - inversion Hg; subst. destruct x; try discriminate. eauto.
  - auto.
Qed.

Lemma is_toc_node_children (d : dict) (x : value) :
  is_toc_node (VDict d) = true ->
  dict_get k_children d = Some x ->
  exists cs, x = VList cs /\ forallb is_toc_node cs = true.
Proof.
  cbn [is_toc_node].
  induction d as [|[k v] d IH]; cbn [forallb dict_get]; [discriminate|].
  intros H Hg. apply andb_true_iff in H. destruct H as [Hv Hd].
  destruct (str_eqb k k_children) eqn:E.
  - inversion Hg; subst.
    apply str_eqb_eq in E. subst k. cbn in Hv.
    destruct x; try discriminate. eauto.
  - auto.
Qed.

Lemma clean_section_entry_ok (e : value) (m : Z) :
  is_section_entry e = true -> exists r, clean_section e m = Ok r.
Proof.
  unfold is_section_entry, clean_section.
  destruct e as [| | | | |d]; try discriminate.
  cbn [py_contains bind]. unfold dict_mem, py_getitem, dict_get_default.
  destruct (dict_get k_section_text d) as [x|]; [|eauto].
  destruct x; try discriminate. intros _. cbn [bind py_strip].
  destruct (len (strip s) <? 10); [eauto|].
  destruct (len (strip s) <? _); [eauto|].
  destruct (m <? len (strip s)); eauto.
Qed.

Lemma clean_sections_ok (es : list value) (m : Z) :
  forallb is_section_entry es = true -> exists kept, clean_sections es m = Ok kept.
Proof.
  induction es as [|e es IH]; cbn [forallb clean_sections]; [eauto|].
  intros H. apply andb_true_iff in H. destruct H as [He Hes].
  destruct (clean_section_entry_ok e m He) as [r ->].
  destruct (IH Hes) as [kept ->]. cbn [bind]. eauto.
Qed.

Lemma mapM_ok {A B} (f : A -> result B) (l : list A) :
  Forall (fun a => exists b, f a = Ok b) l -> exists bs, mapM f l = Ok bs.
Proof.
  induction 1 as [|a l [b Hb] _ [bs IH]]; cbn [mapM]; [eauto|].
  rewrite Hb, IH. cbn [bind]. eauto.
Qed.

(** A node without "children" has none in the output either. *)
Lemma clean_toc_tree_no_children (d : dict) (m : Z) (out : value) :
  clean_toc_tree (VDict d) m = Ok out ->
  dict_get k_children d = None ->
  exists d', out = VDict d' /\ dict_get k_children d' = None.
Proof.
  rewrite clean_toc_tree_dict. intros H Hc.
  destruct (clean_sections_field d m) as [cleaned|] eqn:Hs; [|discriminate].
  cbn [bind] in H.
  pose proof (clean_sections_field_other _ _ _ k_children Hs eq_refl) as Hk.
  rewrite Hc in Hk. unfold clean_children_field in H. rewrite Hk in H.
  inversion H; subst. exists cleaned. split; [reflexivity | exact Hk].
Qed.

(** A "section_text" that is not a string has no [strip]. *)
Lemma clean_section_not_string (e : dict) (x : value) (m : Z) :
  dict_get k_section_text e = Some x ->
  is_str x = false ->
  clean_section (VDict e) m = Raise AttributeError.
Proof.
  intros H Hx. unfold clean_section. cbn [py_contains bind].
  unfold dict_mem, py_getitem, dict_get_default. rewrite H. cbn [bind].
  destruct x; try discriminate; reflexivity.
Qed.

(** The loop over the records ends at the first record that raises. *)
Lemma clean_sections_raises (entries : list value) (e : value) (m : Z)
    (x : exn) :
  In e entries ->
  clean_section e m = Raise x ->
  exists y, clean_sections entries m = Raise y.
Proof.
  induction entries as [|e0 rest IH]; [intros []|].
  intros Hin He. cbn [clean_sections].
  destruct (clean_section e0 m) as [r|z] eqn:E0; cbn [bind]; [|eauto].
  destruct Hin as [->|Hin]; [congruence|].
  destruct (IH Hin He) as [y ->]. cbn [bind]. eauto.
Qed.

(** C10 (as the code has it).  On every TOC node (a dict whose
    "sections", when present, is a list of records in which
    "section_text", when present, is a string, and whose "children",
    when present, is a list of such nodes) [clean_toc_tree] returns a
    node and raises nothing, whatever the maximum length.  Absent fields
    count as empty: a node without "sections" or without "children" has
    none in the output, and a record without "section_text" contributes
    nothing.  A record whose "section_text" is present and is not a
    string makes the call raise. *)
Theorem clean_toc_tree_returns (m : Z) :
  (forall node : value,
     is_toc_node node = true ->
     exists cleaned,
       clean_toc_tree node m = Ok (VDict cleaned) /\
       forall d, node = VDict d ->
         (dict_get k_sections d = None ->
          dict_get k_sections cleaned = None) /\
         (dict_get k_children d = None ->
          dict_get k_children cleaned = None)) /\
  (forall e : dict,
     dict_get k_section_text e = None ->
     clean_section (VDict e) m = Ok None /\ emitted m (VDict e) = []) /\
  (forall (d e : dict) (entries : list value) (x : value),
     dict_get k_sections d = Some (VList entries) ->
     In (VDict e) entries ->
     dict_get k_section_text e = Some x ->
     is_str x = false ->
     exists y, clean_toc_tree (VDict d) m = Raise y).
Proof.
  split; [|split].
  - assert (Hret : forall node,
              is_toc_node node = true ->
              exists cleaned, clean_toc_tree node m = Ok (VDict cleaned)).
    { apply (value_nested_ind
        (fun node => is_toc_node node = true ->
                     exists cleaned, clean_toc_tree node m = Ok (VDict cleaned)));
        try discriminate.
      intros d IH Hnode. rewrite clean_toc_tree_dict.
      assert (Hs : exists cleaned, clean_sections_field d m = Ok cleaned).
      { unfold clean_sections_field.
        destruct (dict_get k_sections d) as [x|] eqn:Hg; [|eauto].
        destruct (is_toc_node_sections _ _ Hnode Hg) as (es & -> & Hes).
        cbn [py_iter bind].
        destruct (clean_sections_ok es m Hes) as [kept ->]. cbn [bind].
        destruct kept; eauto. }
      destruct Hs as [cleaned Hc]. rewrite Hc. cbn [bind].
      rewrite <- (clean_sections_field_other _ _ _ k_children Hc eq_refl).
      unfold clean_children_field.
      destruct (dict_get k_children cleaned) as [x|] eqn:Hg; [|eauto].
      rewrite (clean_sections_field_other _ _ _ k_children Hc eq_refl) in Hg.
      destruct (is_toc_node_children _ _ Hnode Hg) as (cs & -> & Hcs).
      cbn [option_map]. destruct (truthy (VList cs)); [|eauto].
      assert (Hall : exists out, clean_children m (VList cs) = Ok out).
      { cbn [clean_children]. apply mapM_ok.
        destruct (dict_get_In _ _ _ Hg) as [k' Hk'].
        rewrite Forall_forall in IH.
        destruct (IH _ Hk') as [_ Hin]. cbn [snd] in Hin.
        specialize (Hin cs eq_refl).
        clear - Hin Hcs.
        induction Hin as [|c cs Hc _ IHcs]; constructor;
          cbn [forallb] in Hcs; apply andb_true_iff in Hcs;
          destruct Hcs as [H1 H2].
        - destruct (Hc H1) as [x Hx]. eauto.
        - apply IHcs. exact H2. }
      destruct Hall as [out ->]. cbn [bind]. eauto. }
    intros node Hnode. destruct (Hret node Hnode) as [cleaned Hc].
    exists cleaned. split; [exact Hc|].
    intros d ->. split.
    + intros Hn.
      destruct (clean_toc_tree_no_sections d m _ Hc Hn) as (d' & E & Hd').
      inversion E; subst. exact Hd'.
    + intros Hn.
      destruct (clean_toc_tree_no_children d m _ Hc Hn) as (d' & E & Hd').
      inversion E; subst. exact Hd'.
  - intros e He.
    assert (E : clean_section (VDict e) m = Ok None).
    { unfold clean_section. cbn [py_contains bind].
      unfold dict_mem. rewrite He. reflexivity. }
    split; [exact E|]. unfold emitted. rewrite E. reflexivity.
  - intros d e entries x Hs Hin He Hx.
    pose proof (clean_section_not_string e x m He Hx) as Hr.
    destruct (clean_sections_raises entries _ m _ Hin Hr) as [y Hy].
    exists y. rewrite clean_toc_tree_dict.
    unfold clean_sections_field. rewrite Hs. cbn [py_iter bind].
    rewrite Hy. reflexivity.
Qed.

Lemma clean_toc_tree_returns_witness :
  exists cleaned,
    clean_toc_tree (VDict (node_with_section (lit "abcdefghijk"))) 3000
    = Ok (VDict cleaned) /\
    forall d, VDict (node_with_section (lit "abcdefghijk")) = VDict d ->
      (dict_get k_sections d = None ->
       dict_get k_sections cleaned = None) /\
      (dict_get k_children d = None ->
       dict_get k_children cleaned = None).
Proof.
  apply (proj1 (clean_toc_tree_returns 3000)
           (VDict (node_with_section (lit "abcdefghijk")))).
  reflexivity.
Defined.

(** C10 fails as stated: a section record whose "section_text" is not a
    string ([None] here, a number likewise) makes [clean_toc_tree] raise,
    and so does a child that is a number (it has no [copy]). *)
Lemma malformed_section_text_raises :
  clean_toc_tree
    (VDict [(k_title, VStr (lit "T"));
            (k_sections, VList [VDict [(k_section_text, VNone)]])]) 3000
  = Raise AttributeError
  /\ clean_toc_tree
       (VDict [(k_title, VStr (lit "T"));
               (k_sections, VList [VDict [(k_section_text, VInt 5)]])]) 3000
     = Raise AttributeError
  /\ clean_toc_tree
       (VDict [(k_title, VStr (lit "T")); (k_children, VList [VInt 5])]) 3000
     = Raise AttributeError.
Proof. repeat split. Qed.

(* --------------------------------------------------------------------- *)
(** ** ChunkSplitter *)

Section ChunkSplitterFacts.

Variable count_tokens_in_json : value -> nat.
Variable tree : dict.
Variable chunk_size : Z.

Local Abbreviation cost x := (Z.of_nat (count_tokens_in_json x)).
Local Abbreviation base := (base_tokens count_tokens_in_json tree).
Local Abbreviation tokens_of := (children_tokens count_tokens_in_json).
Local Abbreviation step := (split_step count_tokens_in_json tree chunk_size).
Local Abbreviation grouping := (groups count_tokens_in_json tree chunk_size).
Local Abbreviation weight := (group_tokens count_tokens_in_json tree).

Lemma chunk_children_new_chunk :
  chunk_children (VDict (new_chunk tree)) = [].
Proof.
  unfold new_chunk. cbn [fold_left].
  destruct (dict_get k_page tree); destruct (dict_get k_sections tree);
    reflexivity.
Qed.

Lemma chunk_children_append (child : value) (chunk : dict) :
  chunk_children (VDict (chunk_append child chunk))
  = chunk_children (VDict chunk) ++ [child].
Proof.
  unfold chunk_append. cbn [chunk_children].
  rewrite dict_get_set_same. reflexivity.
Qed.

Lemma truthy_list (l : list value) : truthy (VList l) = negb (is_empty l).
Proof. destruct l; reflexivity. Qed.

(** The loop computes [groups]. *)
Lemma fold_split_step_groups (children : list value) (st : split_state) :
  map chunk_children (final_chunks (fold_left step children st))
  = map chunk_children (chunks st)
    ++ grouping (chunk_children (VDict (current_chunk st)))
                (current_tokens st) children.
Proof.
  revert st. induction children as [|child rest IH]; intros st.
  - cbn [fold_left groups]. unfold final_chunks. rewrite truthy_list.
    destruct (chunk_children (VDict (current_chunk st))) eqn:E;
      cbn [is_empty negb].
    + rewrite app_nil_r. reflexivity.
    + rewrite map_app. cbn [map]. rewrite E. reflexivity.
  - cbn [fold_left groups]. rewrite IH. clear IH.
    unfold split_step. rewrite truthy_list.
    destruct ((chunk_size <? current_tokens st + cost child)
              && negb (is_empty (chunk_children (VDict (current_chunk st)))));
      cbn [chunks current_chunk current_tokens].
    + rewrite chunk_children_append, chunk_children_new_chunk, map_app.
      cbn [map app]. rewrite <- app_assoc. reflexivity.
    + rewrite chunk_children_append. reflexivity.
Qed.

Lemma children_tokens_cons (x : value) (g : list value) :
  tokens_of (x :: g) = cost x + tokens_of g.
Proof. reflexivity. Qed.

Lemma children_tokens_nonneg (g : list value) : 0 <= tokens_of g.
Proof.
  induction g as [|x g IH]; [cbn; lia|].
  rewrite children_tokens_cons. lia.
Qed.

Lemma children_tokens_app (a b : list value) :
  tokens_of (a ++ b) = tokens_of a + tokens_of b.
Proof.
  induction a as [|x a IH]; [reflexivity|].
  cbn [app]. rewrite !children_tokens_cons, IH. lia.
Qed.

Lemma children_tokens_In (x : value) (g : list value) :
  In x g -> cost x <= tokens_of g.
Proof.
  induction g as [|y g IH]; [intros []|].
  rewrite children_tokens_cons.
  pose proof (children_tokens_nonneg g) as Hg.
  intros [->|H]; [lia | specialize (IH H); lia].
Qed.

Lemma base_tokens_nonneg : 0 <= base.
Proof. unfold base_tokens. lia. Qed.

(** *** What [groups] produces *)

Lemma groups_concat (children cur : list value) (tokens : Z) :
  concat (grouping cur tokens children) = cur ++ children.
Proof.
  revert cur tokens. induction children as [|child rest IH]; intros cur tokens;
    cbn [groups].
  - destruct cur; cbn; rewrite ?app_nil_r; reflexivity.
  - destruct ((chunk_size <? tokens + cost child) && negb (is_empty cur)).
    + cbn [concat]. rewrite IH. reflexivity.
    + rewrite IH, <- app_assoc. reflexivity.
Qed.

Lemma groups_nonempty (children cur : list value) (tokens : Z) :
  Forall (fun g => g <> []) (grouping cur tokens children).
Proof.
  revert cur tokens. induction children as [|child rest IH]; intros cur tokens;
    cbn [groups].
  - destruct cur; cbn; constructor; [discriminate | constructor].
  - destruct ((chunk_size <? tokens + cost child) && negb (is_empty cur)) eqn:E.
    + constructor; [|apply IH].
      apply andb_true_iff in E. destruct E as [_ E].
      destruct cur; [discriminate E | discriminate].
    + apply IH.
Qed.

(** The first group continues the one being filled. *)
Lemma groups_first (children cur : list value) (tokens : Z) :
  cur <> [] ->
  exists more gs, grouping cur tokens children = (cur ++ more) :: gs.
Proof.
  revert cur tokens. induction children as [|child rest IH]; intros cur tokens Hcur;
    cbn [groups].
  - destruct cur; [congruence|]. exists [], []. rewrite app_nil_r. reflexivity.
  - destruct ((chunk_size <? tokens + cost child) && negb (is_empty cur)).
    + exists [], (grouping [child] (base + cost child) rest).
      rewrite app_nil_r. reflexivity.
    + destruct (IH (cur ++ [child]) (tokens + cost child)) as (more & gs & E).
      { destruct cur; discriminate. }
      exists (child :: more), gs. rewrite E, <- app_assoc. reflexivity.
Qed.

Lemma groups_closed_when_full (children cur : list value) (tokens : Z) :
  tokens = weight cur ->
  closed_when_full count_tokens_in_json tree chunk_size
                   (grouping cur tokens children).
Proof.
  revert cur tokens. induction children as [|child rest IH]; intros cur tokens Ht;
    cbn [groups].
  - destruct cur; cbn; tauto.
  - destruct ((chunk_size <? tokens + cost child) && negb (is_empty cur)) eqn:E.
    + apply andb_true_iff in E. destruct E as [E1 E2].
      apply Z.ltb_lt in E1.
      assert (Hrest := IH [child] (base + cost child)).
      destruct (groups_first rest [child] (base + cost child))
        as (more & gs & Eg); [discriminate|].
      rewrite Eg in *. cbn [closed_when_full app]. split.
      * split; [destruct cur; [discriminate E2 | discriminate]|].
        rewrite <- Ht. exact E1.
      * apply Hrest. unfold group_tokens. cbn. lia.
    + apply IH. subst tokens. unfold group_tokens.
      rewrite children_tokens_app. cbn. lia.
Qed.

(** A group of two children or more stays within the budget. *)
Lemma groups_within_budget (children cur : list value) (tokens : Z) :
  tokens = weight cur ->
  ((2 <= length cur)%nat -> tokens <= chunk_size) ->
  Forall (fun g => (2 <= length g)%nat -> weight g <= chunk_size)
         (grouping cur tokens children).
Proof.
  revert cur tokens. induction children as [|child rest IH];
    intros cur tokens Ht Hfit; cbn [groups].
  - destruct cur; cbn; constructor; [|constructor].
    subst tokens. exact Hfit.
  - destruct ((chunk_size <? tokens + cost child) && negb (is_empty cur)) eqn:E.
    + constructor; [subst tokens; exact Hfit|].
      apply IH; [unfold group_tokens; cbn; lia|].
      cbn. lia.
    + apply IH.
      * subst tokens. unfold group_tokens.
        rewrite children_tokens_app. cbn. lia.
      * intros Hlen. apply andb_false_iff in E. destruct E as [E|E].
        -- apply Z.ltb_ge in E. exact E.
        -- (* a first child is added whatever it costs *)
           destruct cur as [|x cur]; [|discriminate E].
           cbn in Hlen. lia.
Qed.

End ChunkSplitterFacts.

Lemma split_tree_into_chunks_groups
    (count_tokens_in_json : value -> nat) (tree : dict) (chunk_size : Z)
    (children : list value) :
  py_iter (dict_get_default k_children (VList []) tree) = Ok children ->
  exists chunks,
    split_tree_into_chunks count_tokens_in_json (VDict tree) chunk_size
    = Ok chunks /\
    map chunk_children chunks
    = groups count_tokens_in_json tree chunk_size []
             (base_tokens count_tokens_in_json tree) children.
Proof.
  intros H. unfold split_tree_into_chunks. rewrite H. cbn [bind].
  exists (final_chunks
            (fold_left (split_step count_tokens_in_json tree chunk_size)
                       children (split_init count_tokens_in_json tree))).
  split.
  - unfold final_chunks. destruct (truthy _); reflexivity.
  - rewrite fold_split_step_groups.
    cbn [split_init chunks current_chunk current_tokens map app].
    rewrite chunk_children_new_chunk. reflexivity.
Qed.

(** C1.  For every tree whose "children" can be iterated (a list, or no
    key at all) and every budget, positive or not, the splitter returns
    chunks whose "children" lists, put end to end in order, are the
    tree's children: none lost, none moved, none repeated. *)
Theorem split_tree_into_chunks_concat
    (count_tokens_in_json : value -> nat) (tree : dict) (chunk_size : Z)
    (children : list value) :
  py_iter (dict_get_default k_children (VList []) tree) = Ok children ->
  exists chunks,
    split_tree_into_chunks count_tokens_in_json (VDict tree) chunk_size
    = Ok chunks /\
    concat (map chunk_children chunks) = children.
Proof.
  intros H.
  destruct (split_tree_into_chunks_groups count_tokens_in_json tree chunk_size
              children H) as (chunks & Hs & Hg).
  exists chunks. split; [exact Hs|].
  rewrite Hg. apply groups_concat.
Qed.

(** C5 (as the code has it).  The chunks returned all hold a child; two
    chunks that follow each other are such that the first child of the
    second did not fit in the first (the running total with it would have
    passed the budget); a chunk of two children or more is within the
    budget; when the cost of the seed of a chunk (the root-level fields)
    is within the budget, every chunk passes the budget by at most the
    cost of its last child; and a child whose own cost passes the budget
    is alone in its chunk. *)
Theorem split_tree_into_chunks_budget
    (count_tokens_in_json : value -> nat) (tree : dict) (chunk_size : Z)
    (children : list value) :
  py_iter (dict_get_default k_children (VList []) tree) = Ok children ->
  exists chunks,
    split_tree_into_chunks count_tokens_in_json (VDict tree) chunk_size
    = Ok chunks /\
    Forall (fun c => chunk_children c <> []) chunks /\
    closed_when_full count_tokens_in_json tree chunk_size
                     (map chunk_children chunks) /\
    Forall (fun c => (2 <= length (chunk_children c))%nat ->
                     chunk_tokens count_tokens_in_json tree c <= chunk_size)
           chunks /\
    (base_tokens count_tokens_in_json tree <= chunk_size ->
     Forall (fun c => chunk_tokens count_tokens_in_json tree c
                      <= chunk_size
                         + Z.of_nat (count_tokens_in_json
                                       (last (chunk_children c) VNone)))
            chunks) /\
    Forall (fun c => forall x, In x (chunk_children c) ->
                     chunk_size < Z.of_nat (count_tokens_in_json x) ->
                     chunk_children c = [x])
           chunks.
Proof.
  intros H.
  destruct (split_tree_into_chunks_groups count_tokens_in_json tree chunk_size
              children H) as (chunks & Hs & Hg).
  exists chunks. split; [exact Hs|].
  pose proof (groups_nonempty count_tokens_in_json tree chunk_size children []
                (base_tokens count_tokens_in_json tree)) as Hne.
  pose proof (groups_closed_when_full count_tokens_in_json tree chunk_size
                children [] (base_tokens count_tokens_in_json tree)) as Hcl.
  pose proof (groups_within_budget count_tokens_in_json tree chunk_size
                children [] (base_tokens count_tokens_in_json tree)) as Hin.
  rewrite <- Hg in Hne, Hcl, Hin.
  assert (Hw : base_tokens count_tokens_in_json tree
               = group_tokens count_tokens_in_json tree [])
    by (unfold group_tokens; cbn; lia).
  specialize (Hcl Hw). specialize (Hin Hw).
  assert (Hfit : Forall (fun c => (2 <= length (chunk_children c))%nat ->
                   chunk_tokens count_tokens_in_json tree c <= chunk_size) chunks).
  { rewrite Forall_map in Hin. apply Hin. cbn. lia. }
  rewrite Forall_map in Hne.
  split; [exact Hne|]. split; [exact Hcl|]. split; [exact Hfit|].
  pose proof (base_tokens_nonneg count_tokens_in_json tree) as Hb0.
  split.
  - intros Hbase. rewrite Forall_forall in *. intros c Hc.
    specialize (Hne c Hc). specialize (Hfit c Hc).
    unfold chunk_tokens in *.
    destruct (chunk_children c) as [|x [|y g]]; [congruence| |].
    + cbn. lia.
    + specialize (Hfit ltac:(cbn; lia)). lia.
  - rewrite Forall_forall in *. intros c Hc x Hx Hbig.
    specialize (Hfit c Hc). unfold chunk_tokens in Hfit.
    destruct (chunk_children c) as [|y [|z g]]; [destruct Hx| |].
    + destruct Hx as [->|[]]. reflexivity.
    + specialize (Hfit ltac:(cbn; lia)).
      pose proof (children_tokens_In count_tokens_in_json x _ Hx). lia.
Qed.

Lemma split_tree_into_chunks_concat_witness :
  exists chunks,
    split_tree_into_chunks object_count (VDict four_children) 7 = Ok chunks /\
    concat (map chunk_children chunks)
    = [leaf "a"; leaf "b"; VInt 1; leaf "c"].
Proof.
  apply (split_tree_into_chunks_concat object_count four_children 7).
  reflexivity.
Defined.

Lemma split_tree_into_chunks_budget_witness :
  exists chunks,
    split_tree_into_chunks object_count (VDict four_children) 7 = Ok chunks /\
    Forall (fun c => chunk_children c <> []) chunks /\
    closed_when_full object_count four_children 7
                     (map chunk_children chunks) /\
    Forall (fun c => (2 <= length (chunk_children c))%nat ->
                     chunk_tokens object_count four_children c <= 7)
           chunks /\
    (base_tokens object_count four_children <= 7 ->
     Forall (fun c => chunk_tokens object_count four_children c
                      <= 7 + Z.of_nat (object_count
                                         (last (chunk_children c) VNone)))
            chunks) /\
    Forall (fun c => forall x, In x (chunk_children c) ->
                     7 < Z.of_nat (object_count x) ->
                     chunk_children c = [x])
           chunks.
Proof.
  apply (split_tree_into_chunks_budget object_count four_children 7
           [leaf "a"; leaf "b"; VInt 1; leaf "c"]).
  reflexivity.
Defined.

(** C5 fails as stated when the seed of a chunk costs more than the
    budget.  Counting one token per object and per key, the seed
    [{"title": "T"}] costs 3; with a budget of 2 the child [1], of cost 1
    and so within the budget on its own, makes a chunk of cost 4, which
    passes the budget by 2, twice the cost of its last child. *)
Lemma seed_over_budget_breaks_soft_bound :
  split_tree_into_chunks object_count (VDict one_small_child) 2
  = Ok [VDict one_small_child]
  /\ chunk_children (VDict one_small_child) = [VInt 1]
  /\ Z.of_nat (object_count (VInt 1)) <= 2
  /\ chunk_tokens object_count one_small_child (VDict one_small_child) = 4
  /\ ~ (chunk_tokens object_count one_small_child (VDict one_small_child)
        <= 2 + Z.of_nat (object_count (VInt 1))).
Proof. repeat split; try reflexivity; cbn; lia. Qed.

(* --------------------------------------------------------------------- *)
(** ** TreeNormalizer *)

Lemma is_concept_node_dict (d : dict) :
  is_concept_node (VDict d) = forallb concept_entry d.
Proof. reflexivity. Qed.

Lemma concept_get (k : str) (d : dict) (x : value) :
  forallb concept_entry d = true ->
  dict_get k d = Some x ->
  concept_entry (k, x) = true.
Proof.
  induction d as [|[k' v] d IH]; cbn [forallb dict_get]; [discriminate|].
  intros H Hg. apply andb_true_iff in H. destruct H as [Hv Hd].
  destruct (str_eqb k' k) eqn:E; [|auto].
  apply str_eqb_eq in E. inversion Hg; subst. exact Hv.
Qed.

Lemma concept_set (k : str) (v : value) (d : dict) :
  forallb concept_entry d = true ->
  concept_entry (k, v) = true ->
  forallb concept_entry (dict_set k v d) = true.
Proof.
  intros Hd Hv. induction d as [|[k' v'] d IH]; cbn [dict_set forallb].
  - rewrite Hv. reflexivity.
  - cbn [forallb] in Hd. apply andb_true_iff in Hd. destruct Hd as [H1 H2].
    destruct (str_eqb k' k) eqn:E; cbn [forallb].
    + apply str_eqb_eq in E. subst k'. rewrite Hv, H2. reflexivity.
    + rewrite H1, (IH H2). reflexivity.
Qed.

(** A text field of a concept node: the string it holds, if any. *)
Lemma concept_text_field (k : str) (d : dict) :
  forallb concept_entry d = true ->
  str_eqb k k_title || str_eqb k k_question || str_eqb k k_description = true ->
  dict_get k d = None /\ str_field k d = []
  \/ dict_get k d = Some (VStr (str_field k d)).
Proof.
  intros Hd Hk. unfold str_field.
  destruct (dict_get k d) as [x|] eqn:Hg; [right | left; auto].
  pose proof (concept_get _ _ _ Hd Hg) as Hx. cbn [concept_entry] in Hx.
  rewrite Hk in Hx. destruct x; try discriminate. reflexivity.
Qed.

Lemma concept_text_truthy (k : str) (d : dict) :
  forallb concept_entry d = true ->
  str_eqb k k_title || str_eqb k k_question || str_eqb k k_description = true ->
  truthy (dict_get_default k VNone d) = negb (is_empty (str_field k d)).
Proof.
  intros Hd Hk. unfold dict_get_default.
  destruct (concept_text_field k d Hd Hk) as [[-> ->] | ->]; [reflexivity|].
  destruct (str_field k d); reflexivity.
Qed.

Lemma concept_text_value (k : str) (d : dict) :
  forallb concept_entry d = true ->
  str_eqb k k_title || str_eqb k k_question || str_eqb k k_description = true ->
  truthy (dict_get_default k VNone d) = true ->
  dict_get_default k VNone d = VStr (str_field k d).
Proof.
  intros Hd Hk. unfold dict_get_default.
  destruct (concept_text_field k d Hd Hk) as [[-> ->] | ->];
    [discriminate | reflexivity].
Qed.

Lemma concept_keywords (d : dict) :
  forallb concept_entry d = true ->
  dict_get_default k_keywords (VList []) d = VList (list_field k_keywords d)
  /\ forallb is_str (list_field k_keywords d) = true.
Proof.
  intros Hd. unfold dict_get_default, list_field.
  destruct (dict_get k_keywords d) as [x|] eqn:Hg; [|split; reflexivity].
  pose proof (concept_get _ _ _ Hd Hg) as Hx.
  change (concept_entry (k_keywords, x))
    with (match x with VList ks => forallb is_str ks | _ => false end) in Hx.
  destruct x; try discriminate. split; [reflexivity | exact Hx].
Qed.

Lemma concept_children (d : dict) :
  forallb concept_entry d = true ->
  dict_get_default k_children (VList []) d = VList (list_field k_children d)
  /\ forallb is_concept_node (list_field k_children d) = true.
Proof.
  intros Hd. unfold dict_get_default, list_field.
  destruct (dict_get k_children d) as [x|] eqn:Hg; [|split; reflexivity].
  pose proof (concept_get _ _ _ Hd Hg) as Hx.
  change (concept_entry (k_children, x))
    with (match x with VList cs => forallb is_concept_node cs | _ => false end)
    in Hx.
  destruct x; try discriminate. split; [reflexivity | exact Hx].
Qed.

Lemma strs_hashable (l : list value) :
  forallb is_str l = true -> forallb hashable l = true.
Proof.
  induction l as [|x l IH]; cbn [forallb]; [reflexivity|].
  intros H. apply andb_true_iff in H. destruct H as [Hx Hl].
  rewrite (IH Hl). destruct x; try discriminate. reflexivity.
Qed.

Section TreeNormalizerFacts.

Variable lower_other : str -> nat -> str.
Variable list_of_union : list value -> list value -> list value.

Local Abbreviation promote := (promote_child lower_other list_of_union).
Local Abbreviation loop := (root_loop lower_other list_of_union).
Local Abbreviation collapse :=
  (collapse_root_unary_nodes lower_other list_of_union).

Lemma stripped_title_concept (d : dict) :
  forallb concept_entry d = true ->
  stripped_title d = Ok (strip (str_field k_title d)).
Proof.
  intros Hd. unfold stripped_title.
  pose proof (concept_text_truthy k_title d Hd eq_refl) as Ht.
  destruct (truthy (dict_get_default k_title VNone d)) eqn:E.
  - rewrite (concept_text_value k_title d Hd eq_refl E). reflexivity.
  - symmetry in Ht. apply negb_false_iff in Ht.
    destruct (str_field k_title d); [reflexivity | discriminate].
Qed.

(** On nodes of the schema, [promote_child] raises nothing and builds
    [promoted]. *)
Lemma promote_child_concept (node child : dict) :
  forallb concept_entry node = true ->
  forallb concept_entry child = true ->
  promote node child = Ok (promoted lower_other list_of_union node child).
Proof.
  intros Hn Hc. unfold promote_child, promoted.
  rewrite (stripped_title_concept node Hn), (stripped_title_concept child Hc).
  cbn [bind].
  set (node1 := if is_generic_title lower_other (strip (str_field k_title node))
                then dict_set k_title (VStr (strip (str_field k_title child))) node
                else node).
  assert (H1 : forallb concept_entry node1 = true).
  { subst node1. destruct (is_generic_title _ _); [|exact Hn].
    apply concept_set; [exact Hn | reflexivity]. }
  rewrite (concept_text_truthy k_description child Hc eq_refl).
  rewrite (concept_text_truthy k_description node1 H1 eq_refl).
  set (cd := str_field k_description child).
  set (nd := str_field k_description node1).
  set (node2 := if negb (is_empty cd) && (is_empty nd || (len nd <? len cd))
                then dict_set k_description (VStr cd) node1 else node1).
  assert (Hdesc :
    (if negb (is_empty cd)
     then if negb (negb (is_empty nd))
          then Ok (dict_set k_description
                     (dict_get_default k_description VNone child) node1)
          else lc <- py_len (dict_get_default k_description VNone child) ;;
               ln <- py_len (dict_get_default k_description VNone node1) ;;
               if ln <? lc
               then Ok (dict_set k_description
                          (dict_get_default k_description VNone child) node1)
               else Ok node1
     else Ok node1) = Ok node2).
  { subst node2.
    pose proof (concept_text_truthy k_description child Hc eq_refl) as Tc.
    pose proof (concept_text_truthy k_description node1 H1 eq_refl) as Tn.
    fold cd in Tc. fold nd in Tn.
    destruct (is_empty cd) eqn:Ec; cbn [negb andb]; [reflexivity|].
    cbn [negb] in Tc.
    rewrite (concept_text_value k_description child Hc eq_refl Tc). fold cd.
    destruct (is_empty nd) eqn:En; cbn [negb orb]; [reflexivity|].
    cbn [negb] in Tn.
    rewrite (concept_text_value k_description node1 H1 eq_refl Tn). fold nd.
    cbn [py_len bind]. destruct (len nd <? len cd); reflexivity. }
  rewrite Hdesc. cbn [bind].
  assert (H2 : forallb concept_entry node2 = true).
  { subst node2.
    destruct (negb (is_empty cd) && (is_empty nd || (len nd <? len cd)));
      [|exact H1].
    apply concept_set; [exact H1 | reflexivity]. }
  rewrite (concept_text_truthy k_question child Hc eq_refl).
  rewrite (concept_text_truthy k_question node2 H2 eq_refl).
  rewrite negb_involutive.
  set (cq := str_field k_question child).
  set (node3 := if negb (is_empty cq) && is_empty (str_field k_question node2)
                then dict_set k_question (VStr cq) node2 else node2).
  assert (Hq :
    (if negb (is_empty cq) && is_empty (str_field k_question node2)
     then dict_set k_question (dict_get_default k_question VNone child) node2
     else node2) = node3).
  { subst node3.
    pose proof (concept_text_truthy k_question child Hc eq_refl) as Tc.
    fold cq in Tc.
    destruct (is_empty cq) eqn:Ec; cbn [negb andb]; [reflexivity|].
    cbn [negb] in Tc.
    rewrite (concept_text_value k_question child Hc eq_refl Tc). reflexivity. }
  rewrite Hq.
  assert (H3 : forallb concept_entry node3 = true).
  { subst node3.
    destruct (negb (is_empty cq) && is_empty (str_field k_question node2));
      [|exact H2].
    apply concept_set; [exact H2 | reflexivity]. }
  destruct (concept_keywords node3 H3) as [-> Hpk].
  destruct (concept_keywords child Hc) as [-> Hck].
  destruct (concept_children child Hc) as [-> _].
  unfold py_set. cbn [py_iter bind].
  rewrite (strs_hashable _ Hpk), (strs_hashable _ Hck). cbn [bind].
  reflexivity.
Qed.

End TreeNormalizerFacts.

(** [collapse_below] on a dict, with the look-up of "children" written as
    the source has it. *)
Lemma collapse_below_dict (d : dict) :
  collapse_below (VDict d)
  = match dict_get k_children d with
    | Some (VList cs) =>
        VDict (dict_set k_children (VList (map collapse_below cs)) d)
    | _ => VDict d
    end.
Proof.
  cbn [collapse_below].
  assert (H : forall es : dict,
    (fix children_of (es : dict) : option (list value) :=
       match es with
       | [] => None
       | (k, v) :: es' =>
           if str_eqb k k_children then
             match v with
             | VList cs => Some (map collapse_below cs)
             | _ => None
             end
           else children_of es'
       end) es
    = match dict_get k_children es with
      | Some (VList cs) => Some (map collapse_below cs)
      | _ => None
      end).
  { induction es as [|[k v] es IH]; [reflexivity|].
    cbn [dict_get]. destruct (str_eqb k k_children); [|exact IH].
    destruct v; reflexivity. }
  rewrite H. destruct (dict_get k_children d) as [[| | | | cs |]|]; reflexivity.
Qed.

(** Below the root nothing is collapsed: the pass returns the tree it was
    given. *)
Lemma collapse_below_id (v : value) : collapse_below v = v.
Proof.
  revert v. apply value_nested_ind; try reflexivity.
  intros d IH. rewrite collapse_below_dict.
  destruct (dict_get k_children d) as [x|] eqn:Hg; [|reflexivity].
  destruct x as [| | | | cs |]; try reflexivity.
  destruct (dict_get_In _ _ _ Hg) as [k' Hk'].
  rewrite Forall_forall in IH. destruct (IH _ Hk') as [_ Hcs].
  specialize (Hcs cs eq_refl).
  assert (Hm : map collapse_below cs = cs).
  { clear - Hcs. induction Hcs as [|c cs Hc _ IHcs]; [reflexivity|].
    cbn [map]. rewrite Hc, IHcs. reflexivity. }
  rewrite Hm, (dict_set_same_value _ _ _ Hg). reflexivity.
Qed.

Section TreeNormalizerTheorems.

Variable lower_other : str -> nat -> str.
Variable list_of_union : list value -> list value -> list value.

Local Abbreviation promote := (promote_child lower_other list_of_union).
Local Abbreviation loop := (root_loop lower_other list_of_union).
Local Abbreviation collapse :=
  (collapse_root_unary_nodes lower_other list_of_union).

(** The loop stops at once on a root that does not have exactly one
    child. *)
Lemma root_loop_stops (n : nat) (d : dict) :
  children_count (VDict d) <> 1%nat -> loop n d = Ok (d, O).
Proof.
  destruct n as [|n]; [reflexivity|]. cbn [root_loop children_count].
  destruct (dict_get k_children d) as [[| | | | cs |]|];
    intros Hc; try reflexivity.
  destruct cs as [|c [|c' cs]]; try reflexivity.
  - cbn [length] in Hc. congruence.
  - destruct c; reflexivity.
Qed.

(** C3 (as the code has it).  When the first application leaves a root
    that does not have exactly one child (it stopped before the
    iteration cap, or at it with the chain used up), a second
    application changes nothing. *)
Theorem collapse_root_unary_nodes_idempotent (t r : value) :
  collapse t true = Ok r ->
  children_count r <> 1%nat ->
  collapse r true = Ok r.
Proof.
  unfold collapse_root_unary_nodes.
  destruct t as [| | | | |d]; try (intros H _; inversion H; reflexivity).
  destruct (loop max_iterations d) as [[r' n]|] eqn:E; [|discriminate].
  cbn [bind fst]. rewrite collapse_below_id. intros H Hc.
  inversion H; subst r.
  rewrite (root_loop_stops _ _ Hc). cbn [bind fst].
  rewrite collapse_below_id. reflexivity.
Qed.

(** What the enumeration of a union of keyword sets guarantees: no
    duplicate, and the elements of either list. *)
Hypothesis list_of_union_spec :
  forall a b,
    forallb is_str a = true -> forallb is_str b = true ->
    NoDup (list_of_union a b) /\
    forall x, In x (list_of_union a b) <-> In x a \/ In x b.

Lemma list_of_union_strs (a b : list value) :
  forallb is_str a = true -> forallb is_str b = true ->
  forallb is_str (list_of_union a b) = true.
Proof.
  intros Ha Hb. destruct (list_of_union_spec a b Ha Hb) as [_ Hin].
  apply forallb_forall. intros x Hx. apply Hin in Hx.
  rewrite forallb_forall in Ha, Hb. destruct Hx; auto.
Qed.

Lemma promoted_concept (node child : dict) :
  forallb concept_entry node = true ->
  forallb concept_entry child = true ->
  forallb concept_entry (promoted lower_other list_of_union node child) = true.
Proof.
  intros Hn Hc. unfold promoted.
  set (node1 := if is_generic_title lower_other _ then _ else node).
  assert (H1 : forallb concept_entry node1 = true).
  { subst node1. destruct (is_generic_title _ _); [|exact Hn].
    apply concept_set; [exact Hn | reflexivity]. }
  set (node2 := if negb (is_empty (str_field k_description child)) && _
                then _ else node1).
  assert (H2 : forallb concept_entry node2 = true).
  { subst node2.
    match goal with |- context [if ?c then _ else _] => destruct c end;
      [|exact H1].
    apply concept_set; [exact H1 | reflexivity]. }
  set (node3 := if negb (is_empty (str_field k_question child)) && _
                then _ else node2).
  assert (H3 : forallb concept_entry node3 = true).
  { subst node3.
    match goal with |- context [if ?c then _ else _] => destruct c end;
      [|exact H2].
    apply concept_set; [exact H2 | reflexivity]. }
  destruct (concept_keywords node3 H3) as [_ Hpk].
  destruct (concept_keywords child Hc) as [_ Hck].
  destruct (concept_children child Hc) as [_ Hcs].
  apply concept_set; [|exact Hcs].
  match goal with |- context [if ?c then _ else _] => destruct c end;
    [|exact H3].
  apply concept_set; [exact H3|].
  exact (list_of_union_strs _ _ Hpk Hck).
Qed.

(** On a concept tree the loop raises nothing, makes at most [n] turns
    and, when it makes fewer, ends on a root that does not have exactly
    one child. *)
Lemma root_loop_concept (n : nat) (d : dict) :
  forallb concept_entry d = true ->
  exists r k,
    loop n d = Ok (r, k) /\
    forallb concept_entry r = true /\
    (k <= n)%nat /\
    ((k < n)%nat -> children_count (VDict r) <> 1%nat).
Proof.
  revert d. induction n as [|n IH]; intros d Hd.
  - exists d, O. cbn. repeat split; auto; lia.
  - cbn [root_loop].
    destruct (concept_children d Hd) as [Hch Hcs].
    unfold dict_get_default, list_field in Hch, Hcs.
    assert (Hstop : children_count (VDict d) <> 1%nat ->
                    exists r k,
                      Ok (d, O) = Ok (r, k) /\
                      forallb concept_entry r = true /\
                      (k <= S n)%nat /\
                      ((k < S n)%nat -> children_count (VDict r) <> 1%nat)).
    { intros Hc. exists d, O.
      split; [reflexivity|]. split; [exact Hd|]. split; [lia|].
      intros _. exact Hc. }
    destruct (dict_get k_children d) as [x|] eqn:Hg.
    + destruct x as [| | | | cs |]; try discriminate Hch.
      destruct cs as [|c [|c' cs']].
      * apply Hstop. cbn [children_count]. rewrite Hg. cbn. lia.
      * cbn [forallb] in Hcs. apply andb_true_iff in Hcs.
        destruct Hcs as [Hc _]. destruct c as [| | | | |child];
          try discriminate.
        rewrite is_concept_node_dict in Hc.
        rewrite (promote_child_concept lower_other list_of_union _ _ Hd Hc).
        cbn [bind].
        destruct (IH _ (promoted_concept d child Hd Hc))
          as (r & k & Hl & Hr & Hk & Hcount).
        rewrite Hl. cbn [bind fst snd]. exists r, (S k).
        split; [reflexivity|]. split; [exact Hr|]. split; [lia|].
        intros Hlt. apply Hcount. lia.
      * assert (E : match c with
                    | VDict _ | _ => @Ok (dict * nat) (d, O)
                    end = Ok (d, O)) by (destruct c; reflexivity).
        rewrite E. apply Hstop.
        cbn [children_count]. rewrite Hg. cbn. lia.
    + apply Hstop. cbn [children_count]. rewrite Hg. lia.
Qed.

Lemma chain_succ (n : nat) :
  chain (S n)
  = VDict [(k_title, VStr (lit "Link")); (k_children, VList [chain n])].
Proof. reflexivity. Qed.

(** Ten turns on a chain of eleven links or more leave the root above
    what remains of the chain. *)
Lemma root_loop_long_chain (k : nat) :
  loop max_iterations
       [(k_title, VStr (lit "Link")); (k_children, VList [chain (10 + k)])]
  = Ok ([(k_title, VStr (lit "Link")); (k_children, VList [chain k])],
        max_iterations).
Proof. vm_compute. reflexivity. Qed.

(** C4.  On every concept tree the call returns: the root loop makes at
    most [max_iterations] turns and the call raises nothing.  The root
    of the result has no child or at least two, unless the loop made all
    its turns; in that case the tree is returned as the loop left it.
    So a chain of single children longer than the cap comes back with
    ten links removed and the rest of the chain in place. *)
Theorem collapse_root_unary_nodes_converges (d : dict) :
  is_concept_node (VDict d) = true ->
  (exists r n,
     collapse_iterations lower_other list_of_union d = Ok (r, n) /\
     collapse (VDict d) true = Ok (VDict r) /\
     (n <= max_iterations)%nat /\
     (children_count (VDict r) = 0%nat
      \/ (2 <= children_count (VDict r))%nat
      \/ n = max_iterations)) /\
  (forall k,
     collapse (chain (11 + k)) true = Ok (chain (S k)) /\
     children_count (chain (S k)) = 1%nat).
Proof.
  intros Hd. rewrite is_concept_node_dict in Hd. split.
  - destruct (root_loop_concept max_iterations d Hd)
      as (r & n & Hl & _ & Hn & Hcount).
    exists r, n. unfold collapse_iterations, collapse_root_unary_nodes.
    rewrite Hl. cbn [bind fst]. rewrite collapse_below_id.
    split; [reflexivity|]. split; [reflexivity|]. split; [exact Hn|].
    destruct (Nat.eq_dec n max_iterations) as [->|Hne]; [auto|].
    assert (Hlt : (n < max_iterations)%nat) by lia.
    specialize (Hcount Hlt). lia.
  - intros k. split; [|reflexivity].
    change (11 + k)%nat with (S (10 + k)). rewrite chain_succ.
    unfold collapse_root_unary_nodes.
    rewrite root_loop_long_chain. cbn [bind fst].
    rewrite collapse_below_id. reflexivity.
Qed.

End TreeNormalizerTheorems.

(** *** [union_in_order] is an enumeration of the union *)

Lemma same_str_eq (x y : value) :
  is_str x = true -> (same_str x y = true <-> x = y).
Proof.
  destruct x as [| | | a | |]; try discriminate. intros _.
  destruct y as [| | | b | |]; cbn [same_str];
    try (split; [discriminate | discriminate]).
  rewrite str_eqb_eq. split; [intros ->; reflexivity | intros H; inversion H; reflexivity].
Qed.

Lemma existsb_same_str (x : value) (seen : list value) :
  is_str x = true ->
  (existsb (same_str x) seen = true <-> In x seen).
Proof.
  intros Hx. rewrite existsb_exists. split.
  - intros (y & Hy & E). apply (same_str_eq x y Hx) in E. subst y. exact Hy.
  - intros H. exists x. split; [exact H|]. apply same_str_eq; auto.
Qed.

Lemma first_occurrences_In (l seen : list value) (x : value) :
  forallb is_str l = true ->
  (In x (first_occurrences seen l) <-> In x l /\ ~ In x seen).
Proof.
  revert seen. induction l as [|y l IH]; intros seen Hl;
    cbn [first_occurrences].
  - cbn. tauto.
  - cbn [forallb] in Hl. apply andb_true_iff in Hl. destruct Hl as [Hy Hl].
    pose proof (existsb_same_str y seen Hy) as Hseen.
    destruct (existsb (same_str y) seen) eqn:E.
    + rewrite (IH seen Hl). cbn [In].
      assert (In y seen) by (apply Hseen; reflexivity).
      split; [tauto|]. intros [[->|H1] H2]; tauto.
    + cbn [In]. rewrite (IH (y :: seen) Hl). cbn [In].
      assert (Hn : ~ In y seen)
        by (intros H; apply Hseen in H; discriminate).
      split.
      * intros [->|[H1 H2]]; tauto.
      * intros [[->|H1] H2]; [tauto|].
        destruct (same_str y x) eqn:Exy.
        -- left. apply (same_str_eq y x Hy). exact Exy.
        -- right. split; [exact H1|]. intros [->|H3]; [|tauto].
           assert (same_str x x = true) by (apply same_str_eq; auto).
           congruence.
Qed.

Lemma first_occurrences_NoDup (l seen : list value) :
  forallb is_str l = true -> NoDup (first_occurrences seen l).
Proof.
  revert seen. induction l as [|y l IH]; intros seen Hl;
    cbn [first_occurrences]; [constructor|].
  cbn [forallb] in Hl. apply andb_true_iff in Hl. destruct Hl as [Hy Hl].
  destruct (existsb (same_str y) seen); [apply IH; exact Hl|].
  constructor; [|apply IH; exact Hl].
  rewrite (first_occurrences_In l (y :: seen) y Hl). cbn [In]. tauto.
Qed.

Lemma union_in_order_spec (a b : list value) :
  forallb is_str a = true -> forallb is_str b = true ->
  NoDup (union_in_order a b) /\
  forall x, In x (union_in_order a b) <-> In x a \/ In x b.
Proof.
  intros Ha Hb. unfold union_in_order.
  assert (Hab : forallb is_str (a ++ b) = true)
    by (rewrite forallb_app, Ha, Hb; reflexivity).
  split; [apply first_occurrences_NoDup; exact Hab|].
  intros x. rewrite (first_occurrences_In _ _ x Hab), in_app_iff. cbn. tauto.
Qed.

(** Look-ups through the updates of [promoted]: a [dict_set] is seen by
    its own key only. *)
Ltac through_set :=
  repeat (rewrite dict_get_set;
          match goal with
          | |- context [str_eqb ?a ?b] =>
              let v := eval vm_compute in (str_eqb a b) in
              change (str_eqb a b) with v
          end; cbv iota).

Section PromotedFields.

Variable lower_other : str -> nat -> str.
Variable list_of_union : list value -> list value -> list value.
Variables node child : dict.

Local Abbreviation result_dict :=
  (promoted lower_other list_of_union node child).

Lemma str_field_set_other (k k' : str) (v : value) (d : dict) :
  str_eqb k' k = false ->
  str_field k (dict_set k' v d) = str_field k d.
Proof. intros H. unfold str_field. rewrite dict_get_set, H. reflexivity. Qed.

Lemma list_field_set_other (k k' : str) (v : value) (d : dict) :
  str_eqb k' k = false ->
  list_field k (dict_set k' v d) = list_field k d.
Proof. intros H. unfold list_field. rewrite dict_get_set, H. reflexivity. Qed.

Lemma promoted_unfold :
  result_dict
  = let node1 :=
      if is_generic_title lower_other (strip (str_field k_title node))
      then dict_set k_title (VStr (strip (str_field k_title child))) node
      else node in
    let cd := str_field k_description child in
    let nd := str_field k_description node in
    let node2 :=
      if negb (is_empty cd) && (is_empty nd || (len nd <? len cd))
      then dict_set k_description (VStr cd) node1
      else node1 in
    let cq := str_field k_question child in
    let node3 :=
      if negb (is_empty cq) && is_empty (str_field k_question node)
      then dict_set k_question (VStr cq) node2
      else node2 in
    let pk := list_field k_keywords node in
    let ck := list_field k_keywords child in
    let node4 :=
      if negb (is_empty pk) || negb (is_empty ck)
      then dict_set k_keywords (VList (list_of_union pk ck)) node3
      else node3 in
    dict_set k_children (VList (list_field k_children child)) node4.
Proof.
  unfold promoted. cbv zeta.
  set (c1 := is_generic_title lower_other (strip (str_field k_title node))).
  set (node1 := if c1 then _ else node).
  assert (E1 : str_field k_description node1 = str_field k_description node).
  { subst node1. destruct c1; [|reflexivity].
    apply str_field_set_other. reflexivity. }
  rewrite E1.
  set (c2 := negb (is_empty (str_field k_description child)) && _).
  set (node2 := if c2 then _ else node1).
  assert (E2 : str_field k_question node2 = str_field k_question node).
  { subst node2 node1. destruct c2, c1;
      rewrite ?str_field_set_other by reflexivity; reflexivity. }
  rewrite E2.
  set (c3 := negb (is_empty (str_field k_question child)) && _).
  set (node3 := if c3 then _ else node2).
  assert (E3 : list_field k_keywords node3 = list_field k_keywords node).
  { subst node3 node2 node1. destruct c3, c2, c1;
      rewrite ?list_field_set_other by reflexivity; reflexivity. }
  rewrite E3. reflexivity.
Qed.

Lemma promoted_title :
  dict_get k_title result_dict
  = if is_generic_title lower_other (strip (str_field k_title node))
    then Some (VStr (strip (str_field k_title child)))
    else dict_get k_title node.
Proof.
  rewrite promoted_unfold. cbv zeta.
  repeat match goal with
         | |- context [if ?c then _ else _] => destruct c
         end; through_set; reflexivity.
Qed.

Lemma promoted_description :
  dict_get k_description result_dict
  = if negb (is_empty (str_field k_description child))
       && (is_empty (str_field k_description node)
           || (len (str_field k_description node)
               <? len (str_field k_description child)))
    then Some (VStr (str_field k_description child))
    else dict_get k_description node.
Proof.
  rewrite promoted_unfold. cbv zeta.
  repeat match goal with
         | |- context [if ?c then _ else _] => destruct c
         end; through_set; reflexivity.
Qed.

Lemma promoted_question :
  dict_get k_question result_dict
  = if negb (is_empty (str_field k_question child))
       && is_empty (str_field k_question node)
    then Some (VStr (str_field k_question child))
    else dict_get k_question node.
Proof.
  rewrite promoted_unfold. cbv zeta.
  repeat match goal with
         | |- context [if ?c then _ else _] => destruct c
         end; through_set; reflexivity.
Qed.

Lemma promoted_keywords :
  dict_get k_keywords result_dict
  = if negb (is_empty (list_field k_keywords node))
       || negb (is_empty (list_field k_keywords child))
    then Some (VList (list_of_union (list_field k_keywords node)
                                    (list_field k_keywords child)))
    else dict_get k_keywords node.
Proof.
  rewrite promoted_unfold. cbv zeta.
  repeat match goal with
         | |- context [if ?c then _ else _] => destruct c
         end; through_set; reflexivity.
Qed.

Lemma promoted_children :
  dict_get k_children result_dict
  = Some (VList (list_field k_children child)).
Proof. unfold promoted. apply dict_get_set_same. Qed.

End PromotedFields.

Section PromoteChildTheorem.

Variable lower_other : str -> nat -> str.
Variable list_of_union : list value -> list value -> list value.

Hypothesis list_of_union_spec :
  forall a b,
    forallb is_str a = true -> forallb is_str b = true ->
    NoDup (list_of_union a b) /\
    forall x, In x (list_of_union a b) <-> In x a \/ In x b.

Local Abbreviation promote := (promote_child lower_other list_of_union).
Local Abbreviation loop := (root_loop lower_other list_of_union).
Local Abbreviation collapse :=
  (collapse_root_unary_nodes lower_other list_of_union).

Lemma root_loop_promote (n : nat) (d child : dict) :
  dict_get k_children d = Some (VList [VDict child]) ->
  loop (S n) d
  = (node' <- promote d child ;;
     r <- loop n node' ;;
     Ok (fst r, S (snd r))).
Proof. intros H. cbn [root_loop]. rewrite H. reflexivity. Qed.

(** The scenario: three turns, and the root holds C's children. *)
Lemma collapse_scenario (c : dict) (x y z : value) :
  is_concept_node (VDict c) = true ->
  list_field k_children c = [x; y; z] ->
  collapse (VDict (scenario_ROOT c)) true
  = Ok (VDict (promoted lower_other list_of_union
                 [(k_title, VStr []); (k_children, VList [VDict c])] c)).
Proof.
  intros Hc Hxyz. unfold collapse_root_unary_nodes, max_iterations.
  rewrite (root_loop_promote _ _ (scenario_A c)) by reflexivity.
  change (promote (scenario_ROOT c) (scenario_A c))
    with (@Ok dict [(k_title, VStr []);
                    (k_children, VList [VDict (scenario_B c)])]).
  cbn [bind].
  rewrite (root_loop_promote _ _ (scenario_B c)) by reflexivity.
  change (promote [(k_title, VStr []);
                   (k_children, VList [VDict (scenario_B c)])]
                  (scenario_B c))
    with (@Ok dict [(k_title, VStr []); (k_children, VList [VDict c])]).
  cbn [bind].
  rewrite (root_loop_promote _ _ c) by reflexivity.
  rewrite promote_child_concept;
    [| cbn [forallb concept_entry]; rewrite Hc; reflexivity
     | rewrite <- is_concept_node_dict; exact Hc ].
  cbn [bind].
  rewrite root_loop_stops.
  - cbn [bind fst]. rewrite collapse_below_id. reflexivity.
  - cbn [children_count]. rewrite promoted_children, Hxyz. cbn. lia.
Qed.

(** C9 (as the code has it).  One turn of the loop on a root [node]
    whose sole child is [child], both of the schema, yields a root in
    which: the title is the child's title, trimmed, when the root's
    title, trimmed, is empty or, in lower case, one of the placeholder
    titles, and is left as it was otherwise; the description is the
    child's when the child has one and the root has none or a shorter
    one, and is left as it was otherwise; the question is the child's
    when the child has one and the root has none; the keywords, when
    either node has some, are a duplicate-free list of the keywords of
    both; and the children are the child's children.  On the tree
    ROOT -> A -> B -> C, where A and B have empty titles and
    descriptions and C has the children [x; y; z], the call returns a
    root that has the children [x; y; z], C's title trimmed, and C's
    description, question and keywords when C has them. *)
Theorem promote_child_merges (node child : dict) :
  is_concept_node (VDict node) = true ->
  is_concept_node (VDict child) = true ->
  (exists node',
     promote node child = Ok node' /\
     dict_get k_title node'
     = (if is_generic_title lower_other (strip (str_field k_title node))
        then Some (VStr (strip (str_field k_title child)))
        else dict_get k_title node) /\
     dict_get k_description node'
     = (if negb (is_empty (str_field k_description child))
           && (is_empty (str_field k_description node)
               || (len (str_field k_description node)
                   <? len (str_field k_description child)))
        then Some (VStr (str_field k_description child))
        else dict_get k_description node) /\
     dict_get k_question node'
     = (if negb (is_empty (str_field k_question child))
           && is_empty (str_field k_question node)
        then Some (VStr (str_field k_question child))
        else dict_get k_question node) /\
     (if is_empty (list_field k_keywords node)
         && is_empty (list_field k_keywords child)
      then dict_get k_keywords node' = dict_get k_keywords node
      else exists l,
          dict_get k_keywords node' = Some (VList l) /\
          NoDup l /\
          forall x, In x l <-> In x (list_field k_keywords node)
                               \/ In x (list_field k_keywords child)) /\
     dict_get k_children node' = Some (VList (list_field k_children child)))
  /\
  (forall (c : dict) (x y z : value),
     is_concept_node (VDict c) = true ->
     list_field k_children c = [x; y; z] ->
     exists r,
       collapse (VDict (scenario_ROOT c)) true = Ok (VDict r) /\
       dict_get k_children r = Some (VList [x; y; z]) /\
       dict_get k_title r = Some (VStr (strip (str_field k_title c))) /\
       dict_get k_description r
       = (if is_empty (str_field k_description c) then None
          else Some (VStr (str_field k_description c))) /\
       dict_get k_question r
       = (if is_empty (str_field k_question c) then None
          else Some (VStr (str_field k_question c))) /\
       (if is_empty (list_field k_keywords c)
        then dict_get k_keywords r = None
        else exists l,
            dict_get k_keywords r = Some (VList l) /\
            NoDup l /\
            forall k, In k l <-> In k (list_field k_keywords c))).
Proof.
  intros Hn Hc. rewrite is_concept_node_dict in Hn, Hc. split.
  - exists (promoted lower_other list_of_union node child).
    split; [apply promote_child_concept; assumption|].
    split; [apply promoted_title|].
    split; [apply promoted_description|].
    split; [apply promoted_question|].
    split; [|apply promoted_children].
    rewrite promoted_keywords.
    destruct (concept_keywords node Hn) as [_ Hpk].
    destruct (concept_keywords child Hc) as [_ Hck].
    destruct (list_of_union_spec _ _ Hpk Hck) as [Hnd Hin].
    destruct (is_empty (list_field k_keywords node));
      destruct (is_empty (list_field k_keywords child));
      cbn [negb orb andb]; eauto.
  - clear node child Hn Hc. intros c x y z Hc Hxyz.
    eexists. split; [apply (collapse_scenario c x y z Hc Hxyz)|].
    rewrite promoted_children, promoted_title, promoted_description,
      promoted_question, promoted_keywords, Hxyz.
    split; [reflexivity|]. split; [reflexivity|].
    change (str_field k_description
              [(k_title, VStr []); (k_children, VList [VDict c])])
      with (@nil char).
    change (str_field k_question
              [(k_title, VStr []); (k_children, VList [VDict c])])
      with (@nil char).
    change (list_field k_keywords
              [(k_title, VStr []); (k_children, VList [VDict c])])
      with (@nil value).
    cbn [is_empty negb orb andb].
    split; [destruct (is_empty (str_field k_description c)); reflexivity|].
    split; [destruct (is_empty (str_field k_question c)); reflexivity|].
    rewrite is_concept_node_dict in Hc.
    destruct (concept_keywords c Hc) as [_ Hck].
    destruct (list_of_union_spec [] _ eq_refl Hck) as [Hnd Hin].
    destruct (is_empty (list_field k_keywords c)); cbn [negb];
      [reflexivity|].
    eexists. split; [reflexivity|]. split; [exact Hnd|].
    intros k. rewrite Hin. cbn [In]. tauto.
Qed.

End PromoteChildTheorem.

Lemma collapse_root_unary_nodes_idempotent_witness :
  collapse_root_unary_nodes keep_other union_in_order
    (VDict (scenario_ROOT sample_C)) true
  = Ok (VDict (promoted keep_other union_in_order
                 [(k_title, VStr []); (k_children, VList [VDict sample_C])]
                 sample_C))
  /\ children_count
       (VDict (promoted keep_other union_in_order
                 [(k_title, VStr []); (k_children, VList [VDict sample_C])]
                 sample_C)) <> 1%nat
  /\ collapse_root_unary_nodes keep_other union_in_order
       (VDict (promoted keep_other union_in_order
                 [(k_title, VStr []); (k_children, VList [VDict sample_C])]
                 sample_C)) true
     = Ok (VDict (promoted keep_other union_in_order
                    [(k_title, VStr []); (k_children, VList [VDict sample_C])]
                    sample_C)).
Proof.
  split; [reflexivity|]. split; [cbn; lia|].
  apply (collapse_root_unary_nodes_idempotent keep_other union_in_order
           (VDict (scenario_ROOT sample_C))).
  - reflexivity.
  - cbn. lia.
Defined.

(** C3 fails as stated on a chain longer than the cap: the first
    application removes ten of the twelve links of [chain 12] and stops,
    the second removes the two that are left. *)
Lemma collapse_twice_differs :
  collapse_root_unary_nodes keep_other union_in_order (chain 12) true
  = Ok (chain 2)
  /\ collapse_root_unary_nodes keep_other union_in_order (chain 2) true
     = Ok (VDict [(k_title, VStr (lit "Link")); (k_children, VList [])])
  /\ chain 2 <> VDict [(k_title, VStr (lit "Link")); (k_children, VList [])].
Proof. repeat split. discriminate. Qed.

Lemma collapse_root_unary_nodes_converges_witness :
  (exists r n,
     collapse_iterations keep_other union_in_order three_links = Ok (r, n) /\
     collapse_root_unary_nodes keep_other union_in_order (VDict three_links) true
     = Ok (VDict r) /\
     (n <= max_iterations)%nat /\
     (children_count (VDict r) = 0%nat
      \/ (2 <= children_count (VDict r))%nat
      \/ n = max_iterations)) /\
  (forall k,
     collapse_root_unary_nodes keep_other union_in_order (chain (11 + k)) true
     = Ok (chain (S k)) /\
     children_count (chain (S k)) = 1%nat).
Proof.
  apply (collapse_root_unary_nodes_converges keep_other union_in_order
           union_in_order_spec three_links).
  reflexivity.
Defined.

Lemma promote_child_merges_witness :
  exists node',
    promote_child keep_other union_in_order
      [(k_title, VStr []); (k_children, VList [VDict sample_C])] sample_C
    = Ok node' /\
    dict_get k_title node' = Some (VStr (lit "Plans")) /\
    dict_get k_children node' = Some (VList [leaf "X"; leaf "Y"; leaf "Z"]).
Proof.
  destruct (promote_child_merges keep_other union_in_order union_in_order_spec
              [(k_title, VStr []); (k_children, VList [VDict sample_C])]
              sample_C eq_refl eq_refl)
    as [(node' & Hp & Ht & _ & _ & _ & Hc) _].
  exists node'. split; [exact Hp|]. split; [exact Ht | exact Hc].
Defined.

(** C9 fails as stated on a root title with surrounding whitespace: the
    title " root" is not empty and, in lower case, is none of the
    placeholder titles; the child's title is adopted all the same, since
    the comparison is made on the trimmed title. *)
Lemma padded_placeholder_title_replaced :
  str_field k_title padded_root = lit " root"
  /\ is_empty (str_field k_title padded_root) = false
  /\ existsb (str_eqb (lower keep_other (str_field k_title padded_root)))
             GENERIC_TITLES = false
  /\ promote_child keep_other union_in_order padded_root
       [(k_title, VStr (lit "Intro"))]
     = Ok [(k_title, VStr (lit "Intro")); (k_children, VList [])].
Proof. repeat split. Qed.

(* --------------------------------------------------------------------- *)
(** ** TocTreeBuilder *)

Lemma toc_nested_ind (P : toc -> Prop) :
  (forall title children sections,
     Forall P children -> P (Toc title children sections)) ->
  forall t, P t.
Proof.
  intros H. fix self 1. intros [title children sections].
  apply H. induction children as [|c cs IH]; constructor;
    [apply self | exact IH].
Qed.

Lemma distinct_titles_unfold (title : str) (cs : list toc)
    (sections : option (list payload)) :
  distinct_titles (Toc title cs sections)
  <-> NoDup (map toc_title cs) /\ Forall distinct_titles cs.
Proof.
  cbn [distinct_titles].
  assert (H : (fix all (cs : list toc) : Prop :=
                 match cs with
                 | [] => True
                 | c :: cs' => distinct_titles c /\ all cs'
                 end) cs <-> Forall distinct_titles cs).
  { induction cs as [|c cs IH]; [split; constructor|].
    rewrite IH. split.
    - intros [H1 H2]. constructor; assumption.
    - intros H. inversion H; subst. split; assumption. }
  rewrite H. reflexivity.
Qed.

Lemma find_child_None (title : str) (cs : list toc) :
  find_child title cs = None <-> ~ In title (map toc_title cs).
Proof.
  induction cs as [|c cs IH]; cbn [find_child map In]; [tauto|].
  destruct (str_eqb (toc_title c) title) eqn:E.
  - apply str_eqb_eq in E. split; [discriminate | tauto].
  - apply str_eqb_neq in E.
    destruct (find_child title cs); cbn [option_map].
    + split; [discriminate|]. intros H. exfalso. apply H. right.
      destruct (in_dec (list_eq_dec N.eq_dec) title (map toc_title cs))
        as [Hin|Hout]; [exact Hin|].
      apply IH in Hout. discriminate.
    + split; [|reflexivity]. intros _ [H|H]; [congruence|].
      apply (proj1 IH eq_refl H).
Qed.

Lemma find_child_Some (title : str) (cs : list toc) (i : nat) :
  find_child title cs = Some i ->
  exists c, nth_error cs i = Some c /\ toc_title c = title.
Proof.
  revert i. induction cs as [|c cs IH]; intros i; cbn [find_child];
    [discriminate|].
  destruct (str_eqb (toc_title c) title) eqn:E.
  - intros H. inversion H; subst. exists c. apply str_eqb_eq in E. auto.
  - destruct (find_child title cs) as [j|]; cbn [option_map]; [|discriminate].
    intros H. inversion H; subst. destruct (IH j eq_refl) as (c' & H1 & H2).
    exists c'. auto.
Qed.

(** The look-up sees the titles only. *)
Lemma find_child_titles (title : str) (a b : list toc) :
  map toc_title a = map toc_title b ->
  find_child title a = find_child title b.
Proof.
  revert b. induction a as [|x a IH]; intros [|y b]; cbn [map find_child];
    try discriminate; [reflexivity|].
  intros H. inversion H as [[H1 H2]]. rewrite H1, (IH b H2). reflexivity.
Qed.

Lemma find_child_app_new (title : str) (cs : list toc) :
  find_child title cs = None ->
  find_child title (cs ++ [new_node title]) = Some (length cs).
Proof.
  induction cs as [|c cs IH]; cbn [find_child app length].
  - intros _. cbn [new_node toc_title]. rewrite str_eqb_refl. reflexivity.
  - destruct (str_eqb (toc_title c) title); [discriminate|].
    destruct (find_child title cs); cbn [option_map]; [discriminate|].
    intros _. rewrite (IH eq_refl). reflexivity.
Qed.

Lemma find_child_app_other (title other : str) (cs : list toc) :
  str_eqb other title = false ->
  find_child title (cs ++ [new_node other]) = find_child title cs.
Proof.
  intros H. induction cs as [|c cs IH]; cbn [find_child app].
  - cbn [new_node toc_title]. rewrite H. reflexivity.
  - rewrite IH. reflexivity.
Qed.

Lemma update_nth_titles (i : nat) (f : toc -> toc) (cs : list toc) :
  (forall c, toc_title (f c) = toc_title c) ->
  map toc_title (update_nth i f cs) = map toc_title cs.
Proof.
  intros Hf. revert i. induction cs as [|c cs IH]; intros [|i];
    cbn [update_nth map]; try reflexivity.
  - rewrite Hf. reflexivity.
  - rewrite IH. reflexivity.
Qed.

Lemma update_nth_Forall {A} (P : A -> Prop) (i : nat) (f : A -> A) (l : list A) :
  Forall P l -> (forall x, P x -> P (f x)) -> Forall P (update_nth i f l).
Proof.
  intros Hl Hf. revert i. induction Hl as [|x l Hx Hl IH]; intros [|i];
    cbn [update_nth]; constructor; auto.
Qed.

Lemma update_nth_twice {A} (i : nat) (f g : A -> A) (l : list A) :
  update_nth i g (update_nth i f l) = update_nth i (fun x => g (f x)) l.
Proof.
  revert i. induction l as [|x l IH]; intros [|i]; cbn [update_nth];
    try reflexivity.
  rewrite IH. reflexivity.
Qed.

Lemma update_nth_map_ext {A B} (h : A -> B) (i : nat) (f g : A -> A) (l : list A) :
  (forall x, h (f x) = h (g x)) ->
  map h (update_nth i f l) = map h (update_nth i g l).
Proof.
  intros H. revert i. induction l as [|x l IH]; intros [|i];
    cbn [update_nth map]; try reflexivity.
  - rewrite H. reflexivity.
  - rewrite IH. reflexivity.
Qed.

Lemma nth_error_update_nth_same {A} (i : nat) (f : A -> A) (l : list A) :
  nth_error (update_nth i f l) i = option_map f (nth_error l i).
Proof.
  revert i. induction l as [|x l IH]; intros [|i]; cbn; auto.
Qed.

Lemma nth_error_update_nth_other {A} (i j : nat) (f : A -> A) (l : list A) :
  i <> j -> nth_error (update_nth i f l) j = nth_error l j.
Proof.
  revert i j. induction l as [|x l IH]; intros [|i] [|j] H; cbn; auto;
    congruence.
Qed.

Lemma add_block_title (path : list str) (p : payload) (cur : toc) :
  toc_title (add_block path p cur) = toc_title cur.
Proof.
  destruct path as [|t path]; cbn [add_block].
  - reflexivity.
  - unfold ensure_child.
    destruct (find_child t (toc_children cur)); reflexivity.
Qed.

(** [ensure_child] returns the first child with the title, and adds a
    node, last, only when there is none. *)
Lemma ensure_child_spec (parent : toc) (title : str) :
  (In title (map toc_title (toc_children parent)) ->
   fst (ensure_child parent title) = parent) /\
  (~ In title (map toc_title (toc_children parent)) ->
   fst (ensure_child parent title)
   = Toc (toc_title parent) (toc_children parent ++ [new_node title])
         (toc_sections parent)) /\
  find_child title (toc_children (fst (ensure_child parent title)))
  = Some (snd (ensure_child parent title)) /\
  exists c,
    nth_error (toc_children (fst (ensure_child parent title)))
              (snd (ensure_child parent title)) = Some c /\
    toc_title c = title.
Proof.
  unfold ensure_child.
  destruct (find_child title (toc_children parent)) as [i|] eqn:E; cbn [fst snd].
  - split; [reflexivity|]. split.
    + intros H. apply find_child_None in H. congruence.
    + split; [exact E|]. apply find_child_Some. exact E.
  - split.
    + intros H. apply find_child_None in E. tauto.
    + split; [reflexivity|]. cbn [toc_children].
      split; [apply find_child_app_new; exact E|].
      apply find_child_Some. apply find_child_app_new. exact E.
Qed.

Lemma NoDup_titles_new (title : str) (cs : list toc) :
  NoDup (map toc_title cs) ->
  ~ In title (map toc_title cs) ->
  NoDup (map toc_title (cs ++ [new_node title])).
Proof.
  intros Hnd Hout. rewrite map_app. cbn [map new_node toc_title].
  apply NoDup_app.
  - exact Hnd.
  - constructor; [intros [] | constructor].
  - intros x Hx [<-|[]]. exact (Hout Hx).
Qed.

(** Adding a block keeps the titles of siblings distinct. *)
Lemma add_block_distinct (path : list str) (p : payload) (cur : toc) :
  distinct_titles cur -> distinct_titles (add_block path p cur).
Proof.
  revert cur. induction path as [|t path IH]; intros [title cs sections] H.
  - cbn [add_block append_section toc_title toc_children toc_sections].
    apply distinct_titles_unfold in H. apply distinct_titles_unfold. exact H.
  - cbn [add_block]. unfold ensure_child. cbn [toc_children toc_title toc_sections].
    apply distinct_titles_unfold in H. destruct H as [Hnd Hall].
    destruct (find_child t cs) as [i|] eqn:E;
      unfold update_child; cbn [toc_children toc_title toc_sections];
      apply distinct_titles_unfold.
    + split.
      * rewrite update_nth_titles; [exact Hnd|].
        intros c. apply add_block_title.
      * apply update_nth_Forall; [exact Hall | exact (IH)].
    + apply find_child_None in E. split.
      * rewrite update_nth_titles; [|intros c; apply add_block_title].
        apply NoDup_titles_new; assumption.
      * apply update_nth_Forall; [|exact IH].
        apply Forall_app. split; [exact Hall|].
        constructor; [|constructor].
        apply distinct_titles_unfold. cbn. split; constructor.
Qed.

Lemma topology_unfold (title : str) (cs : list toc)
    (sections : option (list payload)) :
  topology (Toc title cs sections) = Toc title (map topology cs) None.
Proof. reflexivity. Qed.

(** Walking a path a second time finds the nodes of the first walk: the
    titles and children of the tree do not change. *)
Lemma add_block_again (path : list str) (p1 p2 : payload) (cur : toc) :
  topology (add_block path p2 (add_block path p1 cur))
  = topology (add_block path p1 cur).
Proof.
  revert cur. induction path as [|t path IH]; intros [title cs sections].
  - reflexivity.
  - cbn [add_block].
    destruct (ensure_child_spec (Toc title cs sections) t) as (_ & _ & Hfind & _).
    destruct (ensure_child (Toc title cs sections) t) as [[title' cs' sections'] i].
    cbn [fst snd toc_children] in Hfind.
    unfold update_child at 2. cbn [toc_title toc_children toc_sections].
    unfold ensure_child. cbn [toc_children].
    rewrite (find_child_titles t _ cs')
      by (apply update_nth_titles; intros c; apply add_block_title).
    rewrite Hfind. unfold update_child.
    cbn [toc_title toc_children toc_sections].
    rewrite update_nth_twice, !topology_unfold. f_equal.
    apply update_nth_map_ext. exact IH.
Qed.

Lemma node_at_cons (title : str) (path : list str) (t : toc) :
  node_at (title :: path) t
  = match child_at title (toc_children t) with
    | Some c => node_at path c
    | None => None
    end.
Proof.
  cbn [node_at]. unfold child_at.
  destruct (find_child title (toc_children t)); reflexivity.
Qed.

(** After a walk that starts with [b], the first child titled [b] is the
    one the walk went through: the child that was there, or a new node,
    with the rest of the walk done in it. *)
Lemma add_block_child_same (b : str) (path : list str) (p : payload) (t : toc) :
  child_at b (toc_children (add_block (b :: path) p t))
  = Some (add_block path p
            match child_at b (toc_children t) with
            | Some c => c
            | None => new_node b
            end).
Proof.
  destruct t as [title cs sections]. cbn [add_block toc_children].
  unfold ensure_child, child_at. cbn [toc_children toc_title toc_sections].
  destruct (find_child b cs) as [i|] eqn:E;
    unfold update_child; cbn [toc_children].
  - rewrite (find_child_titles b _ cs)
      by (apply update_nth_titles; intros c; apply add_block_title).
    rewrite E, nth_error_update_nth_same.
    destruct (find_child_Some _ _ _ E) as (c & -> & _). reflexivity.
  - rewrite (find_child_titles b _ (cs ++ [new_node b]))
      by (apply update_nth_titles; intros c; apply add_block_title).
    rewrite (find_child_app_new _ _ E), nth_error_update_nth_same.
    rewrite nth_error_app2, Nat.sub_diag by lia. reflexivity.
Qed.

(** The children under another title are the ones that were there. *)
Lemma add_block_child_other (a b : str) (path : list str) (p : payload) (t : toc) :
  str_eqb b a = false ->
  child_at a (toc_children (add_block (b :: path) p t))
  = child_at a (toc_children t).
Proof.
  intros Hab. destruct t as [title cs sections]. cbn [add_block toc_children].
  unfold ensure_child, child_at. cbn [toc_children toc_title toc_sections].
  assert (Hneq : forall i j c c',
            nth_error cs j = Some c -> toc_title c = a ->
            (nth_error cs i = Some c' /\ toc_title c' = b \/ i = length cs) ->
            i <> j).
  { intros i j c c' Hj Ha [[Hi Hb]|Hi] ->.
    - rewrite Hj in Hi. inversion Hi; subst c'. subst.
      rewrite str_eqb_refl in Hab. discriminate.
    - assert (length cs < length cs)%nat; [|lia].
      subst j. apply nth_error_Some. congruence. }
  destruct (find_child b cs) as [i|] eqn:E;
    unfold update_child; cbn [toc_children].
  - rewrite (find_child_titles a _ cs)
      by (apply update_nth_titles; intros c; apply add_block_title).
    destruct (find_child a cs) as [j|] eqn:Ea; [|reflexivity].
    destruct (find_child_Some _ _ _ Ea) as (c & Hc & Hca).
    destruct (find_child_Some _ _ _ E) as (c' & Hc' & Hcb).
    apply nth_error_update_nth_other. eapply Hneq; eauto.
  - rewrite (find_child_titles a _ (cs ++ [new_node b]))
      by (apply update_nth_titles; intros c; apply add_block_title).
    rewrite (find_child_app_other _ _ _ Hab).
    destruct (find_child a cs) as [j|] eqn:Ea; [|reflexivity].
    destruct (find_child_Some _ _ _ Ea) as (c & Hc & Hca).
    rewrite nth_error_update_nth_other
      by (eapply (Hneq _ _ c c); eauto).
    apply nth_error_app1. apply nth_error_Some. congruence.
Qed.

Lemma sections_at_new_node (path : list str) (title : str) :
  sections_at path (new_node title) = [].
Proof. destruct path; reflexivity. Qed.

(** A block lands on the node its path leads to, after the records that
    node already had, and on no other node. *)
Lemma sections_at_add_block (p q : list str) (pl : payload) (t : toc) :
  sections_at q (add_block p pl t)
  = sections_at q t ++ (if path_eqb p q then [pl] else []).
Proof.
  revert q t. induction p as [|b p IH]; intros q t.
  - destruct t as [title cs sections]. destruct q as [|a q].
    + unfold sections_at. cbn. destruct sections; reflexivity.
    + unfold sections_at. rewrite !node_at_cons. cbn. rewrite app_nil_r.
      reflexivity.
  - destruct q as [|a q].
    + cbn [path_eqb]. rewrite app_nil_r. destruct t as [title cs sections].
      unfold sections_at. cbn [node_at add_block].
      destruct (ensure_child (Toc title cs sections) b) as [t' i] eqn:E.
      unfold ensure_child in E. cbn [toc_children toc_title toc_sections] in E.
      destruct (find_child b cs); inversion E; reflexivity.
    + unfold sections_at. rewrite !node_at_cons. cbn [path_eqb].
      destruct (str_eqb b a) eqn:Eab.
      * apply str_eqb_eq in Eab. subst a. rewrite add_block_child_same.
        cbn [andb].
        specialize (IH q (match child_at b (toc_children t) with
                          | Some c => c | None => new_node b end)).
        unfold sections_at in IH. rewrite IH.
        destruct (child_at b (toc_children t)); [reflexivity|].
        pose proof (sections_at_new_node q b) as Hn.
        unfold sections_at in Hn. rewrite Hn. reflexivity.
      * rewrite (add_block_child_other a b p pl t Eab). cbn [andb].
        rewrite app_nil_r. reflexivity.
Qed.

Section TocTreeBuilderTheorems.

Variable Node : Type.
Variable get_node_id : Node -> value.
Variable ancestors_of : Node -> list str.
Variable extract_heading_level_title_and_body : Node -> heading_info.

Local Abbreviation build :=
  (nodes_to_toc_tree get_node_id ancestors_of
                     extract_heading_level_title_and_body).
Local Abbreviation path :=
  (path_of ancestors_of extract_heading_level_title_and_body).
Local Abbreviation record :=
  (payload_of get_node_id extract_heading_level_title_and_body).
Local Abbreviation step :=
  (fun (root : toc) (n : Node) => add_block (path n) (record n) root).

Lemma fold_add_block_distinct (nodes : list Node) (t : toc) :
  distinct_titles t -> distinct_titles (fold_left step nodes t).
Proof.
  revert t. induction nodes as [|n nodes IH]; intros t H; [exact H|].
  cbn [fold_left]. apply IH. apply add_block_distinct. exact H.
Qed.

Lemma fold_add_block_sections (q : list str) (nodes : list Node) (t : toc) :
  sections_at q (fold_left step nodes t)
  = sections_at q t
    ++ map record (filter (fun n => path_eqb (path n) q) nodes).
Proof.
  revert t. induction nodes as [|n nodes IH]; intros t.
  - cbn. rewrite app_nil_r. reflexivity.
  - cbn [fold_left filter]. rewrite IH, sections_at_add_block, <- app_assoc.
    destruct (path_eqb (path n) q); reflexivity.
Qed.

Lemma fold_add_block_pairs (nodes : list Node) (t : toc) :
  fold_left step nodes t
  = fold_left (fun root pp => add_block (fst pp) (snd pp) root)
              (map (fun n => (path n, record n)) nodes) t.
Proof.
  revert t. induction nodes as [|n nodes IH]; intros t; [reflexivity|].
  cbn [fold_left map fst snd]. apply IH.
Qed.

(** C7.  [ensure_child] adds a node only when no child of the parent
    bears the title, and returns the first child that bears it
    otherwise; walking a path a second time goes through the nodes of
    the first walk and adds none.  So in the tree built from any
    sequence of blocks the children of every node have pairwise
    distinct titles, the section records found along a path are those
    of the blocks with that path, in the order of the blocks, and two
    sequences of blocks with the same paths and records give the same
    tree. *)
Theorem nodes_to_toc_tree_keyed_by_title (nodes : list Node) :
  (forall parent title,
     (In title (map toc_title (toc_children parent)) ->
      fst (ensure_child parent title) = parent) /\
     (~ In title (map toc_title (toc_children parent)) ->
      fst (ensure_child parent title)
      = Toc (toc_title parent) (toc_children parent ++ [new_node title])
            (toc_sections parent)) /\
     find_child title (toc_children (fst (ensure_child parent title)))
     = Some (snd (ensure_child parent title))) /\
  (forall walk p1 p2 cur,
     topology (add_block walk p2 (add_block walk p1 cur))
     = topology (add_block walk p1 cur)) /\
  distinct_titles (build nodes) /\
  (forall q,
     sections_at q (build nodes)
     = map record (filter (fun n => path_eqb (path n) q) nodes)) /\
  (forall nodes',
     map (fun n => (path n, record n)) nodes'
     = map (fun n => (path n, record n)) nodes ->
     build nodes' = build nodes).
Proof.
  split; [|split; [|split; [|split]]].
  - intros parent title.
    destruct (ensure_child_spec parent title) as (H1 & H2 & H3 & _).
    auto.
  - intros walk p1 p2 cur. apply add_block_again.
  - unfold nodes_to_toc_tree. apply fold_add_block_distinct.
    apply distinct_titles_unfold. cbn. split; constructor.
  - intros q. unfold nodes_to_toc_tree.
    rewrite fold_add_block_sections.
    destruct q; reflexivity.
  - intros nodes' H. unfold nodes_to_toc_tree.
    rewrite !fold_add_block_pairs, H. reflexivity.
Qed.

End TocTreeBuilderTheorems.

(** The builder's tree, written as JSON, is a TOC node: the cleaner
    accepts every tree the builder makes. *)
Lemma toc_value_is_toc_node (t : toc) : is_toc_node (toc_value t) = true.
Proof.
  revert t. apply toc_nested_ind. intros title children sections IH.
  cbn [toc_value is_toc_node app forallb].
  change (str_eqb k_title k_sections) with false.
  change (str_eqb k_title k_children) with false.
  change (str_eqb k_children k_sections) with false.
  change (str_eqb k_children k_children) with true.
  cbv iota. cbn [andb].
  assert (Hc : forallb is_toc_node (map toc_value children) = true).
  { induction IH as [|c cs Hc _ IHcs]; [reflexivity|].
    cbn [map forallb]. rewrite Hc, IHcs. reflexivity. }
  rewrite Hc. cbn [andb].
  destruct sections as [l|]; [|reflexivity].
  cbn [forallb]. change (str_eqb k_sections k_sections) with true. cbv iota.
  rewrite andb_true_r.
  induction l as [|p l IHl]; [reflexivity|].
  cbn [map forallb]. rewrite IHl. reflexivity.
Qed.

(* --------------------------------------------------------------------- *)
(** ** StructuredTransformer: the retry of the single-shot call *)

Section SingleShotTheorems.

Variable lower_other : str -> nat -> str.
Variables World Schema Messages Response : Type.
Variable chat : str -> Schema -> Messages -> World -> outcome Response * World.
Variable LLM_MODEL : str.
Variable MindmapDocument : Schema.

Local Abbreviation run :=
  (single_shot_chat lower_other chat LLM_MODEL MindmapDocument).

Lemma is_token_error_marks (e : exception) :
  is_token_error lower_other e = true <->
  (exists mark,
      In mark TOKEN_ERROR_MARKS /\
      contains mark (lower lower_other (message e)) = true)
  \/ (contains (lit "ratelimiterror") (lower lower_other (type_name e)) = true
      /\ contains (lit "token") (lower lower_other (message e)) = true).
Proof.
  unfold is_token_error, TOKEN_ERROR_MARKS.
  rewrite !orb_true_iff, andb_true_iff. split.
  - intros [[[[[[[H|H]|H]|H]|H]|H]|H]|H]; [left; eexists; split; [|exact H]; cbn [In]; tauto ..| right; exact H].
  - intros [(mark & Hin & H)|H]; [|tauto].
    cbn [In] in Hin.
    destruct Hin as [<-|[<-|[<-|[<-|[<-|[<-|[<-|[]]]]]]]]; tauto.
Qed.

(** A first call that returns is the only call. *)
Lemma single_shot_chat_success (messages : Messages)
    (st : World * list (call Schema Messages)) (resp : Response) (w1 : World) :
  chat LLM_MODEL MindmapDocument messages (fst st) = (Returns resp, w1) ->
  run messages st
  = (Returns resp,
     (w1, snd st ++ [{| call_model := LLM_MODEL;
                        call_schema := MindmapDocument;
                        call_messages := messages |}])).
Proof.
  intros H. unfold single_shot_chat, sllm_chat. rewrite H. reflexivity.
Qed.

(** C8.  When the first call raises [e]: [e] is taken for a token-limit
    error exactly when its message, in lower case, contains one of the
    marks, or its type name, in lower case, contains "ratelimiterror"
    and the message contains "token".  In that case one more call is
    made, to the fallback model with the same schema and the same
    messages, and its outcome, response or exception, is the outcome of
    the whole: two calls in all.  Otherwise [e] leaves the function and
    the first call is the only one. *)
Theorem single_shot_chat_retries_once (messages : Messages)
    (st : World * list (call Schema Messages)) (e : exception) (w1 : World) :
  chat LLM_MODEL MindmapDocument messages (fst st) = (Raises e, w1) ->
  let first_call := {| call_model := LLM_MODEL;
                       call_schema := MindmapDocument;
                       call_messages := messages |} in
  let retry := {| call_model := FALLBACK_MODEL;
                  call_schema := MindmapDocument;
                  call_messages := messages |} in
  (is_token_error lower_other e = true <->
   (exists mark,
       In mark TOKEN_ERROR_MARKS /\
       contains mark (lower lower_other (message e)) = true)
   \/ (contains (lit "ratelimiterror")
                (lower lower_other (type_name e)) = true
       /\ contains (lit "token") (lower lower_other (message e)) = true)) /\
  (is_token_error lower_other e = true ->
   run messages st
   = (fst (chat FALLBACK_MODEL MindmapDocument messages w1),
      (snd (chat FALLBACK_MODEL MindmapDocument messages w1),
       snd st ++ [first_call; retry]))) /\
  (is_token_error lower_other e = false ->
   run messages st = (Raises e, (w1, snd st ++ [first_call]))).
Proof.
  intros H first_call retry.
  split; [apply is_token_error_marks|].
  unfold single_shot_chat, sllm_chat. rewrite H.
  split; intros ->.
  - cbn [fst snd].
    destruct (chat FALLBACK_MODEL MindmapDocument messages w1) as [r w2].
    cbn [fst snd]. rewrite <- app_assoc. reflexivity.
  - reflexivity.
Qed.

End SingleShotTheorems.

Lemma single_shot_chat_retries_once_witness :
  single_shot_chat keep_other sample_chat (lit "gpt-4.1") tt tt (O, [])
  = (Returns tt,
     (2%nat,
      [{| call_model := lit "gpt-4.1"; call_schema := tt; call_messages := tt |};
       {| call_model := FALLBACK_MODEL; call_schema := tt;
          call_messages := tt |}])).
Proof.
  destruct (single_shot_chat_retries_once keep_other nat unit unit unit
              sample_chat (lit "gpt-4.1") tt tt (O, []) sample_error 1%nat
              eq_refl) as (_ & Hretry & _).
  exact (Hretry eq_refl).
Defined.

(* ===================================================================== *)
(** * Part III: the rest of the pipeline                                  *)
(* ===================================================================== *)

(* --------------------------------------------------------------------- *)
(** ** [str.strip] *)

Lemma lstrip_decompose (s : str) :
  exists sp, s = sp ++ lstrip s /\ forallb is_space sp = true.
Proof.
  induction s as [|c s IH]; [exists []; split; reflexivity|].
  cbn [lstrip]. destruct (is_space c) eqn:E.
  - destruct IH as (sp & Hs & Hsp). exists (c :: sp). split.
    + cbn [app]. rewrite <- Hs. reflexivity.
    + cbn [forallb]. rewrite E, Hsp. reflexivity.
  - exists []. split; reflexivity.
Qed.

Lemma lstrip_head (s : str) :
  match lstrip s with
  | c :: _ => is_space c = false
  | [] => True
  end.
Proof.
  induction s as [|c s IH]; [exact I|].
  cbn [lstrip]. destruct (is_space c) eqn:E; [exact IH | exact E].
Qed.

Lemma lstrip_fixed (c : char) (s : str) :
  is_space c = false -> lstrip (c :: s) = c :: s.
Proof. intros E. cbn [lstrip]. rewrite E. reflexivity. Qed.

Lemma rev_head_last (c : char) (s : str) :
  exists r, rev (c :: s) = last (c :: s) c :: r.
Proof.
  destruct (exists_last (l := c :: s)) as (l & a & E); [discriminate|].
  rewrite E, rev_app_distr, last_last. cbn. eauto.
Qed.

(** [strip] yields a trimmed string. *)
Lemma strip_is_trimmed (s : str) : is_trimmed (strip s) = true.
Proof.
  unfold strip, rstrip.
  destruct (lstrip_decompose (rev (lstrip s))) as (sp & Hs & Hsp).
  pose proof (lstrip_head (rev (lstrip s))) as Hv.
  pose proof (lstrip_head s) as Hu.
  set (v := lstrip (rev (lstrip s))) in *.
  destruct v as [|a v]; [reflexivity|].
  assert (Hrev : lstrip s = rev (a :: v) ++ rev sp).
  { rewrite <- rev_app_distr, <- Hs, rev_involutive. reflexivity. }
  destruct (rev (a :: v)) as [|b w] eqn:Ew.
  { apply (f_equal (@length _)) in Ew. rewrite length_rev in Ew.
    discriminate. }
  unfold is_trimmed. rewrite Hrev in Hu. cbn [app] in Hu. rewrite Hu.
  cbn [negb andb].
  assert (Hl : last (b :: w) b = a).
  { rewrite <- Ew. cbn [rev]. apply last_last. }
  rewrite Hl, Hv. reflexivity.
Qed.

(** [strip] leaves a trimmed string as it is. *)
Lemma strip_fixed (s : str) : is_trimmed s = true -> strip s = s.
Proof.
  unfold is_trimmed, strip, rstrip. destruct s as [|c s]; [reflexivity|].
  intros H. apply andb_true_iff in H. destruct H as [H1 H2].
  apply negb_true_iff in H1, H2.
  rewrite (lstrip_fixed c s H1).
  destruct (rev_head_last c s) as (r & Er). rewrite Er.
  rewrite (lstrip_fixed _ r H2), <- Er. apply rev_involutive.
Qed.

Lemma strip_idempotent (s : str) : strip (strip s) = strip s.
Proof. apply strip_fixed. apply strip_is_trimmed. Qed.

Lemma is_trimmed_around (a x b : str) :
  is_trimmed a = true -> is_trimmed b = true -> a <> [] -> b <> [] ->
  is_trimmed (a ++ x ++ b) = true.
Proof.
  destruct a as [|c a]; [congruence|]. destruct b as [|y b]; [congruence|].
  unfold is_trimmed. cbn [app]. intros Ha Hb _ _.
  apply andb_true_iff in Ha, Hb. destruct Ha as [Ha _]. destruct Hb as [_ Hb].
  rewrite Ha. cbn [andb].
  destruct (exists_last (l := y :: b)) as (l & z & E); [discriminate|].
  rewrite E in Hb |- *. rewrite last_last in Hb.
  replace (c :: a ++ x ++ l ++ [z]) with (((c :: a) ++ x ++ l) ++ [z])
    by (cbn [app]; rewrite <- !app_assoc; reflexivity).
  rewrite last_last. exact Hb.
Qed.

(* --------------------------------------------------------------------- *)
(** ** TreeCleaner: the shape of the output *)

Lemma is_trimmed_marked (a : str) :
  match a with
  | c :: _ => is_space c = false
  | [] => True
  end ->
  is_trimmed (a ++ MARKER) = true.
Proof.
  destruct a as [|c a]; [reflexivity|]. intros Hc.
  unfold is_trimmed. cbn [app]. rewrite Hc. cbn [negb andb].
  replace (c :: a ++ MARKER) with (((c :: a) ++ [DOT; DOT]) ++ [DOT])
    by (rewrite <- app_assoc; reflexivity).
  rewrite last_last. reflexivity.
Qed.

Lemma firstn_head (n : nat) (s : str) :
  match s with
  | c :: _ => is_space c = false
  | [] => True
  end ->
  match firstn n s with
  | c :: _ => is_space c = false
  | [] => True
  end.
Proof. destruct n, s; cbn; auto. Qed.

Lemma is_trimmed_head (s : str) :
  is_trimmed s = true ->
  match s with
  | c :: _ => is_space c = false
  | [] => True
  end.
Proof.
  destruct s as [|c s]; [auto|]. unfold is_trimmed. intros H.
  apply andb_true_iff in H. destruct H as [H _].
  apply negb_true_iff in H. exact H.
Qed.

Lemma emitted_shape (m : Z) (e : value) (out : str) :
  0 <= m ->
  In out (emitted m e) ->
  is_trimmed out = true /\
  3 <= len out <= m + 3 /\
  (10 <= m -> 10 <= len out).
Proof.
  intros Hm Hin. unfold emitted in Hin.
  destruct (clean_section e m) as [[t|]|] eqn:E; cbn [In] in Hin; try tauto.
  destruct Hin as [<-|[]].
  destruct (clean_section_some _ _ _ E) as (raw & _ & H10 & Hout).
  destruct (m <? len (strip raw)) eqn:Em.
  - apply Z.ltb_lt in Em. subst t. unfold slice_to.
    rewrite (proj2 (Z.leb_le 0 m) Hm). split.
    + apply is_trimmed_marked. apply firstn_head. apply is_trimmed_head.
      apply strip_is_trimmed.
    + rewrite len_app. change (len MARKER) with 3.
      unfold len in *. rewrite length_firstn. lia.
  - apply Z.ltb_ge in Em. subst t. split; [apply strip_is_trimmed | lia].
Qed.

(** X1.  With a maximum length [m >= 0], every string the cleaner emits
    for a section record is trimmed (no whitespace at either end), has at
    least 3 and at most [m + 3] characters, and at least 10 characters
    when [m >= 10]. *)
Theorem emitted_text_shape (m : Z) (e : value) (out : str) :
  0 <= m ->
  In out (emitted m e) ->
  is_trimmed out = true /\
  3 <= len out <= m + 3 /\
  (10 <= m -> 10 <= len out).
Proof. apply emitted_shape. Qed.

Lemma emitted_text_shape_witness :
  is_trimmed (lit "abcdefghij...") = true /\
  3 <= len (lit "abcdefghij...") <= 10 + 3 /\
  (10 <= 10 -> 10 <= len (lit "abcdefghij...")).
Proof.
  apply (emitted_text_shape 10 (entry (lit "  abcdefghijk "))
           (lit "abcdefghij...")).
  - lia.
  - left. reflexivity.
Defined.

Lemma mapM_length {A B} (f : A -> result B) (l : list A) (bs : list B) :
  mapM f l = Ok bs -> length bs = length l.
Proof.
  revert bs. induction l as [|a l IH]; cbn [mapM]; intros bs H.
  - inversion H. reflexivity.
  - destruct (f a); [|discriminate]. cbn [bind] in H.
    destruct (mapM f l) as [bs'|]; [|discriminate]. cbn [bind] in H.
    inversion H. cbn [length]. rewrite (IH bs' eq_refl). reflexivity.
Qed.

Lemma clean_toc_tree_structure (d : dict) (m : Z) (out : value) :
  clean_toc_tree (VDict d) m = Ok out ->
  exists d',
    out = VDict d' /\
    (forall k, str_eqb k_sections k = false -> str_eqb k_children k = false ->
               dict_get k d' = dict_get k d) /\
    match dict_get k_children d with
    | Some (VList (c :: cs)) =>
        exists cs',
          mapM (fun child => clean_toc_tree child m) (c :: cs) = Ok cs' /\
          dict_get k_children d' = Some (VList cs') /\
          length cs' = length (c :: cs)
    | other => dict_get k_children d' = other
    end.
Proof.
  rewrite clean_toc_tree_dict. intros H.
  destruct (clean_sections_field d m) as [cleaned|] eqn:Hc; [|discriminate].
  cbn [bind] in H.
  pose proof (clean_sections_field_other _ _ _ k_children Hc eq_refl) as Hch.
  assert (Hother : forall k, str_eqb k_sections k = false ->
                             dict_get k cleaned = dict_get k d)
    by (intros k Hk; apply (clean_sections_field_other _ _ _ k Hc Hk)).
  unfold clean_children_field in H. rewrite Hch in H.
  destruct (dict_get k_children d) as [x|] eqn:Hx; cbn [option_map] in H.
  - destruct (truthy x) eqn:Et.
    + destruct (clean_children m x) as [cs'|] eqn:Ecs; [|discriminate].
      cbn [bind] in H. inversion H; subst out. eexists. split; [reflexivity|].
      split.
      * intros k Hk1 Hk2. rewrite dict_get_set, Hk2. auto.
      * destruct x as [| b | z | [|a s] | [|c cs] | [|kv d0]];
          try discriminate Et; try (cbn in Ecs; discriminate).
        cbn [clean_children] in Ecs. exists cs'.
        split; [exact Ecs|]. split; [apply dict_get_set_same|].
        apply (mapM_length _ _ _ Ecs).
    + inversion H; subst out. exists cleaned. split; [reflexivity|].
      split; [intros k Hk _; auto|].
      rewrite Hch. destruct x as [| b | z | s | [|c cs] | d0];
        try reflexivity.
      discriminate Et.
  - inversion H; subst out. exists cleaned. split; [reflexivity|].
    split; [intros k Hk _; auto | exact Hch].
Qed.

(** X2.  Cleaning keeps the shape of a node: every key other than
    "sections" and "children" keeps its value; "children" that holds a
    non-empty list holds afterwards the list of the cleaned children, in
    the same order and of the same length; a "children" that is absent or
    falsy is left as it is. *)
Theorem clean_toc_tree_keeps_structure (d : dict) (m : Z) (out : value) :
  clean_toc_tree (VDict d) m = Ok out ->
  exists d',
    out = VDict d' /\
    (forall k, str_eqb k_sections k = false -> str_eqb k_children k = false ->
               dict_get k d' = dict_get k d) /\
    match dict_get k_children d with
    | Some (VList (c :: cs)) =>
        exists cs',
          mapM (fun child => clean_toc_tree child m) (c :: cs) = Ok cs' /\
          dict_get k_children d' = Some (VList cs') /\
          length cs' = length (c :: cs)
    | other => dict_get k_children d' = other
    end.
Proof. apply clean_toc_tree_structure. Qed.

Lemma clean_toc_tree_keeps_structure_witness :
  exists d',
    VDict [(k_title, VStr (lit "T"));
           (k_sections, VList [VStr (lit "abcdefghij...")])] = VDict d' /\
    (forall k, str_eqb k_sections k = false -> str_eqb k_children k = false ->
               dict_get k d'
               = dict_get k (node_with_section (lit "abcdefghijk"))) /\
    match dict_get k_children (node_with_section (lit "abcdefghijk")) with
    | Some (VList (c :: cs)) =>
        exists cs',
          mapM (fun child => clean_toc_tree child 10) (c :: cs) = Ok cs' /\
          dict_get k_children d' = Some (VList cs') /\
          length cs' = length (c :: cs)
    | other => dict_get k_children d' = other
    end.
Proof.
  apply (clean_toc_tree_keeps_structure
           (node_with_section (lit "abcdefghijk")) 10).
  reflexivity.
Defined.

(** A bare string is never kept as a section record: it is skipped, or
    cannot be indexed when it contains "section_text". *)
Lemma clean_sections_bare_strings (texts : list str) (m : Z) (kept : list str) :
  clean_sections (map VStr texts) m = Ok kept -> kept = [].
Proof.
  revert kept. induction texts as [|t texts IH]; cbn [map clean_sections];
    intros kept H.
  - inversion H. reflexivity.
  - unfold clean_section in H. cbn [py_contains bind] in H.
    destruct (contains k_section_text t); [discriminate|].
    cbn [bind] in H.
    destruct (clean_sections (map VStr texts) m) as [kept'|]; [|discriminate].
    cbn [bind] in H. inversion H; subst. apply (IH kept eq_refl).
Qed.

Lemma clean_sections_bare_strings_raise (texts : list str) (m : Z) :
  existsb (contains k_section_text) texts = true ->
  clean_sections (map VStr texts) m = Raise TypeError.
Proof.
  induction texts as [|t texts IH]; cbn [existsb map clean_sections];
    [discriminate|].
  unfold clean_section. cbn [py_contains bind].
  destruct (contains k_section_text t); [reflexivity|].
  cbn [orb bind]. intros H. rewrite (IH H). reflexivity.
Qed.

(** What the sections block leaves under "sections", whatever was there:
    nothing, or a non-empty list of strings. *)
Lemma clean_sections_field_shape (d cleaned : dict) (m : Z) :
  clean_sections_field d m = Ok cleaned ->
  dict_get k_sections cleaned = None \/
  exists kept, kept <> [] /\
               dict_get k_sections cleaned = Some (VList (map VStr kept)).
Proof.
  unfold clean_sections_field. intros H.
  destruct (dict_get k_sections d) as [sections|] eqn:Hs.
  - destruct (py_iter sections) as [entries|]; [|discriminate].
    cbn [bind] in H.
    destruct (clean_sections entries m) as [[|t kept]|]; cbn [bind] in H;
      inversion H; subst.
    + left. rewrite dict_get_pop, str_eqb_refl. reflexivity.
    + right. exists (t :: kept). split; [discriminate|].
      apply dict_get_set_same.
  - inversion H; subst. left. exact Hs.
Qed.

(** X3.  Cleaning is not idempotent: the cleaner reads its own output's
    "sections", a list of bare strings, as records without text.  A
    second cleaning of a cleaned node, when it returns, returns a node
    without "sections"; and it raises [TypeError] when one of the node's
    strings contains "section_text". *)
Theorem clean_toc_tree_twice (d d1 : dict) (m m' : Z) :
  clean_toc_tree (VDict d) m = Ok (VDict d1) ->
  (forall out, clean_toc_tree (VDict d1) m' = Ok out ->
     exists d2, out = VDict d2 /\ dict_get k_sections d2 = None) /\
  (forall texts,
     dict_get k_sections d1 = Some (VList (map VStr texts)) ->
     existsb (contains k_section_text) texts = true ->
     clean_toc_tree (VDict d1) m' = Raise TypeError).
Proof.
  rewrite clean_toc_tree_dict. intros H.
  destruct (clean_sections_field d m) as [cleaned|] eqn:Hc; [|discriminate].
  cbn [bind] in H.
  destruct (clean_children_field_other _ _ _ k_sections H eq_refl)
    as (d1' & E & Hd1). inversion E; subst d1'. clear E.
  split.
  - intros out Hout.
    destruct (clean_sections_field_shape _ _ _ Hc) as [Hn|(kept & _ & Hk)].
    + apply (clean_toc_tree_no_sections d1 m' out Hout). congruence.
    + rewrite <- Hd1 in Hk.
      destruct (clean_toc_tree_sections _ _ _ _ Hout Hk)
        as (d2 & kept2 & -> & Hk2 & Hg).
      exists d2. split; [reflexivity|].
      rewrite (clean_sections_bare_strings _ _ _ Hk2) in Hg. exact Hg.
  - intros texts Ht Hex. rewrite clean_toc_tree_dict.
    unfold clean_sections_field. rewrite Ht. cbn [py_iter bind].
    rewrite (clean_sections_bare_strings_raise _ _ Hex). reflexivity.
Qed.

Lemma clean_toc_tree_twice_witness :
  (forall out,
     clean_toc_tree
       (VDict [(k_title, VStr (lit "T"));
               (k_sections, VList [VStr (lit "abcdefghij...")])]) 3000 = Ok out ->
     exists d2, out = VDict d2 /\ dict_get k_sections d2 = None) /\
  (forall texts,
     dict_get k_sections
       [(k_title, VStr (lit "T"));
        (k_sections, VList [VStr (lit "abcdefghij...")])]
     = Some (VList (map VStr texts)) ->
     existsb (contains k_section_text) texts = true ->
     clean_toc_tree
       (VDict [(k_title, VStr (lit "T"));
               (k_sections, VList [VStr (lit "abcdefghij...")])]) 3000
     = Raise TypeError).
Proof.
  apply (clean_toc_tree_twice (node_with_section (lit "abcdefghijk")) _ 10 3000).
  reflexivity.
Defined.

(* --------------------------------------------------------------------- *)
(** ** [combine_section_texts] *)

Lemma combined_texts_strings (l : list str) :
  combined_texts (map VStr l) = Ok (non_blank l).
Proof.
  unfold non_blank. induction l as [|t l IH]; [reflexivity|].
  cbn [map combined_texts combined_text bind filter]. rewrite IH.
  cbn [bind]. destruct (is_empty (strip t)); reflexivity.
Qed.

Lemma combined_texts_records (l : list str) :
  combined_texts (map entry l) = Ok (non_blank l).
Proof.
  unfold non_blank. induction l as [|t l IH]; [reflexivity|].
  cbn [map combined_texts filter]. rewrite IH.
  change (combined_text (entry t))
    with (@Ok (option str) (if is_empty (strip t) then None else Some (strip t))).
  cbn [bind]. destruct (is_empty (strip t)); reflexivity.
Qed.

(** X4.  [combine_section_texts] reads the two formats of "sections"
    alike: a node whose "sections" is a list of strings and a node whose
    "sections" is the list of records holding these strings both give the
    non-blank texts, trimmed, joined by a blank line. *)
Theorem combine_section_texts_formats (l : list str) (d d' : dict) :
  dict_get k_sections d = Some (VList (map VStr l)) ->
  dict_get k_sections d' = Some (VList (map entry l)) ->
  combine_section_texts (VDict d) = Ok (join BLANK_LINE (non_blank l)) /\
  combine_section_texts (VDict d') = Ok (join BLANK_LINE (non_blank l)).
Proof.
  intros H H'. unfold combine_section_texts, dict_get_default.
  rewrite H, H'. destruct l as [|t l]; [split; reflexivity|].
  cbn [map truthy negb py_iter bind].
  change (VStr t :: map VStr l) with (map VStr (t :: l)).
  change (entry t :: map entry l) with (map entry (t :: l)).
  rewrite combined_texts_strings, combined_texts_records. split; reflexivity.
Qed.

Lemma combine_section_texts_formats_witness :
  combine_section_texts
    (VDict [(k_sections, VList (map VStr [lit " one "; lit "  "; lit "two"]))])
  = Ok (join BLANK_LINE (non_blank [lit " one "; lit "  "; lit "two"])) /\
  combine_section_texts
    (VDict [(k_sections, VList (map entry [lit " one "; lit "  "; lit "two"]))])
  = Ok (join BLANK_LINE (non_blank [lit " one "; lit "  "; lit "two"])).
Proof.
  apply (combine_section_texts_formats [lit " one "; lit "  "; lit "two"]);
    reflexivity.
Defined.

Lemma combined_text_trimmed (s : value) (t : str) :
  combined_text s = Ok (Some t) -> is_trimmed t = true /\ t <> [].
Proof.
  destruct s as [| b | z | u | l | e]; cbn [combined_text]; try discriminate.
  - destruct (is_empty (strip u)) eqn:E; intros H; inversion H; subst.
    split; [apply strip_is_trimmed|]. intros E2. rewrite E2 in E. discriminate.
  - destruct (dict_get_default k_section_text (VStr []) e)
      as [| b | z | u | l | e']; cbn [py_strip bind]; try discriminate.
    destruct (is_empty (strip u)) eqn:E; intros H; inversion H; subst.
    split; [apply strip_is_trimmed|]. intros E2. rewrite E2 in E. discriminate.
Qed.

Lemma combined_texts_trimmed (l : list value) (texts : list str) :
  combined_texts l = Ok texts ->
  Forall (fun t => is_trimmed t = true /\ t <> []) texts.
Proof.
  revert texts. induction l as [|s l IH]; cbn [combined_texts]; intros texts H.
  - inversion H. constructor.
  - destruct (combined_text s) as [r|] eqn:E; [|discriminate].
    cbn [bind] in H.
    destruct (combined_texts l) as [texts'|]; [|discriminate].
    cbn [bind] in H. inversion H; subst. specialize (IH texts' eq_refl).
    destruct r as [t|]; [|exact IH].
    constructor; [apply (combined_text_trimmed s t E) | exact IH].
Qed.

Lemma join_trimmed (sep : str) (texts : list str) :
  Forall (fun t => is_trimmed t = true /\ t <> []) texts ->
  is_trimmed (join sep texts) = true /\ (texts <> [] -> join sep texts <> []).
Proof.
  induction 1 as [|t texts [Ht Hne] Hall [IH1 IH2]]; [split; [reflexivity | congruence]|].
  destruct texts as [|t' texts].
  - cbn [join]. split; [exact Ht | intros _; exact Hne].
  - change (join sep (t :: t' :: texts))
      with (t ++ sep ++ join sep (t' :: texts)).
    split.
    + apply is_trimmed_around; [exact Ht | exact IH1 | exact Hne |].
      apply IH2. discriminate.
    + intros _. destruct t; [congruence | discriminate].
Qed.

(** X5.  The text [combine_section_texts] returns is trimmed: it never
    begins or ends with whitespace, whatever the node holds. *)
Theorem combine_section_texts_trimmed (node : value) (text : str) :
  combine_section_texts node = Ok text -> is_trimmed text = true.
Proof.
  unfold combine_section_texts.
  destruct node as [| b | z | s | l | d]; try discriminate.
  destruct (negb (truthy (dict_get_default k_sections (VList []) d))).
  - intros H. inversion H. reflexivity.
  - destruct (py_iter _) as [elems|]; [|discriminate]. cbn [bind].
    destruct (combined_texts elems) as [texts|] eqn:E; [|discriminate].
    cbn [bind]. intros H. inversion H.
    apply join_trimmed. apply (combined_texts_trimmed _ _ E).
Qed.

Lemma combine_section_texts_trimmed_witness :
  is_trimmed (join BLANK_LINE (non_blank [lit " one "; lit "  "; lit "two"]))
  = true.
Proof.
  apply (combine_section_texts_trimmed
           (VDict [(k_sections,
                    VList (map VStr [lit " one "; lit "  "; lit "two"]))])).
  reflexivity.
Defined.

Lemma non_blank_fixed (l : list str) :
  Forall (fun t => is_trimmed t = true /\ t <> []) l -> non_blank l = l.
Proof.
  unfold non_blank. induction 1 as [|t l [Ht Hne] _ IH]; [reflexivity|].
  cbn [map filter]. rewrite (strip_fixed t Ht), IH.
  destruct t; [congruence | reflexivity].
Qed.

Lemma emitted_all_trimmed (m : Z) (entries : list value) :
  0 <= m ->
  Forall (fun t => is_trimmed t = true /\ t <> [])
         (flat_map (emitted m) entries).
Proof.
  intros Hm. apply Forall_forall. intros t Ht.
  apply in_flat_map in Ht. destruct Ht as (e & _ & Ht).
  destruct (emitted_shape m e t Hm Ht) as (H1 & H2 & _).
  split; [exact H1|]. intros ->. cbn in H2. lia.
Qed.

(** X6.  Cleaning and combining compose: with a maximum length [m >= 0],
    the combined text of a cleaned node is the list of the strings the
    cleaner emitted for the node's section records, in order, joined by a
    blank line; nothing is trimmed or dropped a second time. *)
Theorem combine_section_texts_after_clean
    (d : dict) (m : Z) (out : value) (entries : list value) :
  0 <= m ->
  clean_toc_tree (VDict d) m = Ok out ->
  dict_get k_sections d = Some (VList entries) ->
  combine_section_texts out
  = Ok (join BLANK_LINE (flat_map (emitted m) entries)).
Proof.
  intros Hm H Hs.
  destruct (clean_toc_tree_sections _ _ _ _ H Hs) as (d' & kept & -> & Hk & Hg).
  apply clean_sections_emitted in Hk. subst kept.
  pose proof (emitted_all_trimmed m entries Hm) as Hall.
  unfold combine_section_texts, dict_get_default. rewrite Hg.
  destruct (flat_map (emitted m) entries) as [|t kept] eqn:E; [reflexivity|].
  cbn [truthy map negb py_iter bind].
  change (VStr t :: map VStr kept) with (map VStr (t :: kept)).
  rewrite combined_texts_strings. cbn [bind].
  rewrite (non_blank_fixed _ Hall). reflexivity.
Qed.

Lemma combine_section_texts_after_clean_witness :
  combine_section_texts
    (VDict [(k_title, VStr (lit "T"));
            (k_sections, VList [VStr (lit "abcdefghij...")])])
  = Ok (join BLANK_LINE (flat_map (emitted 10) [entry (lit "abcdefghijk")])).
Proof.
  apply (combine_section_texts_after_clean
           (node_with_section (lit "abcdefghijk")) 10).
  - lia.
  - reflexivity.
  - reflexivity.
Defined.

(* --------------------------------------------------------------------- *)
(** ** ChunkSplitter: what a chunk holds, and how many chunks *)

Lemma dict_set_set (k : str) (v v' : value) (d : dict) :
  dict_set k v (dict_set k v' d) = dict_set k v d.
Proof.
  induction d as [|[k2 v2] d IH]; cbn [dict_set].
  - rewrite str_eqb_refl. reflexivity.
  - destruct (str_eqb k2 k) eqn:E; cbn [dict_set]; rewrite E;
      [reflexivity | rewrite IH; reflexivity].
Qed.

Section ChunkShape.

Variable count_tokens_in_json : value -> nat.
Variable tree : dict.
Variable chunk_size : Z.

Local Abbreviation cost x := (Z.of_nat (count_tokens_in_json x)).
Local Abbreviation base := (base_tokens count_tokens_in_json tree).
Local Abbreviation tokens_of := (children_tokens count_tokens_in_json).
Local Abbreviation step := (split_step count_tokens_in_json tree chunk_size).
Local Abbreviation grouping := (groups count_tokens_in_json tree chunk_size).

(** The chunk made of the seed and a list of children. *)
Lemma new_chunk_children : dict_get k_children (new_chunk tree) = Some (VList []).
Proof.
  unfold new_chunk. cbn [fold_left].
  destruct (dict_get k_page tree); destruct (dict_get k_sections tree);
    reflexivity.
Qed.

Lemma chunk_append_seeded (child : value) (g : list value) :
  chunk_append child (dict_set k_children (VList g) (new_chunk tree))
  = dict_set k_children (VList (g ++ [child])) (new_chunk tree).
Proof.
  unfold chunk_append. cbn [chunk_children].
  rewrite dict_get_set_same, dict_set_set. reflexivity.
Qed.

Lemma fold_split_step_seeded (children : list value) (st : split_state) :
  (exists g, current_chunk st = dict_set k_children (VList g) (new_chunk tree)) ->
  Forall (fun c => exists g,
            c = VDict (dict_set k_children (VList g) (new_chunk tree)))
         (chunks st) ->
  Forall (fun c => exists g,
            c = VDict (dict_set k_children (VList g) (new_chunk tree)))
         (final_chunks (fold_left step children st)).
Proof.
  revert st. induction children as [|child rest IH]; intros st Hcur Hall.
  - cbn [fold_left]. unfold final_chunks. destruct (truthy _); [|exact Hall].
    apply Forall_app. split; [exact Hall|]. constructor; [|constructor].
    destruct Hcur as [g ->]. eauto.
  - cbn [fold_left]. apply IH; unfold split_step;
      destruct (_ && _); cbn [chunks current_chunk].
    + exists [child]. pose proof (chunk_append_seeded child []) as E.
      rewrite (dict_set_same_value _ _ _ new_chunk_children) in E. exact E.
    + destruct Hcur as [g ->]. exists (g ++ [child]).
      apply chunk_append_seeded.
    + apply Forall_app. split; [exact Hall|]. constructor; [|constructor].
      destruct Hcur as [g ->]. eauto.
    + exact Hall.
Qed.

Lemma new_chunk_fields (g : list value) (k : str) (v : value) :
  dict_get k (dict_set k_children (VList g) (new_chunk tree)) = Some v ->
  (k = k_title /\ v = dict_get_default k_title (VStr []) tree) \/
  (k = k_children /\ v = VList g) \/
  (k = k_page /\ dict_get k_page tree = Some v) \/
  (k = k_sections /\ dict_get k_sections tree = Some v).
Proof.
  rewrite dict_get_set.
  destruct (str_eqb k_children k) eqn:Ec.
  { apply str_eqb_eq in Ec. intros H. inversion H. auto. }
  unfold new_chunk. cbn [fold_left].
  destruct (dict_get k_page tree) as [vp|] eqn:Ep;
    destruct (dict_get k_sections tree) as [vs|] eqn:Es;
    rewrite ?dict_get_set; cbn [dict_get];
    repeat match goal with
      | |- context [str_eqb ?a k] =>
          let E := fresh "E" in
          destruct (str_eqb a k) eqn:E;
          [apply str_eqb_eq in E; subst k|]
      end;
    try discriminate; intros H; inversion H; subst; auto 6.
Qed.

Lemma groups_length (children cur : list value) (tokens : Z) :
  (length (grouping cur tokens children)
   <= (if is_empty cur then 0 else 1) + length children)%nat.
Proof.
  revert cur tokens. induction children as [|child rest IH]; intros cur tokens;
    cbn [groups].
  - destruct cur; cbn; lia.
  - destruct ((chunk_size <? tokens + cost child) && negb (is_empty cur)) eqn:E.
    + apply andb_true_iff in E. destruct E as [_ E].
      destruct cur; [discriminate|]. cbn [length is_empty].
      specialize (IH [child] (base + cost child)). cbn [is_empty] in IH. lia.
    + specialize (IH (cur ++ [child]) (tokens + cost child)).
      destruct cur; cbn [app is_empty length] in *; lia.
Qed.

Lemma groups_all_fit (children cur : list value) (tokens : Z) :
  tokens + tokens_of children <= chunk_size ->
  grouping cur tokens children
  = if is_empty (cur ++ children) then [] else [cur ++ children].
Proof.
  revert cur tokens. induction children as [|child rest IH]; intros cur tokens H;
    cbn [groups].
  - rewrite app_nil_r. reflexivity.
  - rewrite children_tokens_cons in H.
    pose proof (children_tokens_nonneg count_tokens_in_json rest) as Hr.
    rewrite (proj2 (Z.ltb_ge _ _)) by lia. cbn [andb].
    rewrite IH by lia. rewrite <- app_assoc. reflexivity.
Qed.

End ChunkShape.

(** X7.  Every chunk returned is a dict that carries the tree's title
    ([""] when the tree has none) and the tree's "page" and "sections"
    exactly when the tree has them, and holds no key besides these and
    "children". *)
Theorem split_tree_into_chunks_seed
    (count_tokens_in_json : value -> nat) (tree : dict) (chunk_size : Z)
    (chunks : list value) :
  split_tree_into_chunks count_tokens_in_json (VDict tree) chunk_size
  = Ok chunks ->
  Forall (fun c => exists cd,
            c = VDict cd /\
            dict_get k_title cd = Some (dict_get_default k_title (VStr []) tree) /\
            dict_get k_page cd = dict_get k_page tree /\
            dict_get k_sections cd = dict_get k_sections tree /\
            forall k v, dict_get k cd = Some v ->
                        In k [k_title; k_children; k_page; k_sections])
         chunks.
Proof.
  unfold split_tree_into_chunks.
  destruct (py_iter _) as [children|]; [|discriminate]. cbn [bind].
  intros H.
  assert (E : chunks
              = final_chunks
                  (fold_left (split_step count_tokens_in_json tree chunk_size)
                             children (split_init count_tokens_in_json tree))).
  { unfold final_chunks. destruct (truthy _); inversion H; reflexivity. }
  rewrite E. clear E H.
  eapply Forall_impl; [|apply fold_split_step_seeded].
  - intros c [g ->]. eexists. split; [reflexivity|].
    assert (Hget : forall k,
              dict_get k (dict_set k_children (VList g) (new_chunk tree))
              = match dict_get k (dict_set k_children (VList g) (new_chunk tree)) with
                | Some v => Some v | None => None end)
      by (intros k; destruct (dict_get k _); reflexivity).
    split; [|split; [|split]].
    + destruct (dict_get k_title _) as [v|] eqn:Ev.
      * destruct (new_chunk_fields tree g _ _ Ev)
          as [[_ ->]|[[E _]|[[E _]|[E _]]]]; [reflexivity|discriminate..].
      * exfalso. revert Ev. rewrite dict_get_set. cbn [str_eqb k_children k_title lit].
        unfold new_chunk. cbn [fold_left].
        destruct (dict_get k_page tree); destruct (dict_get k_sections tree);
          discriminate.
    + destruct (dict_get k_page (dict_set _ _ _)) as [v|] eqn:Ev.
      * destruct (new_chunk_fields tree g _ _ Ev)
          as [[E _]|[[E _]|[[_ E]|[E _]]]]; try discriminate.
        symmetry. exact E.
      * revert Ev. rewrite dict_get_set.
        change (str_eqb k_children k_page) with false. cbv iota.
        unfold new_chunk. cbn [fold_left].
        destruct (dict_get k_page tree) as [vp|];
          destruct (dict_get k_sections tree) as [vs|];
          try discriminate; reflexivity.
    + destruct (dict_get k_sections (dict_set _ _ _)) as [v|] eqn:Ev.
      * destruct (new_chunk_fields tree g _ _ Ev)
          as [[E _]|[[E _]|[[E _]|[_ E]]]]; try discriminate.
        symmetry. exact E.
      * revert Ev. rewrite dict_get_set.
        change (str_eqb k_children k_sections) with false. cbv iota.
        unfold new_chunk. cbn [fold_left].
        destruct (dict_get k_page tree) as [vp|];
          destruct (dict_get k_sections tree) as [vs|];
          try discriminate; reflexivity.
    + intros k v Hk.
      destruct (new_chunk_fields tree g _ _ Hk)
        as [[-> _]|[[-> _]|[[-> _]|[-> _]]]]; cbn [In]; auto.
  - exists []. cbn [split_init current_chunk].
    symmetry. apply dict_set_same_value. apply new_chunk_children.
  - constructor.
Qed.

Lemma split_tree_into_chunks_seed_witness :
  Forall (fun c => exists cd,
            c = VDict cd /\
            dict_get k_title cd
            = Some (dict_get_default k_title (VStr []) four_children) /\
            dict_get k_page cd = dict_get k_page four_children /\
            dict_get k_sections cd = dict_get k_sections four_children /\
            forall k v, dict_get k cd = Some v ->
                        In k [k_title; k_children; k_page; k_sections])
         [VDict [(k_title, VStr (lit "T")); (k_children, VList [leaf "a"])];
          VDict [(k_title, VStr (lit "T"));
                 (k_children, VList [leaf "b"; VInt 1])];
          VDict [(k_title, VStr (lit "T")); (k_children, VList [leaf "c"])]].
Proof.
  apply (split_tree_into_chunks_seed object_count four_children 7).
  reflexivity.
Defined.

Lemma map_singleton {A B} (f : A -> B) (l : list A) (b : B) :
  map f l = [b] -> exists a, l = [a] /\ f a = b.
Proof.
  destruct l as [|a [|a' l]]; cbn; try discriminate.
  intros H. inversion H. eauto.
Qed.

(** X8.  There are never more chunks than children, and there is no
    chunk exactly when there is no child. *)
Theorem split_tree_into_chunks_count
    (count_tokens_in_json : value -> nat) (tree : dict) (chunk_size : Z)
    (children : list value) :
  py_iter (dict_get_default k_children (VList []) tree) = Ok children ->
  exists chunks,
    split_tree_into_chunks count_tokens_in_json (VDict tree) chunk_size
    = Ok chunks /\
    (length chunks <= length children)%nat /\
    (chunks = [] <-> children = []).
Proof.
  intros H.
  destruct (split_tree_into_chunks_groups count_tokens_in_json tree chunk_size
              children H) as (chunks & Hs & Hg).
  exists chunks. split; [exact Hs|].
  pose proof (groups_length count_tokens_in_json tree chunk_size children []
                (base_tokens count_tokens_in_json tree)) as Hlen.
  pose proof (groups_concat count_tokens_in_json tree chunk_size children []
                (base_tokens count_tokens_in_json tree)) as Hcat.
  rewrite <- Hg in Hlen, Hcat. rewrite length_map in Hlen.
  cbn [is_empty app] in Hlen, Hcat. split; [lia|]. split.
  - intros ->. cbn in Hcat. congruence.
  - intros ->. cbn in Hlen. destruct chunks; [reflexivity | cbn in Hlen; lia].
Qed.

Lemma split_tree_into_chunks_count_witness :
  exists chunks,
    split_tree_into_chunks object_count (VDict four_children) 7 = Ok chunks /\
    (length chunks <= length [leaf "a"; leaf "b"; VInt 1; leaf "c"])%nat /\
    (chunks = [] <-> [leaf "a"; leaf "b"; VInt 1; leaf "c"] = []).
Proof.
  apply (split_tree_into_chunks_count object_count four_children 7).
  reflexivity.
Defined.

(** X9.  When the seed and all the children together are within the
    budget, the children are not split: there is one chunk, and it holds
    them all. *)
Theorem split_tree_into_chunks_single
    (count_tokens_in_json : value -> nat) (tree : dict) (chunk_size : Z)
    (children : list value) :
  py_iter (dict_get_default k_children (VList []) tree) = Ok children ->
  children <> [] ->
  base_tokens count_tokens_in_json tree
  + children_tokens count_tokens_in_json children <= chunk_size ->
  exists chunk,
    split_tree_into_chunks count_tokens_in_json (VDict tree) chunk_size
    = Ok [chunk] /\
    chunk_children chunk = children.
Proof.
  intros H Hne Hfit.
  destruct (split_tree_into_chunks_groups count_tokens_in_json tree chunk_size
              children H) as (chunks & Hs & Hg).
  rewrite (groups_all_fit count_tokens_in_json tree chunk_size children []
             _ Hfit) in Hg.
  cbn [app] in Hg. destruct children as [|c cs]; [congruence|].
  cbn [is_empty] in Hg. destruct (map_singleton _ _ _ Hg) as (chunk & -> & Hc).
  exists chunk. split; [exact Hs | exact Hc].
Qed.

Lemma split_tree_into_chunks_single_witness :
  exists chunk,
    split_tree_into_chunks object_count (VDict four_children) 13 = Ok [chunk] /\
    chunk_children chunk = [leaf "a"; leaf "b"; VInt 1; leaf "c"].
Proof.
  apply (split_tree_into_chunks_single object_count four_children 13).
  - reflexivity.
  - discriminate.
  - cbn. lia.
Defined.

(** X10.  Cleaning and splitting compose: the chunks of a cleaned tree
    hold, put end to end, the cleaned children of the tree, one for each
    child of the tree and in the same order. *)
Theorem split_tree_into_chunks_after_clean
    (count_tokens_in_json : value -> nat) (d : dict) (m chunk_size : Z)
    (cleaned : value) (cs : list value) :
  clean_toc_tree (VDict d) m = Ok cleaned ->
  dict_get_default k_children (VList []) d = VList cs ->
  exists cs' chunks,
    mapM (fun child => clean_toc_tree child m) cs = Ok cs' /\
    length cs' = length cs /\
    split_tree_into_chunks count_tokens_in_json cleaned chunk_size = Ok chunks /\
    concat (map chunk_children chunks) = cs'.
Proof.
  intros H Hcs.
  destruct (clean_toc_tree_structure d m cleaned H) as (d' & -> & _ & Hch).
  assert (Hd' : exists cs',
            mapM (fun child => clean_toc_tree child m) cs = Ok cs' /\
            length cs' = length cs /\
            dict_get_default k_children (VList []) d' = VList cs').
  { unfold dict_get_default in *.
    destruct (dict_get k_children d) as [x|].
    - subst x. destruct cs as [|c cs].
      + rewrite Hch. exists []. repeat split.
      + destruct Hch as (cs' & Hm & Hg & Hl). rewrite Hg. eauto.
    - inversion Hcs; subst cs. rewrite Hch. exists []. repeat split. }
  destruct Hd' as (cs' & Hm & Hl & Hg).
  assert (Hi : py_iter (dict_get_default k_children (VList []) d') = Ok cs')
    by (rewrite Hg; reflexivity).
  destruct (split_tree_into_chunks_groups count_tokens_in_json d' chunk_size
              cs' Hi) as (chunks & Hs & Hgr).
  exists cs', chunks. split; [exact Hm|]. split; [exact Hl|].
  split; [exact Hs|]. rewrite Hgr. apply groups_concat.
Qed.

Lemma split_tree_into_chunks_after_clean_witness :
  exists cs' chunks,
    mapM (fun child => clean_toc_tree child 3000)
         [leaf "a"; leaf "b"; VDict (node_with_section (lit " abcdefghi"))]
    = Ok cs' /\
    length cs' = 3%nat /\
    split_tree_into_chunks object_count
      (VDict [(k_title, VStr (lit "T"));
              (k_children, VList [leaf "a"; leaf "b"; leaf "T"])]) 7
    = Ok chunks /\
    concat (map chunk_children chunks) = cs'.
Proof.
  apply (split_tree_into_chunks_after_clean object_count
           [(k_title, VStr (lit "T"));
            (k_children,
             VList [leaf "a"; leaf "b";
                    VDict (node_with_section (lit " abcdefghi"))])]
           3000 7); reflexivity.
Defined.

(* --------------------------------------------------------------------- *)
(** ** TocTreeBuilder: the root, and the number of records *)

Lemma section_count_update_nth (i : nat) (f : toc -> toc) (cs : list toc) :
  (forall c, section_count (f c) = S (section_count c)) ->
  (i < length cs)%nat ->
  fold_right (fun c acc => section_count c + acc)%nat O (update_nth i f cs)
  = S (fold_right (fun c acc => section_count c + acc)%nat O cs).
Proof.
  intros Hf. revert i. induction cs as [|c cs IH]; intros i Hi;
    [cbn in Hi; lia|].
  destruct i as [|i]; cbn [update_nth fold_right].
  - rewrite Hf. reflexivity.
  - rewrite IH by (cbn in Hi; lia). lia.
Qed.

Lemma section_count_app_new (cs : list toc) (title : str) :
  fold_right (fun c acc => section_count c + acc)%nat O (cs ++ [new_node title])
  = fold_right (fun c acc => section_count c + acc)%nat O cs.
Proof.
  induction cs as [|c cs IH]; [reflexivity|].
  cbn [app fold_right]. rewrite IH. reflexivity.
Qed.

(** Every block adds one record to the tree. *)
Lemma add_block_section_count (path : list str) (p : payload) (t : toc) :
  section_count (add_block path p t) = S (section_count t).
Proof.
  revert t. induction path as [|b path IH]; intros [title cs sections].
  - cbn [add_block append_section toc_title toc_children toc_sections
         section_count].
    destruct sections as [l|]; [rewrite length_app|]; cbn [length]; lia.
  - cbn [add_block]. unfold ensure_child.
    cbn [toc_children toc_title toc_sections].
    destruct (find_child b cs) as [i|] eqn:E; unfold update_child;
      cbn [toc_children toc_title toc_sections section_count].
    + destruct (find_child_Some _ _ _ E) as (c & Hc & _).
      rewrite (section_count_update_nth i _ cs IH); [lia|].
      apply nth_error_Some. congruence.
    + rewrite (section_count_update_nth (length cs) _ _ IH);
        [|rewrite length_app; cbn; lia].
      rewrite section_count_app_new. lia.
Qed.

Lemma add_block_root (b : str) (path : list str) (p : payload) (t : toc) :
  toc_sections (add_block (b :: path) p t) = toc_sections t.
Proof.
  destruct t as [title cs sections]. cbn [add_block]. unfold ensure_child.
  cbn [toc_children toc_title toc_sections].
  destruct (find_child b cs); reflexivity.
Qed.

Section TocTreeBuilderCounting.

Variable Node : Type.
Variable get_node_id : Node -> value.
Variable ancestors_of : Node -> list str.
Variable extract_heading_level_title_and_body : Node -> heading_info.

Local Abbreviation build :=
  (nodes_to_toc_tree get_node_id ancestors_of
                     extract_heading_level_title_and_body).
Local Abbreviation path :=
  (path_of ancestors_of extract_heading_level_title_and_body).
Local Abbreviation record :=
  (payload_of get_node_id extract_heading_level_title_and_body).
Local Abbreviation step :=
  (fun (root : toc) (n : Node) => add_block (path n) (record n) root).

Lemma fold_add_block_root (nodes : list Node) (t : toc) :
  toc_title (fold_left step nodes t) = toc_title t /\
  toc_sections (fold_left step nodes t) = toc_sections t /\
  section_count (fold_left step nodes t) = (section_count t + length nodes)%nat.
Proof.
  revert t. induction nodes as [|n nodes IH]; intros t.
  - cbn. repeat split. lia.
  - cbn [fold_left length]. destruct (IH (add_block (path n) (record n) t))
      as (H1 & H2 & H3).
    rewrite H1, H2, H3, add_block_title, add_block_section_count.
    unfold path_of.
    destruct (ancestors_of n) as [|a l]; cbn [app]; rewrite add_block_root;
      repeat split; lia.
Qed.

(** X11.  The tree built from any sequence of blocks has the root
    "ROOT", which never holds a section record (every block lands below
    it), and holds exactly one section record for each block. *)
Theorem nodes_to_toc_tree_root_and_count (nodes : list Node) :
  toc_title (build nodes) = lit "ROOT" /\
  toc_sections (build nodes) = None /\
  section_count (build nodes) = length nodes.
Proof.
  unfold nodes_to_toc_tree.
  destruct (fold_add_block_root nodes ROOT) as (H1 & H2 & H3).
  rewrite H1, H2, H3. repeat split.
Qed.

End TocTreeBuilderCounting.

(* --------------------------------------------------------------------- *)
(** ** [parse_header_path] *)

Lemma non_blank_trimmed (l : list str) :
  Forall (fun t => is_trimmed t = true /\ t <> []) (non_blank l).
Proof.
  unfold non_blank. apply Forall_forall. intros t Ht.
  apply filter_In in Ht. destruct Ht as [Hin Hne].
  apply in_map_iff in Hin. destruct Hin as (u & <- & _).
  split; [apply strip_is_trimmed|].
  intros E. rewrite E in Hne. discriminate.
Qed.

(** X12.  Whatever the header path, and whatever the (non-empty)
    separator, the components [parse_header_path] returns are trimmed and
    none is empty; it returns no component for a path that is [None],
    empty, or the separator alone; and it fails (as [split] does) only on
    an empty separator. *)
Theorem parse_header_path_components (header_path : option str) (sep : str) :
  (forall parts,
     Parser.parse_header_path header_path sep = Some parts ->
     Forall (fun p => is_trimmed p = true /\ p <> []) parts) /\
  Parser.parse_header_path None sep = Some [] /\
  Parser.parse_header_path (Some []) sep = Some [] /\
  Parser.parse_header_path (Some sep) sep = Some [] /\
  (sep <> [] ->
   exists parts, Parser.parse_header_path header_path sep = Some parts).
Proof.
  split; [|split; [|split; [|split]]].
  - intros parts. unfold Parser.parse_header_path.
    destruct header_path as [h|]; [|intros H; inversion H; constructor].
    destruct (is_empty h || str_eqb h sep);
      [intros H; inversion H; constructor|].
    cbv zeta. destruct (Parser.split _ sep) as [pieces|]; [|discriminate].
    intros H. inversion H. apply non_blank_trimmed.
  - reflexivity.
  - reflexivity.
  - unfold Parser.parse_header_path. rewrite str_eqb_refl, orb_true_r.
    reflexivity.
  - intros Hsep. unfold Parser.parse_header_path.
    destruct header_path as [h|]; [|eauto].
    destruct (is_empty h || str_eqb h sep); [eauto|].
    cbv zeta. unfold Parser.split. destruct sep; [congruence | eauto].
Qed.

Lemma starts_with_separator_no (c : char) (t : str) :
  match t with
  | x :: _ => x <> GREATER
  | [] => True
  end ->
  starts_with Parser.HEADER_PATH_SEPARATOR (c :: t) = false.
Proof.
  unfold Parser.HEADER_PATH_SEPARATOR. cbn [starts_with].
  destruct t as [|x t]; [intros _; apply andb_false_r|].
  intros Hx. cbn [starts_with].
  destruct (char_eqb GREATER x) eqn:E;
    [apply char_eqb_eq in E; congruence|].
  apply andb_false_r.
Qed.

(** A piece without '>' is read up to the separator that follows it. *)
Lemma split_from_piece (p cur rest : str) :
  ~ In GREATER p ->
  Parser.split_from Parser.HEADER_PATH_SEPARATOR O cur
    (p ++ Parser.HEADER_PATH_SEPARATOR ++ rest)
  = (cur ++ p)
      :: Parser.split_from Parser.HEADER_PATH_SEPARATOR O [] rest.
Proof.
  revert cur. induction p as [|c p IH]; intros cur Hp.
  - rewrite app_nil_r. reflexivity.
  - cbn [app Parser.split_from].
    rewrite starts_with_separator_no.
    + rewrite IH by (intros H; apply Hp; right; exact H).
      rewrite <- app_assoc. reflexivity.
    + destruct p as [|x p]; cbn [app].
      * discriminate.
      * intros ->. apply Hp. right. left. reflexivity.
Qed.

Lemma split_from_last_piece (p cur : str) :
  ~ In GREATER p ->
  Parser.split_from Parser.HEADER_PATH_SEPARATOR O cur p = [cur ++ p].
Proof.
  revert cur. induction p as [|c p IH]; intros cur Hp.
  - rewrite app_nil_r. reflexivity.
  - cbn [Parser.split_from]. rewrite starts_with_separator_no.
    + rewrite IH by (intros H; apply Hp; right; exact H).
      rewrite <- app_assoc. reflexivity.
    + destruct p as [|x p]; [exact I|].
      intros ->. apply Hp. right. left. reflexivity.
Qed.

Lemma split_from_join (parts : list str) :
  Forall (fun p => ~ In GREATER p) parts ->
  parts <> [] ->
  Parser.split_from Parser.HEADER_PATH_SEPARATOR O []
    (join Parser.HEADER_PATH_SEPARATOR parts) = parts.
Proof.
  induction 1 as [|p parts Hp Hall IH];
    [intros H; exfalso; apply H; reflexivity|]. intros _.
  destruct parts as [|q parts].
  - cbn [join]. apply (split_from_last_piece p [] Hp).
  - change (join Parser.HEADER_PATH_SEPARATOR (p :: q :: parts))
      with (p ++ Parser.HEADER_PATH_SEPARATOR
              ++ join Parser.HEADER_PATH_SEPARATOR (q :: parts)).
    rewrite (split_from_piece p [] _ Hp), IH by discriminate. reflexivity.
Qed.

Lemma is_trimmed_edges (s : str) :
  is_trimmed s = true -> s <> [] ->
  exists c t r,
    s = c :: t /\ is_space c = false /\
    rev s = last s c :: r /\ is_space (last s c) = false.
Proof.
  destruct s as [|c t]; [congruence|]. intros H _.
  unfold is_trimmed in H. apply andb_true_iff in H. destruct H as [H1 H2].
  apply negb_true_iff in H1, H2.
  destruct (rev_head_last c t) as (r & Er). exists c, t, r. auto.
Qed.

(** A trimmed, non-empty text neither is the separator, nor begins nor
    ends with it. *)
Lemma trimmed_not_separator (s : str) :
  is_trimmed s = true -> s <> [] ->
  str_eqb s Parser.HEADER_PATH_SEPARATOR = false /\
  starts_with Parser.HEADER_PATH_SEPARATOR s = false /\
  Parser.ends_with Parser.HEADER_PATH_SEPARATOR s = false.
Proof.
  intros H Hne.
  destruct (is_trimmed_edges s H Hne) as (c & t & r & -> & Hc & Er & Hl).
  assert (Hs : forall x, is_space x = false -> char_eqb SPACE x = false).
  { intros x Hx. destruct (char_eqb SPACE x) eqn:E; [|reflexivity].
    apply char_eqb_eq in E. subst x. discriminate. }
  split; [|split].
  - apply str_eqb_neq. intros E. inversion E; subst c. discriminate.
  - unfold Parser.HEADER_PATH_SEPARATOR. cbn [starts_with].
    rewrite (Hs c Hc). reflexivity.
  - unfold Parser.ends_with. rewrite Er.
    unfold Parser.HEADER_PATH_SEPARATOR. cbn [rev app starts_with].
    rewrite (Hs _ Hl). reflexivity.
Qed.

Lemma starts_with_app (a b : str) : starts_with a (a ++ b) = true.
Proof.
  induction a as [|c a IH]; [reflexivity|].
  cbn [app starts_with]. unfold char_eqb. rewrite N.eqb_refl. exact IH.
Qed.

(** X13.  A header path written as the components joined by " > ", with
    or without the separator in front and at the end, is read back as
    these components, provided each component is trimmed, not empty, and
    holds no '>'. *)
Theorem parse_header_path_round_trip (parts : list str) :
  Forall (fun p => is_trimmed p = true /\ p <> [] /\ ~ In GREATER p) parts ->
  Parser.parse_header_path
    (Some (join Parser.HEADER_PATH_SEPARATOR parts))
    Parser.HEADER_PATH_SEPARATOR = Some parts
  /\
  (parts <> [] ->
   Parser.parse_header_path
     (Some (Parser.HEADER_PATH_SEPARATOR
              ++ join Parser.HEADER_PATH_SEPARATOR parts
              ++ Parser.HEADER_PATH_SEPARATOR))
     Parser.HEADER_PATH_SEPARATOR = Some parts).
Proof.
  intros Hall.
  assert (Htrim : Forall (fun t => is_trimmed t = true /\ t <> []) parts)
    by (eapply Forall_impl; [|exact Hall]; cbn; tauto).
  assert (Hgt : Forall (fun p => ~ In GREATER p) parts)
    by (eapply Forall_impl; [|exact Hall]; cbn; tauto).
  destruct parts as [|p parts]; [split; [reflexivity | congruence]|].
  set (text := join Parser.HEADER_PATH_SEPARATOR (p :: parts)).
  destruct (join_trimmed Parser.HEADER_PATH_SEPARATOR _ Htrim) as [Ht Hne].
  specialize (Hne ltac:(discriminate)). fold text in Ht, Hne.
  destruct (trimmed_not_separator text Ht Hne) as (E1 & E2 & E3).
  assert (Hsplit : Parser.split text Parser.HEADER_PATH_SEPARATOR
                   = Some (p :: parts)).
  { unfold Parser.split, Parser.HEADER_PATH_SEPARATOR at 1.
    unfold text. rewrite (split_from_join _ Hgt) by discriminate.
    reflexivity. }
  split.
  - unfold Parser.parse_header_path. rewrite E1.
    destruct text as [|c t] eqn:Et; [congruence|]. cbn [is_empty orb].
    rewrite E2. cbv zeta. rewrite E3, Hsplit, (non_blank_fixed _ Htrim).
    reflexivity.
  - intros _. unfold Parser.parse_header_path.
    assert (Hlong : str_eqb (Parser.HEADER_PATH_SEPARATOR
                               ++ text ++ Parser.HEADER_PATH_SEPARATOR)
                            Parser.HEADER_PATH_SEPARATOR = false).
    { apply str_eqb_neq. intros E.
      apply (f_equal (@length _)) in E. rewrite !length_app in E.
      destruct text; [congruence|]. cbn in E. lia. }
    rewrite Hlong. cbn [is_empty app Parser.HEADER_PATH_SEPARATOR orb].
    change ([SPACE; GREATER; SPACE]) with Parser.HEADER_PATH_SEPARATOR.
    change (SPACE :: GREATER :: SPACE
              :: text ++ Parser.HEADER_PATH_SEPARATOR)
      with (Parser.HEADER_PATH_SEPARATOR
              ++ text ++ Parser.HEADER_PATH_SEPARATOR).
    rewrite starts_with_app. cbv zeta.
    change (skipn (length Parser.HEADER_PATH_SEPARATOR)
                  (Parser.HEADER_PATH_SEPARATOR
                     ++ text ++ Parser.HEADER_PATH_SEPARATOR))
      with (text ++ Parser.HEADER_PATH_SEPARATOR).
    assert (Hend : Parser.ends_with Parser.HEADER_PATH_SEPARATOR
                     (text ++ Parser.HEADER_PATH_SEPARATOR) = true).
    { unfold Parser.ends_with. rewrite rev_app_distr. apply starts_with_app. }
    rewrite Hend.
    assert (Hcut : slice_to (- len Parser.HEADER_PATH_SEPARATOR)
                     (text ++ Parser.HEADER_PATH_SEPARATOR) = text).
    { unfold slice_to, len. rewrite length_app. cbn [length Parser.HEADER_PATH_SEPARATOR].
      rewrite (proj2 (Z.leb_gt _ _)) by lia.
      replace (Z.to_nat (Z.of_nat (length text + 3) + - Z.of_nat 3))
        with (length text + 0)%nat by lia.
      rewrite firstn_app_2. cbn [firstn]. apply app_nil_r. }
    rewrite Hcut, Hsplit, (non_blank_fixed _ Htrim). reflexivity.
Qed.

Lemma parse_header_path_round_trip_witness :
  Parser.parse_header_path
    (Some (join Parser.HEADER_PATH_SEPARATOR [lit "Plans"; lit "HSA plan"]))
    Parser.HEADER_PATH_SEPARATOR = Some [lit "Plans"; lit "HSA plan"]
  /\
  ([lit "Plans"; lit "HSA plan"] <> [] ->
   Parser.parse_header_path
     (Some (Parser.HEADER_PATH_SEPARATOR
              ++ join Parser.HEADER_PATH_SEPARATOR [lit "Plans"; lit "HSA plan"]
              ++ Parser.HEADER_PATH_SEPARATOR))
     Parser.HEADER_PATH_SEPARATOR = Some [lit "Plans"; lit "HSA plan"]).
Proof.
  apply (parse_header_path_round_trip [lit "Plans"; lit "HSA plan"]).
  repeat constructor; try discriminate;
    cbn; intros H; repeat (destruct H as [H|H]; [discriminate|]); exact H.
Defined.

(* --------------------------------------------------------------------- *)
(** ** [extract_heading_level_title_and_body] *)

Lemma splitlines_from_nil (cur s : str) :
  Parser.splitlines_from cur s = [] -> cur = [] /\ s = [].
Proof.
  revert cur. induction s as [|c s IH]; intros cur.
  - cbn [Parser.splitlines_from]. destruct cur; [auto | discriminate].
  - cbn [Parser.splitlines_from].
    destruct (Parser.is_line_boundary c); [discriminate|].
    intros H. apply IH in H. destruct H as [H _].
    destruct cur; discriminate.
Qed.

(** The first line is a prefix of the text. *)
Lemma splitlines_from_first (cur s first : str) (rest : list str) :
  Parser.splitlines_from cur s = first :: rest ->
  exists tail, cur ++ s = first ++ tail.
Proof.
  revert cur. induction s as [|c s IH]; intros cur.
  - cbn [Parser.splitlines_from]. destruct cur as [|x cur]; [discriminate|].
    intros H. inversion H. exists []. reflexivity.
  - cbn [Parser.splitlines_from].
    destruct (Parser.is_line_boundary c).
    + intros H. inversion H. exists (c :: s). reflexivity.
    + intros H. apply IH in H. destruct H as (tail & E).
      exists tail. rewrite <- E, <- app_assoc. reflexivity.
Qed.

Lemma splitlines_from_line (line cur rest : str) :
  Forall (fun c => Parser.is_line_boundary c = false) line ->
  Parser.splitlines_from cur (line ++ NEWLINE :: rest)
  = (cur ++ line) :: Parser.splitlines_from [] rest.
Proof.
  intros H. revert cur. induction H as [|c line Hc _ IH]; intros cur.
  - rewrite app_nil_r. destruct rest; reflexivity.
  - cbn [app Parser.splitlines_from]. rewrite Hc, IH, <- app_assoc.
    reflexivity.
Qed.

Lemma splitlines_from_last_line (line cur : str) :
  Forall (fun c => Parser.is_line_boundary c = false) line ->
  Parser.splitlines_from cur line
  = match cur ++ line with
    | [] => []
    | _ :: _ => [cur ++ line]
    end.
Proof.
  intros H. revert cur. induction H as [|c line Hc _ IH]; intros cur.
  - rewrite app_nil_r. destruct cur; reflexivity.
  - cbn [Parser.splitlines_from]. rewrite Hc, IH, <- app_assoc.
    reflexivity.
Qed.

Lemma leading_hashes_prefix (s : str) :
  s = repeat HASH (Parser.leading_hashes s)
        ++ skipn (Parser.leading_hashes s) s.
Proof.
  induction s as [|c s IH]; [reflexivity|].
  cbn [Parser.leading_hashes]. destruct (char_eqb c HASH) eqn:E.
  - apply char_eqb_eq in E. subst c. cbn [repeat skipn app].
    f_equal. exact IH.
  - reflexivity.
Qed.

Lemma leading_hashes_repeat (k : nat) (c : char) (r : str) :
  char_eqb c HASH = false ->
  Parser.leading_hashes (repeat HASH k ++ c :: r) = k.
Proof.
  intros Hc. induction k as [|k IH].
  - cbn [repeat app Parser.leading_hashes]. rewrite Hc. reflexivity.
  - cbn [repeat app Parser.leading_hashes].
    change (char_eqb HASH HASH) with true. cbv iota. rewrite IH. reflexivity.
Qed.

Lemma skipn_repeat_app (k : nat) (l : str) :
  skipn k (repeat HASH k ++ l) = l.
Proof. induction k as [|k IH]; [reflexivity | exact IH]. Qed.

Lemma match_header_some (line title : str) (n : nat) :
  Parser.match_header line = Some (n, title) ->
  (1 <= n)%nat /\
  exists c r,
    line = repeat HASH n ++ c :: r /\ is_space c = true /\ title = lstrip r.
Proof.
  unfold Parser.match_header. cbv zeta.
  pose proof (leading_hashes_prefix line) as E.
  destruct (Parser.leading_hashes line) as [|k]; [discriminate|].
  destruct (skipn (S k) line) as [|c r]; [discriminate|].
  destruct (is_space c) eqn:Hc; [|discriminate].
  intros H. inversion H; subst n title.
  split; [lia|]. exists c, r. auto.
Qed.

Lemma match_header_heading (k : nat) (title : str) :
  (1 <= k)%nat ->
  Parser.match_header (repeat HASH k ++ SPACE :: title)
  = Some (k, lstrip title).
Proof.
  intros Hk. unfold Parser.match_header. cbv zeta.
  rewrite leading_hashes_repeat by reflexivity.
  destruct k as [|k]; [lia|].
  rewrite (skipn_repeat_app (S k)). reflexivity.
Qed.

Lemma lstrip_trimmed (s : str) : is_trimmed s = true -> lstrip s = s.
Proof.
  destruct s as [|c s]; [reflexivity|]. unfold is_trimmed. intros H.
  apply andb_true_iff in H. destruct H as [H _].
  apply negb_true_iff in H. apply lstrip_fixed. exact H.
Qed.

(** X14.  Whatever the text of a block: the heading title and the body
    returned are trimmed; a heading level, when there is one, is at least
    1, and the text then begins with that many '#' and a whitespace
    character; without a level the block is titled "(empty)" with an
    empty body, exactly when the text is empty, or "(preamble)" with the
    trimmed text as its body. *)
Theorem extract_heading_classifies (full_text : str) :
  let info := Parser.extract_heading_level_title_and_body full_text in
  is_trimmed (info_heading_title info) = true /\
  is_trimmed (info_body info) = true /\
  match info_heading_level info with
  | Some k =>
      1 <= k /\
      exists c tail,
        full_text = repeat HASH (Z.to_nat k) ++ c :: tail /\
        is_space c = true
  | None =>
      (full_text = [] /\
       info_heading_title info = lit "(empty)" /\ info_body info = [])
      \/
      (full_text <> [] /\
       info_heading_title info = lit "(preamble)" /\
       info_body info = strip full_text)
  end.
Proof.
  unfold Parser.extract_heading_level_title_and_body, Parser.splitlines.
  destruct (Parser.splitlines_from [] full_text) as [|first rest] eqn:El.
  - apply splitlines_from_nil in El. destruct El as [_ ->].
    cbn [info_heading_title info_body info_heading_level].
    split; [reflexivity|]. split; [reflexivity|]. left. auto.
  - assert (Hne : full_text <> []) by (intros ->; discriminate).
    destruct (Parser.match_header first) as [[n title]|] eqn:Em.
    + cbn [info_heading_title info_body info_heading_level].
      split; [apply strip_is_trimmed|]. split; [apply strip_is_trimmed|].
      apply match_header_some in Em.
      destruct Em as (Hn & c & r & -> & Hc & _).
      split; [lia|]. rewrite Nat2Z.id.
      apply splitlines_from_first in El. destruct El as (tail & E).
      cbn [app] in E. exists c, (r ++ tail). split; [|exact Hc].
      rewrite E, <- app_assoc. reflexivity.
    + cbn [info_heading_title info_body info_heading_level].
      split; [reflexivity|]. split; [apply strip_is_trimmed|].
      right. auto.
Qed.

(** X15.  A block that is a heading line (k >= 1 '#', one space, a
    trimmed title holding no line break) gives back the level k and the
    title, with an empty body; followed by a newline and further text, it
    gives the same level and title, and as body the lines of that text
    joined by newlines and trimmed. *)
Theorem extract_heading_round_trip (k : nat) (title rest : str) :
  (1 <= k)%nat ->
  is_trimmed title = true ->
  Forall (fun c => Parser.is_line_boundary c = false) title ->
  Parser.extract_heading_level_title_and_body
    (repeat HASH k ++ SPACE :: title)
  = {| info_heading_level := Some (Z.of_nat k);
       info_heading_title := title;
       info_body := [] |}
  /\
  Parser.extract_heading_level_title_and_body
    (repeat HASH k ++ SPACE :: title ++ NEWLINE :: rest)
  = {| info_heading_level := Some (Z.of_nat k);
       info_heading_title := title;
       info_body := strip (join [NEWLINE] (Parser.splitlines rest)) |}.
Proof.
  intros Hk Ht Hb.
  assert (Hline : Forall (fun c => Parser.is_line_boundary c = false)
                    (repeat HASH k ++ SPACE :: title)).
  { apply Forall_app. split.
    - apply Forall_forall. intros c Hc. apply repeat_spec in Hc.
      subst c. reflexivity.
    - constructor; [reflexivity | exact Hb]. }
  assert (Hm : Parser.match_header (repeat HASH k ++ SPACE :: title)
               = Some (k, title)).
  { rewrite (match_header_heading k title Hk), (lstrip_trimmed title Ht).
    reflexivity. }
  split.
  - unfold Parser.extract_heading_level_title_and_body, Parser.splitlines.
    rewrite (splitlines_from_last_line _ [] Hline). cbn [app].
    destruct k as [|k]; [lia|]. cbn [repeat app].
    change (HASH :: repeat HASH k ++ SPACE :: title)
      with (repeat HASH (S k) ++ SPACE :: title).
    rewrite Hm, (strip_fixed title Ht). reflexivity.
  - unfold Parser.extract_heading_level_title_and_body, Parser.splitlines.
    replace (repeat HASH k ++ SPACE :: title ++ NEWLINE :: rest)
      with ((repeat HASH k ++ SPACE :: title) ++ NEWLINE :: rest)
      by (rewrite <- app_assoc; reflexivity).
    rewrite (splitlines_from_line _ [] rest Hline). cbn [app].
    rewrite Hm, (strip_fixed title Ht). reflexivity.
Qed.

Lemma extract_heading_round_trip_witness :
  Parser.extract_heading_level_title_and_body
    (repeat HASH 2 ++ SPACE :: lit "HSA plan")
  = {| info_heading_level := Some (Z.of_nat 2);
       info_heading_title := lit "HSA plan";
       info_body := [] |}
  /\
  Parser.extract_heading_level_title_and_body
    (repeat HASH 2 ++ SPACE :: lit "HSA plan" ++ NEWLINE :: lit " Save more. ")
  = {| info_heading_level := Some (Z.of_nat 2);
       info_heading_title := lit "HSA plan";
       info_body :=
         strip (join [NEWLINE] (Parser.splitlines (lit " Save more. "))) |}.
Proof.
  apply (extract_heading_round_trip 2 (lit "HSA plan") (lit " Save more. "));
    [lia | reflexivity | repeat constructor].
Defined.

(* --------------------------------------------------------------------- *)
(** ** [collapse_root_unary_nodes]: what is left alone, what is adopted *)

Section TreeNormalizerUntouched.

Variable lower_other : str -> nat -> str.
Variable list_of_union : list value -> list value -> list value.

Local Abbreviation collapse :=
  (collapse_root_unary_nodes lower_other list_of_union).

(** X16.  Whatever the value (no schema is assumed): below the root
    level the call returns its argument as it is; at the root level it
    does so too when the root is not a dict with exactly one child (no
    "children", not a list, an empty list, two children or more), and
    when the sole child is not a dict. *)
Theorem collapse_root_unary_nodes_leaves_alone (node : value) :
  collapse node false = Ok node /\
  (children_count node <> 1%nat -> collapse node true = Ok node) /\
  (forall d c,
     node = VDict d ->
     dict_get k_children d = Some (VList [c]) ->
     (forall child, c <> VDict child) ->
     collapse node true = Ok node).
Proof.
  split; [|split].
  - destruct node; try reflexivity.
    unfold collapse_root_unary_nodes. rewrite collapse_below_id. reflexivity.
  - intros Hc. destruct node as [| | | | |d]; try reflexivity.
    unfold collapse_root_unary_nodes.
    rewrite (root_loop_stops lower_other list_of_union _ _ Hc).
    cbn [bind fst]. rewrite collapse_below_id. reflexivity.
  - intros d c -> Hg Hnot. unfold collapse_root_unary_nodes.
    change max_iterations with (S 9). cbn [root_loop]. rewrite Hg.
    destruct c as [| | | | |child];
      try (cbn [bind fst]; rewrite collapse_below_id; reflexivity).
    exfalso. apply (Hnot child). reflexivity.
Qed.

End TreeNormalizerUntouched.

Lemma merged_chain_children (n : nat) (a b : dict) :
  list_field k_children a = list_field k_children b ->
  merged_chain n a = merged_chain n b.
Proof. intros H. destruct n; cbn [merged_chain]; [|rewrite H]; reflexivity. Qed.

Lemma last_cons_default {A : Type} (l : list A) (c d : A) :
  last (c :: l) d = last l c.
Proof.
  revert c d. induction l as [|x l IH]; intros c d; [reflexivity|].
  change (last (c :: x :: l) d) with (last (x :: l) d).
  rewrite (IH x d), (IH x c). reflexivity.
Qed.

Lemma last_default_children (l : list dict) (a b : dict) :
  list_field k_children a = list_field k_children b ->
  list_field k_children (last l a) = list_field k_children (last l b).
Proof.
  intros H. destruct l as [|x l]; [exact H|].
  rewrite !last_cons_default. reflexivity.
Qed.

Section TreeNormalizerAdoption.

Variable lower_other : str -> nat -> str.
Variable list_of_union : list value -> list value -> list value.

Hypothesis list_of_union_spec :
  forall a b,
    forallb is_str a = true -> forallb is_str b = true ->
    NoDup (list_of_union a b) /\
    forall x, In x (list_of_union a b) <-> In x a \/ In x b.

Local Abbreviation loop := (root_loop lower_other list_of_union).
Local Abbreviation collapse :=
  (collapse_root_unary_nodes lower_other list_of_union).

(** The keywords after one merge. *)
Lemma promoted_keywords_union (node child : dict) :
  forallb concept_entry node = true ->
  forallb concept_entry child = true ->
  (forall x,
     In x (list_field k_keywords (promoted lower_other list_of_union node child))
     <-> In x (list_field k_keywords node)
         \/ In x (list_field k_keywords child)) /\
  NoDup (list_field k_keywords (promoted lower_other list_of_union node child)).
Proof.
  intros Hn Hc.
  destruct (concept_keywords node Hn) as [_ Hpk].
  destruct (concept_keywords child Hc) as [_ Hck].
  destruct (list_of_union_spec _ _ Hpk Hck) as [Hnd Hin].
  unfold list_field at 1 4.
  rewrite (promoted_keywords lower_other list_of_union node child).
  destruct (negb (is_empty (list_field k_keywords node))
            || negb (is_empty (list_field k_keywords child))) eqn:E.
  - split; [exact Hin | exact Hnd].
  - apply orb_false_iff in E. destruct E as [E1 E2].
    apply negb_false_iff in E1, E2.
    fold (list_field k_keywords node).
    destruct (list_field k_keywords node); [|discriminate].
    destruct (list_field k_keywords child); [|discriminate].
    split; [cbn; tauto | constructor].
Qed.

(** The loop on a concept tree, in terms of the chain of sole children
    it merges. *)
Lemma root_loop_merges (n : nat) (d : dict) :
  forallb concept_entry d = true ->
  exists r,
    loop n d = Ok (r, length (merged_chain n d)) /\
    forallb concept_entry r = true /\
    list_field k_children r
    = list_field k_children (last (merged_chain n d) d) /\
    (merged_chain n d = [] -> r = d) /\
    (forall x,
       In x (list_field k_keywords r)
       <-> In x (list_field k_keywords d)
           \/ exists c, In c (merged_chain n d)
                        /\ In x (list_field k_keywords c)) /\
    (merged_chain n d <> [] -> NoDup (list_field k_keywords r)).
Proof.
  revert d. induction n as [|n IH]; intros d Hd.
  - exists d. cbn [root_loop merged_chain length last].
    split; [reflexivity|]. split; [exact Hd|]. split; [reflexivity|].
    split; [reflexivity|]. split; [|congruence].
    intros x. split; [auto | intros [H|(c & [] & _)]; exact H].
  - assert (Hstop :
      loop (S n) d = Ok (d, O) -> merged_chain (S n) d = [] ->
      exists r,
        loop (S n) d = Ok (r, length (merged_chain (S n) d)) /\
        forallb concept_entry r = true /\
        list_field k_children r
        = list_field k_children (last (merged_chain (S n) d) d) /\
        (merged_chain (S n) d = [] -> r = d) /\
        (forall x,
           In x (list_field k_keywords r)
           <-> In x (list_field k_keywords d)
               \/ exists c, In c (merged_chain (S n) d)
                            /\ In x (list_field k_keywords c)) /\
        (merged_chain (S n) d <> [] -> NoDup (list_field k_keywords r))).
    { intros Hl Hm. exists d. rewrite Hm, Hl.
      split; [reflexivity|]. split; [exact Hd|]. split; [reflexivity|].
      split; [reflexivity|]. split; [|congruence].
      intros x. split; [auto | intros [H|(c & [] & _)]; exact H]. }
    destruct (concept_children d Hd) as [_ Hcs].
    destruct (dict_get k_children d) as [x|] eqn:Hg.
    2:{ apply Hstop.
        - cbn [root_loop]. rewrite Hg. reflexivity.
        - cbn [merged_chain]. unfold list_field. rewrite Hg. reflexivity. }
    destruct x as [| b | z | s | cs | d0];
      try (apply Hstop;
           [cbn [root_loop]; rewrite Hg; reflexivity
           |cbn [merged_chain]; unfold list_field; rewrite Hg; reflexivity]).
    assert (Hlf : list_field k_children d = cs)
      by (unfold list_field; rewrite Hg; reflexivity).
    rewrite Hlf in Hcs.
    destruct cs as [|c [|c' cs']].
    + apply Hstop.
      * cbn [root_loop]. rewrite Hg. reflexivity.
      * cbn [merged_chain]. rewrite Hlf. reflexivity.
    + cbn [forallb] in Hcs. apply andb_true_iff in Hcs.
      destruct Hcs as [Hc _].
      destruct c as [| | | | |child]; try discriminate.
      rewrite is_concept_node_dict in Hc.
      set (node' := promoted lower_other list_of_union d child).
      assert (Hn' : forallb concept_entry node' = true)
        by (apply promoted_concept; assumption).
      assert (Hch : list_field k_children node' = list_field k_children child).
      { unfold list_field at 1. unfold node'.
        rewrite promoted_children. reflexivity. }
      destruct (IH node' Hn') as (r & Hl & Hr & Hrc & Hsame & Hkw & Hnd).
      rewrite (merged_chain_children n node' child Hch) in Hl, Hrc, Hsame, Hkw, Hnd.
      destruct (promoted_keywords_union d child Hd Hc) as [Hin1 Hnd1].
      fold node' in Hin1, Hnd1.
      assert (Hm : merged_chain (S n) d = child :: merged_chain n child)
        by (cbn [merged_chain]; rewrite Hlf; reflexivity).
      exists r. rewrite Hm.
      split.
      { cbn [root_loop]. rewrite Hg.
        rewrite (promote_child_concept lower_other list_of_union _ _ Hd Hc).
        cbn [bind]. fold node'. rewrite Hl. reflexivity. }
      split; [exact Hr|].
      split.
      { rewrite last_cons_default, Hrc.
        apply last_default_children. exact Hch. }
      split; [discriminate|].
      split.
      { intros x. rewrite Hkw, Hin1. cbn [In]. split.
        - intros [[H|H]|(c & Hc1 & Hc2)]; eauto.
        - intros [H|(c & [<-|Hc1] & Hc2)]; eauto. }
      intros _. destruct (merged_chain n child) as [|c2 l] eqn:El.
      * rewrite (Hsame eq_refl). exact Hnd1.
      * apply Hnd. discriminate.
    + apply Hstop.
      * cbn [root_loop]. rewrite Hg. destruct c; reflexivity.
      * cbn [merged_chain]. rewrite Hlf. destruct c; reflexivity.
Qed.

(** X17.  On a concept tree the call at root level returns a concept
    tree again; it makes as many turns as there are sole children in line
    below the root (ten at most), and the children of the returned root
    are the children of the last of them, as they were: nothing below
    the merged chain is dropped or changed.  With no sole child below the
    root the tree is returned as it is. *)
Theorem collapse_root_unary_nodes_adopts (d : dict) :
  is_concept_node (VDict d) = true ->
  exists r,
    collapse (VDict d) true = Ok (VDict r) /\
    collapse_iterations lower_other list_of_union d
    = Ok (r, length (merged_chain max_iterations d)) /\
    is_concept_node (VDict r) = true /\
    list_field k_children r
    = list_field k_children (last (merged_chain max_iterations d) d) /\
    (merged_chain max_iterations d = [] -> r = d).
Proof.
  intros Hd. rewrite is_concept_node_dict in Hd.
  destruct (root_loop_merges max_iterations d Hd)
    as (r & Hl & Hr & Hrc & Hsame & _ & _).
  exists r. unfold collapse_root_unary_nodes, collapse_iterations.
  rewrite Hl. cbn [bind fst]. rewrite collapse_below_id.
  rewrite is_concept_node_dict. auto.
Qed.

(** X18.  On a concept tree the keywords of the returned root are those
    of the root and of the merged sole children, none lost and none
    added; once a child has been merged they hold no duplicate. *)
Theorem collapse_root_unary_nodes_keywords (d r : dict) :
  is_concept_node (VDict d) = true ->
  collapse (VDict d) true = Ok (VDict r) ->
  (forall x,
     In x (list_field k_keywords r)
     <-> In x (list_field k_keywords d)
         \/ exists c, In c (merged_chain max_iterations d)
                      /\ In x (list_field k_keywords c)) /\
  (merged_chain max_iterations d <> [] -> NoDup (list_field k_keywords r)).
Proof.
  intros Hd. rewrite is_concept_node_dict in Hd.
  destruct (root_loop_merges max_iterations d Hd)
    as (r' & Hl & _ & _ & _ & Hkw & Hnd).
  unfold collapse_root_unary_nodes. rewrite Hl. cbn [bind fst].
  rewrite collapse_below_id. intros H. inversion H; subst r'.
  split; assumption.
Qed.

End TreeNormalizerAdoption.

Lemma collapse_root_unary_nodes_adopts_witness :
  exists r,
    collapse_root_unary_nodes keep_other union_in_order
      (VDict (scenario_ROOT sample_C)) true = Ok (VDict r) /\
    collapse_iterations keep_other union_in_order (scenario_ROOT sample_C)
    = Ok (r, length (merged_chain max_iterations (scenario_ROOT sample_C))) /\
    is_concept_node (VDict r) = true /\
    list_field k_children r
    = list_field k_children
        (last (merged_chain max_iterations (scenario_ROOT sample_C))
              (scenario_ROOT sample_C)) /\
    (merged_chain max_iterations (scenario_ROOT sample_C) = [] ->
     r = scenario_ROOT sample_C).
Proof.
  apply (collapse_root_unary_nodes_adopts keep_other union_in_order
           union_in_order_spec (scenario_ROOT sample_C)).
  reflexivity.
Defined.

Lemma collapse_root_unary_nodes_keywords_witness :
  (forall x,
     In x (list_field k_keywords
             [(k_title, VStr (lit "Plans"));
              (k_children, VList [leaf "X"; leaf "Y"; leaf "Z"]);
              (k_description, VStr (lit "All plans"));
              (k_question, VStr (lit "Which plans?"));
              (k_keywords, VList [VStr (lit "hsa"); VStr (lit "ppo")])])
     <-> In x (list_field k_keywords (scenario_ROOT sample_C))
         \/ exists c,
              In c (merged_chain max_iterations (scenario_ROOT sample_C))
              /\ In x (list_field k_keywords c)) /\
  (merged_chain max_iterations (scenario_ROOT sample_C) <> [] ->
   NoDup (list_field k_keywords
            [(k_title, VStr (lit "Plans"));
             (k_children, VList [leaf "X"; leaf "Y"; leaf "Z"]);
             (k_description, VStr (lit "All plans"));
             (k_question, VStr (lit "Which plans?"));
             (k_keywords, VList [VStr (lit "hsa"); VStr (lit "ppo")])])).
Proof.
  apply (collapse_root_unary_nodes_keywords keep_other union_in_order
           union_in_order_spec (scenario_ROOT sample_C));
    reflexivity.
Defined.

(* --------------------------------------------------------------------- *)
(** ** [is_token_error]: what decides the retry *)

Lemma starts_with_prefix (n h : str) :
  starts_with n h = true <-> exists post, h = n ++ post.
Proof.
  revert h. induction n as [|c n IH]; intros h.
  - cbn [starts_with app]. split; [eauto | reflexivity].
  - destruct h as [|x h]; cbn [starts_with].
    + split; [discriminate | intros (post & H); discriminate].
    + rewrite andb_true_iff, char_eqb_eq, IH. split.
      * intros [-> (post & ->)]. exists post. reflexivity.
      * intros (post & H). inversion H. eauto.
Qed.

Lemma contains_infix (n h : str) :
  contains n h = true <-> exists pre post, h = pre ++ n ++ post.
Proof.
  induction h as [|x h IH].
  - cbn [contains]. rewrite orb_false_r, starts_with_prefix. split.
    + intros (post & H). exists [], post. exact H.
    + intros (pre & post & H). symmetry in H.
      apply app_eq_nil in H. destruct H as [-> H]. eauto.
  - cbn [contains]. rewrite orb_true_iff, starts_with_prefix, IH. split.
    + intros [(post & H)|(pre & post & H)].
      * exists [], post. exact H.
      * exists (x :: pre), post. rewrite H. reflexivity.
    + intros (pre & post & H). destruct pre as [|y pre].
      * left. exists post. exact H.
      * right. inversion H. eauto.
Qed.

Lemma contains_trans (a b h : str) :
  contains a b = true -> contains b h = true -> contains a h = true.
Proof.
  rewrite !contains_infix.
  intros (p1 & q1 & ->) (p2 & q2 & ->).
  exists (p2 ++ p1), (q1 ++ q2). rewrite <- !app_assoc. reflexivity.
Qed.

Section SingleShotRetryDecision.

Variable lower_other : str -> nat -> str.

(** X19.  Whether a failed call is retried depends on the message of the
    exception alone, never on its type: [is_token_error] holds exactly
    when the message, in lower case, contains "token", "context",
    "length", "request too large" or "tpm"; so two exceptions with the
    same message are treated alike. *)
Theorem is_token_error_message_only (e : exception) :
  is_token_error lower_other e
  = existsb (fun mark => contains mark (lower lower_other (message e)))
      [lit "token"; lit "context"; lit "length"; lit "request too large";
       lit "tpm"]
  /\
  forall e',
    message e' = message e ->
    is_token_error lower_other e' = is_token_error lower_other e.
Proof.
  assert (Hmsg : forall x,
    is_token_error lower_other x
    = existsb (fun mark => contains mark (lower lower_other (message x)))
        [lit "token"; lit "context"; lit "length"; lit "request too large";
         lit "tpm"]).
  { intros x. unfold is_token_error. cbv zeta. cbn [existsb].
    set (msg := lower lower_other (message x)).
    pose proof (contains_trans (lit "context") (lit "maximum context") msg
                  eq_refl) as H1.
    pose proof (contains_trans (lit "token") (lit "tokens per min") msg
                  eq_refl) as H2.
    destruct (contains (lit "token") msg); [reflexivity|].
    destruct (contains (lit "context") msg); [reflexivity|].
    destruct (contains (lit "length") msg); [reflexivity|].
    destruct (contains (lit "maximum context") msg);
      [specialize (H1 eq_refl); discriminate|].
    destruct (contains (lit "tokens per min") msg);
      [specialize (H2 eq_refl); discriminate|].
    destruct (contains (lit "request too large") msg); [reflexivity|].
    destruct (contains (lit "tpm") msg); [reflexivity|].
    cbn [orb]. rewrite andb_false_r. reflexivity. }
  split; [apply Hmsg|].
  intros e' He. rewrite !Hmsg, He. reflexivity.
Qed.

End SingleShotRetryDecision.

(* --------------------------------------------------------------------- *)
(** ** [transform_large_tree_chunked] *)

Lemma chunk_model_parity (k : nat) :
  chunk_model (S k) = if Nat.even k then lit "gpt-4.1" else lit "gpt-5.1".
Proof.
  unfold chunk_model. destruct (Nat.even k) eqn:E.
  - apply Nat.even_spec in E. destruct E as [m ->].
    replace (S (2 * m)) with (1 + m * 2)%nat by lia.
    rewrite Nat.Div0.mod_add. reflexivity.
  - assert (O : Nat.odd k = true) by (rewrite <- Nat.negb_even, E; reflexivity).
    apply Nat.odd_spec in O. destruct O as [m ->].
    replace (S (2 * m + 1)) with (0 + (m + 1) * 2)%nat by lia.
    rewrite Nat.Div0.mod_add. reflexivity.
Qed.

Section ChunkedTransformerFacts.

Variable count_tokens_in_json : value -> nat.
Variables World Schema : Type.
Variable chat :
  str -> Schema -> list ChatMessage -> World -> outcome dict * World.
Variable write_json : str -> option dict -> World -> outcome unit * World.
Variable system_prompt : str.
Variable first_user_message : nat -> nat -> value -> str.
Variable continuation_user_message :
  nat -> nat -> option dict -> value -> str.
Variable pydantic_schema : Schema.
Variable output_file : str.

Local Abbreviation process :=
  (process_chunks chat write_json system_prompt first_user_message
     continuation_user_message pydantic_schema output_file).
Local Abbreviation transform :=
  (transform_large_tree_chunked count_tokens_in_json chat write_json
     system_prompt first_user_message continuation_user_message).
Local Abbreviation messages_of :=
  (chunk_messages system_prompt first_user_message continuation_user_message).
Local Abbreviation state := (chunked_state World Schema).

(** The call of the turn [chunk_num]. *)
Local Abbreviation call_of chunk_num total_chunks previous_response chunk :=
  {| call_model := chunk_model chunk_num;
     call_schema := pydantic_schema;
     call_messages :=
       messages_of chunk_num total_chunks previous_response chunk |}.

(** One turn of the loop. *)
Lemma process_chunks_cons (total i : nat) (chunk : value) (rest : list value)
    (prev : option dict) (st : state) :
  process total i (chunk :: rest) prev st
  = match chat (chunk_model i) pydantic_schema
                (messages_of i total prev chunk) (world_of st) with
    | (Raises e, w) =>
        (Throw (External e),
         ((w, calls_of st ++ [call_of i total prev chunk]), writes_of st))
    | (Returns d, w) =>
        match write_json (intermediate_file output_file i) (Some d) w with
        | (Raises e, w2) =>
            (Throw (External e),
             ((w2, calls_of st ++ [call_of i total prev chunk]),
              writes_of st ++ [(intermediate_file output_file i, Some d)]))
        | (Returns _, w2) =>
            process total (S i) rest (Some d)
              ((w2, calls_of st ++ [call_of i total prev chunk]),
               writes_of st ++ [(intermediate_file output_file i, Some d)])
        end
    end.
Proof.
  cbn [process_chunks]. unfold chat_chunk, sllm_chat, dump_json.
  destruct st as [[w calls] writes].
  cbn [fst snd world_of calls_of writes_of].
  destruct (chat _ _ _ w) as [[d|e] w1]; [|reflexivity].
  cbn [fst snd world_of calls_of writes_of].
  destruct (write_json _ _ w1) as [[u|e] w2]; reflexivity.
Qed.

(** The loop over a list put together from two: the second part is
    processed from where the first part ended, if it ended well. *)
Lemma process_chunks_app (total : nat) (a b : list value) :
  forall (i : nat) (prev : option dict) (st : state),
    process total i (a ++ b) prev st
    = match process total i a prev st with
      | (Return prev', st') => process total (i + length a) b prev' st'
      | (Throw t, st') => (Throw t, st')
      end.
Proof.
  induction a as [|chunk a IH]; intros i prev st.
  - cbn [app process_chunks length]. rewrite Nat.add_0_r. reflexivity.
  - cbn [app length]. rewrite !process_chunks_cons.
    destruct (chat _ _ _ _) as [[d|e] w1]; [|reflexivity].
    destruct (write_json _ _ w1) as [[u|e] w2]; [|reflexivity].
    rewrite IH, Nat.add_succ_r. reflexivity.
Qed.

Lemma dump_json_logs (file : str) (data : option dict) (st st2 : state)
    (written : outcome unit) :
  dump_json write_json file data st = (written, st2) ->
  written = fst (write_json file data (world_of st)) /\
  calls_of st2 = calls_of st /\
  writes_of st2 = writes_of st ++ [(file, data)].
Proof.
  unfold dump_json. destruct (write_json _ _ _) as [x w2].
  intros H. inversion H; subst. auto.
Qed.

(** What a run of the loop leaves behind, whatever the collaborators
    do. *)
Lemma process_chunks_trace (total : nat) (chunks : list value) :
  forall (i : nat) (prev : option dict) (st st' : state)
         (r : completion (option dict)),
    process total i chunks prev st = (r, st') ->
    exists cs ws,
      calls_of st' = calls_of st ++ cs /\
      writes_of st' = writes_of st ++ ws /\
      (length ws <= length cs)%nat /\
      (length cs <= length chunks)%nat /\
      (forall k c,
         nth_error cs k = Some c ->
         c = call_of (i + k)%nat total
               (nth k (prev :: map snd ws) None) (nth k chunks VNone)) /\
      map fst ws
      = map (intermediate_file output_file) (seq i (length ws)) /\
      Forall (fun w => snd w <> None) ws /\
      match r with
      | Return v =>
          length cs = length chunks /\ length ws = length chunks /\
          v = last (map snd ws) prev
      | Throw t =>
          (exists e, t = External e) /\
          (1 <= length cs)%nat /\ (length cs <= S (length ws))%nat
      end.
Proof.
  induction chunks as [|chunk rest IH]; intros i prev st st' r.
  - cbn [process_chunks]. intros H. inversion H; subst.
    exists [], []. rewrite !app_nil_r. cbn [length map last seq].
    split; [reflexivity|]. split; [reflexivity|]. split; [lia|].
    split; [lia|].
    split; [intros [|k] c Hc; discriminate|].
    split; [reflexivity|]. split; [constructor|]. auto.
  - rewrite process_chunks_cons.
    assert (Hfirst : forall ws' k c,
              nth_error [call_of i total prev chunk] k = Some c ->
              c = call_of (i + k)%nat total
                    (nth k (prev :: ws') None) (nth k (chunk :: rest) VNone)).
    { intros ws' [|[|k]] c Hc; try discriminate.
      inversion Hc. rewrite Nat.add_0_r. reflexivity. }
    destruct (chat _ _ _ _) as [[d|e] w1].
    + destruct (write_json _ _ w1) as [[u|e] w2].
      * intros H. apply IH in H.
        destruct H as (cs & ws & Hc & Hw & Hl1 & Hl2 & Hcalls & Hfiles & Hsome & Hr).
        cbn [calls_of writes_of fst snd] in Hc, Hw.
        exists (call_of i total prev chunk :: cs),
               ((intermediate_file output_file i, Some d) :: ws).
        split; [rewrite Hc, <- app_assoc; reflexivity|].
        split; [rewrite Hw, <- app_assoc; reflexivity|].
        cbn [length]. split; [lia|]. split; [lia|].
        split.
        { intros [|k] c Hk.
          - apply (Hfirst (map snd ((intermediate_file output_file i, Some d) :: ws)) O c).
            exact Hk.
          - cbn [nth_error] in Hk. apply Hcalls in Hk.
            rewrite Nat.add_succ_r. exact Hk. }
        split; [cbn [map fst seq]; rewrite Hfiles; reflexivity|].
        split; [constructor; [discriminate | exact Hsome]|].
        destruct r as [v|t].
        -- destruct Hr as (H1 & H2 & H3).
           split; [lia|]. split; [lia|].
           cbn [map snd]. rewrite last_cons_default. exact H3.
        -- destruct Hr as (H1 & H2 & H3). split; [exact H1|]. lia.
      * intros H. inversion H; subst.
        exists [call_of i total prev chunk],
               [(intermediate_file output_file i, Some d)].
        cbn [calls_of writes_of fst snd length].
        split; [reflexivity|]. split; [reflexivity|].
        split; [lia|]. split; [lia|].
        split; [apply Hfirst|].
        split; [reflexivity|].
        split; [constructor; [discriminate | constructor]|].
        split; [eauto | lia].
    + intros H. inversion H; subst.
      exists [call_of i total prev chunk], [].
      cbn [calls_of writes_of fst snd length]. rewrite app_nil_r.
      split; [reflexivity|]. split; [reflexivity|].
      split; [lia|]. split; [lia|].
      split; [apply (Hfirst [])|].
      split; [reflexivity|]. split; [constructor|].
      split; [eauto | lia].
Qed.

Lemma split_tree_into_chunks_length (tree : dict)
    (children chunks : list value) :
  py_iter (dict_get_default k_children (VList []) tree) = Ok children ->
  split_tree_into_chunks count_tokens_in_json (VDict tree) CHUNK_SIZE
  = Ok chunks ->
  (length chunks <= length children)%nat /\
  (children <> [] -> chunks <> []).
Proof.
  intros Hi Hs.
  destruct (split_tree_into_chunks_groups count_tokens_in_json tree
              CHUNK_SIZE children Hi) as (chunks' & Hs' & Hg).
  rewrite Hs in Hs'. inversion Hs'; subst chunks'.
  pose proof (groups_length count_tokens_in_json tree CHUNK_SIZE children []
                (base_tokens count_tokens_in_json tree)) as Hl.
  pose proof (groups_concat count_tokens_in_json tree CHUNK_SIZE children []
                (base_tokens count_tokens_in_json tree)) as Hcat.
  rewrite <- Hg in Hl, Hcat. rewrite length_map in Hl.
  cbn [is_empty app] in Hl, Hcat. split; [lia|].
  intros Hne ->. cbn in Hcat. congruence.
Qed.

(** X20.  Whatever the service and the file system do, a run of the
    chunked transformation makes at most one call per chunk, hence at
    most one per child of the root, and none twice: the k-th call goes to
    "gpt-4.1" when k is odd and to "gpt-5.1" when k is even, with the
    schema it was given and the messages of the k-th chunk (which
    carry, from the second on, the response to the call before, as
    written to the k-1-th intermediate file). *)
Theorem transform_large_tree_chunked_calls (tree : dict)
    (children chunks : list value) (st st' : state) (r : completion dict) :
  py_iter (dict_get_default k_children (VList []) tree) = Ok children ->
  split_tree_into_chunks count_tokens_in_json (VDict tree) CHUNK_SIZE
  = Ok chunks ->
  transform true (VDict tree) pydantic_schema output_file st = (r, st') ->
  exists cs ws,
    calls_of st' = calls_of st ++ cs /\
    writes_of st' = writes_of st ++ ws /\
    (length cs <= length chunks)%nat /\
    (length chunks <= length children)%nat /\
    forall k c,
      nth_error cs k = Some c ->
      c = {| call_model :=
               if Nat.even k then lit "gpt-4.1" else lit "gpt-5.1";
             call_schema := pydantic_schema;
             call_messages :=
               messages_of (S k) (length chunks)
                 (nth k (None :: map snd ws) None) (nth k chunks VNone) |}.
Proof.
  intros Hi Hs. unfold transform_large_tree_chunked. cbn [negb].
  destruct (split_tree_into_chunks_length tree children chunks Hi Hs)
    as [Hlen _].
  rewrite Hs.
  destruct (process (length chunks) 1%nat chunks None st) as [r1 st1] eqn:Ep.
  destruct (process_chunks_trace _ _ _ _ _ _ _ Ep)
    as (cs & ws & Hc & Hw & Hl1 & Hl2 & Hcalls & _ & _ & Hr).
  assert (Hshape : forall ws' : list (str * option dict),
            (exists tail, ws' = ws ++ tail) ->
            forall k c,
              nth_error cs k = Some c ->
              c = {| call_model :=
                       if Nat.even k then lit "gpt-4.1" else lit "gpt-5.1";
                     call_schema := pydantic_schema;
                     call_messages :=
                       messages_of (S k) (length chunks)
                         (nth k (None :: map snd ws') None)
                         (nth k chunks VNone) |}).
  { intros ws' (tail & ->) k c Hk.
    pose proof (Hcalls k c Hk) as E.
    change (1 + k)%nat with (S k) in E. rewrite chunk_model_parity in E.
    assert (Hk' : (k < length cs)%nat)
      by (apply nth_error_Some; congruence).
    assert (Hn : nth k (None :: map snd (ws ++ tail)) None
                 = nth k (None :: map snd ws) None).
    { destruct k as [|k]; [reflexivity|]. cbn [nth].
      rewrite map_app, app_nth1; [reflexivity|].
      rewrite length_map.
      destruct r1 as [v|t]; [lia|].
      destruct Hr as (_ & _ & Hr). lia. }
    rewrite Hn. exact E. }
  destruct r1 as [final_result|t].
  - destruct (dump_json write_json output_file final_result st1)
      as [written st2] eqn:Ed.
    destruct (dump_json_logs _ _ _ _ _ Ed) as (_ & Hc2 & Hw2).
    assert (Hall : forall r0 : completion dict,
              (r0, st2) = (r, st') ->
              exists cs0 ws0,
                calls_of st' = calls_of st ++ cs0 /\
                writes_of st' = writes_of st ++ ws0 /\
                (length cs0 <= length chunks)%nat /\
                (length chunks <= length children)%nat /\
                forall k c,
                  nth_error cs0 k = Some c ->
                  c = {| call_model :=
                           if Nat.even k then lit "gpt-4.1" else lit "gpt-5.1";
                         call_schema := pydantic_schema;
                         call_messages :=
                           messages_of (S k) (length chunks)
                             (nth k (None :: map snd ws0) None)
                             (nth k chunks VNone) |}).
    { intros r0 H. inversion H; subst.
      exists cs, (ws ++ [(output_file, final_result)]).
      split; [rewrite Hc2; exact Hc|].
      split; [rewrite Hw2, Hw, <- app_assoc; reflexivity|].
      split; [exact Hl2|]. split; [exact Hlen|].
      apply Hshape. eauto. }
    destruct written as [u|e]; [|apply Hall].
    destruct final_result as [d|]; [|apply Hall].
    destruct (py_len _); apply Hall.
  - intros H. inversion H; subst.
    exists cs, ws. split; [exact Hc|]. split; [exact Hw|].
    split; [exact Hl2|]. split; [exact Hlen|].
    apply Hshape. exists []. rewrite app_nil_r. reflexivity.
Qed.

(** A run of the loop that ends well: the replies of the service. *)
Lemma process_chunks_answered (total : nat) (chunks : list value) :
  forall (i : nat) (prev : option dict) (st st' : state)
         (v : option dict),
    process total i chunks prev st = (Return v, st') ->
    exists replies,
      length replies = length chunks /\
      answered chat write_json system_prompt first_user_message
        continuation_user_message pydantic_schema output_file
        total i chunks prev (world_of st) replies (world_of st') /\
      writes_of st'
      = writes_of st
        ++ combine (map (intermediate_file output_file)
                        (seq i (length chunks)))
                   (map Some replies) /\
      v = last (map Some replies) prev.
Proof.
  induction chunks as [|chunk rest IH]; intros i prev st st' v.
  - cbn [process_chunks]. intros H. inversion H; subst.
    exists []. cbn. rewrite app_nil_r. auto.
  - rewrite process_chunks_cons.
    destruct (chat _ _ _ _) as [[d|e] w1] eqn:Ec; [|discriminate].
    destruct (write_json _ _ w1) as [[u|e] w2] eqn:Ew; [|discriminate].
    intros H. apply IH in H. destruct H as (replies & Hl & Ha & Hw & Hv).
    cbn [world_of writes_of fst snd] in Ha, Hw.
    exists (d :: replies). cbn [length].
    split; [rewrite Hl; reflexivity|].
    split; [cbn [answered]; exists w1, w2, u; auto|].
    split.
    + rewrite Hw, <- app_assoc. reflexivity.
    + cbn [map]. rewrite last_cons_default. exact Hv.
Qed.

Lemma map_snd_combine {A B} (a : list A) (b : list B) :
  length a = length b -> map snd (combine a b) = b.
Proof.
  revert b. induction a as [|x a IH]; intros [|y b] H; try discriminate;
    [reflexivity|].
  cbn [combine map snd]. rewrite IH; [reflexivity|].
  cbn [length] in H. lia.
Qed.

Lemma map_fst_combine {A B} (a : list A) (b : list B) :
  length a = length b -> map fst (combine a b) = a.
Proof.
  revert b. induction a as [|x a IH]; intros [|y b] H; try discriminate;
    [reflexivity|].
  cbn [combine map fst]. rewrite IH; [reflexivity|].
  cbn [length] in H. lia.
Qed.

(** X21.  When the chunked transformation returns a document, the tree
    had at least one chunk and every chunk was sent, once and in order:
    the service answered the call for each chunk, made with the reply to
    the call before, and each reply was written to the intermediate file
    of its chunk; the document returned is the reply to the last call,
    and it is what was written last, to the output file. *)
Theorem transform_large_tree_chunked_returns (tree : dict)
    (chunks : list value) (st st' : state) (d : dict) :
  split_tree_into_chunks count_tokens_in_json (VDict tree) CHUNK_SIZE
  = Ok chunks ->
  transform true (VDict tree) pydantic_schema output_file st
  = (Return d, st') ->
  chunks <> [] /\
  exists (earlier : list dict) (w : World) (u : unit)
         (cs : list (call Schema (list ChatMessage)))
         (ws : list (str * option dict)),
    length (earlier ++ [d]) = length chunks /\
    answered chat write_json system_prompt first_user_message
      continuation_user_message pydantic_schema output_file
      (length chunks) 1 chunks None (world_of st) (earlier ++ [d]) w /\
    write_json output_file (Some d) w = (Returns u, world_of st') /\
    calls_of st' = calls_of st ++ cs /\
    length cs = length chunks /\
    (forall k c,
       nth_error cs k = Some c ->
       c = {| call_model := chunk_model (S k);
              call_schema := pydantic_schema;
              call_messages :=
                messages_of (S k) (length chunks)
                  (nth k (None :: map Some (earlier ++ [d])) None)
                  (nth k chunks VNone) |}) /\
    ws = combine (map (intermediate_file output_file)
                      (seq 1 (length chunks)))
                 (map Some (earlier ++ [d])) /\
    writes_of st' = writes_of st ++ ws ++ [(output_file, Some d)] /\
    map fst ws
    = map (intermediate_file output_file) (seq 1 (length chunks)) /\
    Forall (fun w => snd w <> None) ws /\
    last (map snd ws) None = Some d.
Proof.
  intros Hs. unfold transform_large_tree_chunked. cbn [negb]. rewrite Hs.
  destruct (process (length chunks) 1%nat chunks None st) as [r1 st1] eqn:Ep.
  destruct (process_chunks_trace _ _ _ _ _ _ _ Ep)
    as (cs & ws & Hc & Hw & Hl1 & Hl2 & Hcalls & Hfiles & Hsome & Hr).
  destruct r1 as [final_result|t]; [|discriminate].
  destruct (process_chunks_answered _ _ _ _ _ _ _ Ep)
    as (replies & Hlen & Hans & Hw' & Hv).
  rewrite Hw in Hw'. apply app_inv_head in Hw'.
  unfold dump_json.
  destruct (write_json output_file final_result (world_of st1))
    as [written w2] eqn:Ed.
  destruct written as [u|e]; [|discriminate].
  destruct final_result as [d'|]; [|discriminate].
  destruct (py_len _); [|discriminate].
  intros H. inversion H; subst d' st'. clear H.
  destruct Hr as (Hn1 & Hn2 & Hlast).
  assert (Hne : chunks <> []).
  { intros ->. cbn [length] in Hn2. destruct ws; [|discriminate].
    discriminate Hlast. }
  split; [exact Hne|].
  assert (Hrep : exists earlier, replies = earlier ++ [d]).
  { assert (Hrne : replies <> []).
    { intros ->. cbn [length] in Hlen. destruct chunks; [congruence|].
      discriminate. }
    destruct (exists_last Hrne) as (earlier & x & E).
    exists earlier. rewrite E in Hv. rewrite map_app in Hv.
    cbn [map] in Hv. rewrite last_last in Hv. inversion Hv; subst.
    reflexivity. }
  destruct Hrep as (earlier & ->).
  assert (Hsnd : map snd ws = map Some (earlier ++ [d])).
  { rewrite Hw'. apply map_snd_combine.
    rewrite !length_map, length_seq. symmetry. exact Hlen. }
  exists earlier, (world_of st1), u, cs, ws.
  split; [exact Hlen|]. split; [exact Hans|].
  split; [exact Ed|].
  split; [exact Hc|]. split; [exact Hn1|].
  split.
  { intros k c Hk. rewrite <- Hsnd. apply (Hcalls k c Hk). }
  split; [exact Hw'|].
  split; [cbn [writes_of snd]; rewrite Hw, <- app_assoc; reflexivity|].
  split; [rewrite <- Hn2; exact Hfiles|].
  split; [exact Hsome|]. symmetry. exact Hlast.
Qed.

(** X22.  Without the API key the function raises its [RuntimeError]
    before anything is done.  With the key, on a tree without children
    it makes no call, writes the JSON of [None] to the output file, and
    then raises: the [AttributeError] of [None.get], or the exception of
    the write.  It never returns. *)
Theorem transform_large_tree_chunked_no_children (tree : dict) (st : state) :
  py_iter (dict_get_default k_children (VList []) tree) = Ok [] ->
  (forall toc_tree_data,
     transform false toc_tree_data pydantic_schema output_file st
     = (Throw (RuntimeError
                 (lit "Set OPENAI_API_KEY in your environment first.")), st))
  /\
  transform true (VDict tree) pydantic_schema output_file st
  = (match fst (write_json output_file None (world_of st)) with
     | Returns _ => Throw (Builtin AttributeError)
     | Raises e => Throw (External e)
     end,
     ((snd (write_json output_file None (world_of st)), calls_of st),
      writes_of st ++ [(output_file, None)])).
Proof.
  intros Hi. split; [reflexivity|].
  destruct (split_tree_into_chunks_groups count_tokens_in_json tree
              CHUNK_SIZE [] Hi) as (chunks & Hs & Hg).
  cbn [groups is_empty] in Hg. destruct chunks; [|discriminate].
  unfold transform_large_tree_chunked. cbn [negb]. rewrite Hs.
  cbn [process_chunks length]. unfold dump_json.
  destruct (write_json output_file None (world_of st)) as [[u|e] w];
    reflexivity.
Qed.

(** X23.  The first call that raises ends the run: when the chunks
    before the k-th have been processed and the k-th call raises [e],
    the function raises [e]; the k-th call is the last one made, the
    chunks after it are never sent, no other model is tried, and nothing
    is written after the intermediate files of the chunks before. *)
Theorem transform_large_tree_chunked_failure (tree : dict)
    (before after : list value) (chunk : value)
    (previous_response : option dict) (st st1 : state)
    (e : exception) (w : World) :
  split_tree_into_chunks count_tokens_in_json (VDict tree) CHUNK_SIZE
  = Ok (before ++ chunk :: after) ->
  process (length (before ++ chunk :: after)) 1%nat before None st
  = (Return previous_response, st1) ->
  chat (chunk_model (S (length before))) pydantic_schema
       (messages_of (S (length before)) (length (before ++ chunk :: after))
                    previous_response chunk)
       (world_of st1)
  = (Raises e, w) ->
  transform true (VDict tree) pydantic_schema output_file st
  = (Throw (External e),
     ((w, calls_of st1
          ++ [call_of (S (length before)) (length (before ++ chunk :: after))
                      previous_response chunk]),
      writes_of st1)).
Proof.
  intros Hs Hp Hc. unfold transform_large_tree_chunked. cbn [negb].
  rewrite Hs, process_chunks_app, Hp. cbn [Nat.add].
  rewrite process_chunks_cons, Hc. reflexivity.
Qed.

(** X24.  A tree whose seed and children together are within
    [CHUNK_SIZE] costs one call, whatever comes back: to "gpt-4.1", with
    the first-chunk message of a single chunk that holds all the
    children. *)
Theorem transform_large_tree_chunked_single_call (tree : dict)
    (children : list value) (st : state) :
  py_iter (dict_get_default k_children (VList []) tree) = Ok children ->
  children <> [] ->
  base_tokens count_tokens_in_json tree
  + children_tokens count_tokens_in_json children <= CHUNK_SIZE ->
  exists chunk,
    chunk_children chunk = children /\
    calls_of (snd (transform true (VDict tree) pydantic_schema output_file st))
    = calls_of st
      ++ [{| call_model := lit "gpt-4.1";
             call_schema := pydantic_schema;
             call_messages :=
               [(SYSTEM, system_prompt);
                (USER, first_user_message 1%nat 1%nat chunk)] |}].
Proof.
  intros Hi Hne Hfit.
  destruct (split_tree_into_chunks_groups count_tokens_in_json tree CHUNK_SIZE
              children Hi) as (chunks & Hs & Hg).
  rewrite (groups_all_fit count_tokens_in_json tree CHUNK_SIZE children []
             _ Hfit) in Hg.
  cbn [app] in Hg. destruct children as [|c cs]; [congruence|].
  cbn [is_empty] in Hg. destruct (map_singleton _ _ _ Hg) as (chunk & -> & Hc).
  exists chunk. split; [exact Hc|].
  unfold transform_large_tree_chunked. cbn [negb]. rewrite Hs.
  cbn [length]. rewrite process_chunks_cons.
  destruct (chat _ _ _ _) as [[d|e] w1]; [|reflexivity].
  destruct (write_json _ _ w1) as [[u|e] w2]; [|reflexivity].
  cbn [process_chunks].
  destruct (dump_json write_json output_file (Some d) _) as [written st2] eqn:Ed.
  destruct (dump_json_logs _ _ _ _ _ Ed) as (_ & Hc2 & _).
  destruct written as [u'|e]; [|exact Hc2].
  destruct (py_len _); exact Hc2.
Qed.

End ChunkedTransformerFacts.

Lemma transform_large_tree_chunked_calls_witness :
  exists cs ws,
    calls_of (snd (sample_run heavy_count four_children))
    = calls_of sample_state ++ cs /\
    writes_of (snd (sample_run heavy_count four_children))
    = writes_of sample_state ++ ws /\
    (length cs <= length (sample_chunks heavy_count four_children))%nat /\
    (length (sample_chunks heavy_count four_children)
     <= length [leaf "a"; leaf "b"; VInt 1; leaf "c"])%nat /\
    forall k c,
      nth_error cs k = Some c ->
      c = {| call_model :=
               if Nat.even k then lit "gpt-4.1" else lit "gpt-5.1";
             call_schema := tt;
             call_messages :=
               chunk_messages (lit "system") plain_first_message
                 plain_continuation_message (S k)
                 (length (sample_chunks heavy_count four_children))
                 (nth k (None :: map snd ws) None)
                 (nth k (sample_chunks heavy_count four_children) VNone) |}.
Proof.
  apply (transform_large_tree_chunked_calls heavy_count nat unit
           counting_chat accepting_write (lit "system") plain_first_message
           plain_continuation_message tt (lit "out.json") four_children
           [leaf "a"; leaf "b"; VInt 1; leaf "c"]
           (sample_chunks heavy_count four_children) sample_state
           (snd (sample_run heavy_count four_children))
           (fst (sample_run heavy_count four_children)));
    [reflexivity | vm_compute; reflexivity | vm_compute; reflexivity].
Defined.

Lemma transform_large_tree_chunked_returns_witness :
  sample_chunks heavy_count two_children <> [] /\
  exists (earlier : list dict) (w : nat) (u : unit)
         (cs : list (call unit (list ChatMessage)))
         (ws : list (str * option dict)),
    length (earlier ++ [[(k_title, VStr (lit "gpt-5.1"))]])
    = length (sample_chunks heavy_count two_children) /\
    answered counting_chat accepting_write (lit "system")
      plain_first_message plain_continuation_message tt (lit "out.json")
      (length (sample_chunks heavy_count two_children)) 1
      (sample_chunks heavy_count two_children) None (world_of sample_state)
      (earlier ++ [[(k_title, VStr (lit "gpt-5.1"))]]) w /\
    accepting_write (lit "out.json")
      (Some [(k_title, VStr (lit "gpt-5.1"))]) w
    = (Returns u, world_of (snd (sample_run heavy_count two_children))) /\
    calls_of (snd (sample_run heavy_count two_children))
    = calls_of sample_state ++ cs /\
    length cs = length (sample_chunks heavy_count two_children) /\
    (forall k c,
       nth_error cs k = Some c ->
       c = {| call_model := chunk_model (S k);
              call_schema := tt;
              call_messages :=
                chunk_messages (lit "system") plain_first_message
                  plain_continuation_message (S k)
                  (length (sample_chunks heavy_count two_children))
                  (nth k
                     (None
                      :: map Some
                           (earlier ++ [[(k_title, VStr (lit "gpt-5.1"))]]))
                     None)
                  (nth k (sample_chunks heavy_count two_children) VNone) |}) /\
    ws = combine (map (intermediate_file (lit "out.json"))
                      (seq 1 (length (sample_chunks heavy_count two_children))))
                 (map Some (earlier ++ [[(k_title, VStr (lit "gpt-5.1"))]])) /\
    writes_of (snd (sample_run heavy_count two_children))
    = writes_of sample_state
      ++ ws ++ [(lit "out.json", Some [(k_title, VStr (lit "gpt-5.1"))])] /\
    map fst ws
    = map (intermediate_file (lit "out.json"))
          (seq 1 (length (sample_chunks heavy_count two_children))) /\
    Forall (fun w => snd w <> None) ws /\
    last (map snd ws) None = Some [(k_title, VStr (lit "gpt-5.1"))].
Proof.
  apply (transform_large_tree_chunked_returns heavy_count nat unit
           counting_chat accepting_write (lit "system") plain_first_message
           plain_continuation_message tt (lit "out.json") two_children
           (sample_chunks heavy_count two_children) sample_state
           (snd (sample_run heavy_count two_children))
           [(k_title, VStr (lit "gpt-5.1"))]);
    vm_compute; reflexivity.
Defined.

Lemma transform_large_tree_chunked_no_children_witness :
  (forall toc_tree_data,
     transform_large_tree_chunked object_count counting_chat accepting_write
       (lit "system") plain_first_message plain_continuation_message
       false toc_tree_data tt (lit "out.json") sample_state
     = (Throw (RuntimeError
                 (lit "Set OPENAI_API_KEY in your environment first.")),
        sample_state))
  /\
  transform_large_tree_chunked object_count counting_chat accepting_write
    (lit "system") plain_first_message plain_continuation_message
    true (VDict (node_with_section (lit "text"))) tt (lit "out.json")
    sample_state
  = (match fst (accepting_write (lit "out.json") None (world_of sample_state))
     with
     | Returns _ => Throw (Builtin AttributeError)
     | Raises e => Throw (External e)
     end,
     ((snd (accepting_write (lit "out.json") None (world_of sample_state)),
       calls_of sample_state),
      writes_of sample_state ++ [(lit "out.json", None)])).
Proof.
  apply (transform_large_tree_chunked_no_children object_count nat unit
           counting_chat accepting_write (lit "system") plain_first_message
           plain_continuation_message tt (lit "out.json")
           (node_with_section (lit "text")) sample_state).
  reflexivity.
Defined.

Lemma transform_large_tree_chunked_failure_witness :
  sample_run heavy_count four_children
  = (Throw (External sample_error),
     ((3%nat,
       calls_of
         (snd (process_chunks counting_chat accepting_write (lit "system")
                 plain_first_message plain_continuation_message tt
                 (lit "out.json") 4 1
                 [nth 0 (sample_chunks heavy_count four_children) VNone;
                  nth 1 (sample_chunks heavy_count four_children) VNone]
                 None sample_state))
       ++ [{| call_model := chunk_model 3;
              call_schema := tt;
              call_messages :=
                chunk_messages (lit "system") plain_first_message
                  plain_continuation_message 3 4
                  (Some [(k_title, VStr (lit "gpt-5.1"))])
                  (nth 2 (sample_chunks heavy_count four_children) VNone) |}]),
      writes_of
        (snd (process_chunks counting_chat accepting_write (lit "system")
                plain_first_message plain_continuation_message tt
                (lit "out.json") 4 1
                [nth 0 (sample_chunks heavy_count four_children) VNone;
                 nth 1 (sample_chunks heavy_count four_children) VNone]
                None sample_state)))).
Proof.
  apply (transform_large_tree_chunked_failure heavy_count nat unit
           counting_chat accepting_write (lit "system") plain_first_message
           plain_continuation_message tt (lit "out.json") four_children
           [nth 0 (sample_chunks heavy_count four_children) VNone;
            nth 1 (sample_chunks heavy_count four_children) VNone]
           [nth 3 (sample_chunks heavy_count four_children) VNone]
           (nth 2 (sample_chunks heavy_count four_children) VNone)
           (Some [(k_title, VStr (lit "gpt-5.1"))]) sample_state
           (snd (process_chunks counting_chat accepting_write (lit "system")
                   plain_first_message plain_continuation_message tt
                   (lit "out.json") 4 1
                   [nth 0 (sample_chunks heavy_count four_children) VNone;
                    nth 1 (sample_chunks heavy_count four_children) VNone]
                   None sample_state))
           sample_error 3%nat);
    vm_compute; reflexivity.
Defined.

Lemma transform_large_tree_chunked_single_call_witness :
  exists chunk,
    chunk_children chunk = [leaf "a"; leaf "b"; VInt 1; leaf "c"] /\
    calls_of
      (snd (transform_large_tree_chunked object_count counting_chat
              accepting_write (lit "system") plain_first_message
              plain_continuation_message true (VDict four_children) tt
              (lit "out.json") sample_state))
    = calls_of sample_state
      ++ [{| call_model := lit "gpt-4.1";
             call_schema := tt;
             call_messages :=
               [(SYSTEM, lit "system");
                (USER, plain_first_message 1%nat 1%nat chunk)] |}].
Proof.
  apply (transform_large_tree_chunked_single_call object_count nat unit
           counting_chat accepting_write (lit "system") plain_first_message
           plain_continuation_message tt (lit "out.json") four_children
           [leaf "a"; leaf "b"; VInt 1; leaf "c"] sample_state).
  - reflexivity.
  - discriminate.
  - vm_compute. discriminate.
Defined.

(* --------------------------------------------------------------------- *)
(** ** The names of the intermediate files *)

Lemma replace_from_absent (old new s : str) :
  contains old s = false -> replace_from old new O s = s.
Proof.
  induction s as [|c s IH]; [reflexivity|].
  cbn [contains replace_from]. intros H.
  apply orb_false_iff in H. destruct H as [H1 H2].
  rewrite H1, (IH H2). reflexivity.
Qed.

Lemma replace_from_json_suffix (stem new : str) :
  ~ In DOT stem ->
  replace_from (lit ".json") new O (stem ++ lit ".json") = stem ++ new.
Proof.
  induction stem as [|c stem IH]; intros Hd.
  - cbn. rewrite app_nil_r. reflexivity.
  - cbn [app replace_from].
    assert (E : starts_with (lit ".json") (c :: stem ++ lit ".json") = false).
    { change (lit ".json") with (DOT :: lit "json") at 1.
      cbn [starts_with].
      destruct (char_eqb DOT c) eqn:Ec; [|reflexivity].
      apply char_eqb_eq in Ec. exfalso. apply Hd. left. symmetry. exact Ec. }
    rewrite E, IH; [reflexivity|].
    intros H. apply Hd. right. exact H.
Qed.

Lemma uint_digits_inj (u v : Decimal.uint) :
  uint_digits u = uint_digits v -> u = v.
Proof.
  revert v. induction u as [|u IH|u IH|u IH|u IH|u IH|u IH|u IH|u IH|u IH|u IH];
    intros v; destruct v; cbn [uint_digits]; intros H;
    try discriminate; try reflexivity;
    inversion H; f_equal; apply IH; assumption.
Qed.

Lemma str_of_nat_inj (j k : nat) : str_of_nat j = str_of_nat k -> j = k.
Proof.
  unfold str_of_nat. intros H. apply uint_digits_inj in H.
  apply Unsigned.to_uint_inj. exact H.
Qed.

(** X25.  The intermediate file of a chunk: for an output file named
    by a stem without '.' followed by ".json", it is the stem followed
    by "_chunk_", the number of the chunk in decimal and ".json", a name
    that differs from the output file's and from one chunk to another;
    for an output file whose name does not contain ".json", it is the
    output file itself. *)
Theorem intermediate_file_names (output_file stem : str) (j k : nat) :
  (contains (lit ".json") output_file = false ->
   intermediate_file output_file k = output_file) /\
  (~ In DOT stem ->
   intermediate_file (stem ++ lit ".json") k
   = stem ++ lit "_chunk_" ++ str_of_nat k ++ lit ".json" /\
   intermediate_file (stem ++ lit ".json") k <> stem ++ lit ".json" /\
   (j <> k ->
    intermediate_file (stem ++ lit ".json") j
    <> intermediate_file (stem ++ lit ".json") k)).
Proof.
  split.
  - intros H. unfold intermediate_file. apply replace_from_absent. exact H.
  - intros Hd.
    assert (E : forall n,
              intermediate_file (stem ++ lit ".json") n
              = stem ++ lit "_chunk_" ++ str_of_nat n ++ lit ".json").
    { intros n. unfold intermediate_file.
      apply (replace_from_json_suffix stem _ Hd). }
    split; [apply E|]. split.
    + rewrite E. intros H. apply app_inv_head in H. discriminate H.
    + intros Hjk. rewrite !E. intros H.
      apply app_inv_head in H.
      change (lit "_chunk_" ++ str_of_nat j ++ lit ".json")
        with (lit "_chunk_" ++ (str_of_nat j ++ lit ".json")) in H.
      apply (app_inv_head (lit "_chunk_")) in H.
      apply app_inv_tail in H. apply str_of_nat_inj in H. contradiction.
Qed.

(* --------------------------------------------------------------------- *)
(** ** [transform_toc_tree_to_api_format]: the calls and the files of a
       run *)

(** Cleaning keeps the number of children. *)
Lemma clean_toc_tree_children_length (d : dict) (m : Z) (cleaned : value)
    (cs : list value) :
  clean_toc_tree (VDict d) m = Ok cleaned ->
  dict_get_default k_children (VList []) d = VList cs ->
  exists d' cs',
    cleaned = VDict d' /\
    py_iter (dict_get_default k_children (VList []) d') = Ok cs' /\
    length cs' = length cs.
Proof.
  intros H Hcs.
  destruct (clean_toc_tree_structure d m cleaned H) as (d' & -> & _ & Hch).
  exists d'. unfold dict_get_default in *.
  destruct (dict_get k_children d) as [x|].
  - subst x. destruct cs as [|c cs].
    + rewrite Hch. exists []. auto.
    + destruct Hch as (cs' & _ & Hg & Hl). rewrite Hg. exists cs'. auto.
  - inversion Hcs; subst cs. rewrite Hch. exists []. auto.
Qed.

Section ApiFormatFacts.

Variable count_tokens_in_json : value -> nat.
Variable lower_other : str -> nat -> str.
Variables World Schema Response : Type.
Variable chat :
  str -> Schema -> list ChatMessage -> World -> outcome Response * World.
Variable model_dump : Response -> outcome dict.
Variable write_json : str -> option dict -> World -> outcome unit * World.
Variable TOKEN_LIMIT : Z.
Variable MAX_SECTION_TEXT_LENGTH : Z.
Variable LLM_MODEL : str.
Variable MindmapDocument : Schema.
Variable TRANSFORM_SYSTEM_PROMPT : str.
Variable user_prompt : value -> str.
Variable first_user_message : nat -> nat -> value -> str.
Variable continuation_user_message :
  nat -> nat -> option dict -> value -> str.

Local Abbreviation state := (chunked_state World Schema).
Local Abbreviation api_format :=
  (transform_toc_tree_to_api_format count_tokens_in_json lower_other chat
     model_dump write_json TOKEN_LIMIT MAX_SECTION_TEXT_LENGTH LLM_MODEL
     MindmapDocument TRANSFORM_SYSTEM_PROMPT user_prompt first_user_message
     continuation_user_message).

(** The calls and the files of a chunked run, whatever its outcome. *)
Lemma transform_large_tree_chunked_log
    (chat' : str -> Schema -> list ChatMessage -> World -> outcome dict * World)
    (api_key : bool) (tree : dict) (children : list value)
    (output_file : str) (st st' : state) (r : completion dict) :
  py_iter (dict_get_default k_children (VList []) tree) = Ok children ->
  transform_large_tree_chunked count_tokens_in_json chat' write_json
    TRANSFORM_SYSTEM_PROMPT first_user_message continuation_user_message
    api_key (VDict tree) MindmapDocument output_file st = (r, st') ->
  exists cs ws,
    calls_of st' = calls_of st ++ cs /\
    writes_of st' = writes_of st ++ ws /\
    (length cs <= length children)%nat /\
    Forall (file_of_run output_file) ws.
Proof.
  intros Hi. unfold transform_large_tree_chunked.
  assert (Hnone : forall r0 : completion dict,
            (r0, st) = (r, st') ->
            exists cs ws,
              calls_of st' = calls_of st ++ cs /\
              writes_of st' = writes_of st ++ ws /\
              (length cs <= length children)%nat /\
              Forall (file_of_run output_file) ws).
  { intros r0 H. inversion H; subst. exists [], [].
    rewrite !app_nil_r. cbn [length]. repeat split; try lia. constructor. }
  destruct api_key; cbn [negb]; [|apply Hnone].
  destruct (split_tree_into_chunks_groups count_tokens_in_json tree
              CHUNK_SIZE children Hi) as (chunks & Hs & _).
  destruct (split_tree_into_chunks_length count_tokens_in_json tree children
              chunks Hi Hs) as [Hlen _].
  rewrite Hs.
  destruct (process_chunks chat' write_json TRANSFORM_SYSTEM_PROMPT
              first_user_message continuation_user_message MindmapDocument
              output_file (length chunks) 1 chunks None st)
    as [r1 st1] eqn:Ep.
  destruct (process_chunks_trace _ _ _ _ _ _ _ _ _ _ _ _ _ _ _ _ Ep)
    as (cs & ws & Hc & Hw & _ & Hl2 & _ & Hfiles & _ & _).
  assert (Hws : Forall (file_of_run output_file) ws).
  { apply Forall_forall. intros w Hin. right.
    apply (in_map fst) in Hin. rewrite Hfiles in Hin.
    apply in_map_iff in Hin. destruct Hin as (k & Hk & Hseq).
    apply in_seq in Hseq. exists k. split; [lia | congruence]. }
  destruct r1 as [final_result|t].
  - destruct (dump_json write_json output_file final_result st1)
      as [written st2] eqn:Ed.
    destruct (dump_json_logs _ _ _ _ _ _ _ _ Ed) as (_ & Hc2 & Hw2).
    assert (Hall : forall r0 : completion dict,
              (r0, st2) = (r, st') ->
              exists cs0 ws0,
                calls_of st' = calls_of st ++ cs0 /\
                writes_of st' = writes_of st ++ ws0 /\
                (length cs0 <= length children)%nat /\
                Forall (file_of_run output_file) ws0).
    { intros r0 H. inversion H; subst.
      exists cs, (ws ++ [(output_file, final_result)]).
      split; [rewrite Hc2; exact Hc|].
      split; [rewrite Hw2, Hw, <- app_assoc; reflexivity|].
      split; [lia|]. apply Forall_app. split; [exact Hws|].
      constructor; [left; reflexivity | constructor]. }
    destruct written as [u|e]; [|apply Hall].
    destruct final_result as [d|]; [|apply Hall].
    destruct (py_len _); apply Hall.
  - intros H. inversion H; subst. exists cs, ws.
    split; [exact Hc|]. split; [exact Hw|]. split; [lia | exact Hws].
Qed.

Lemma single_shot_chat_log (messages : list ChatMessage)
    (s s1 : World * list (call Schema (list ChatMessage)))
    (r : outcome Response) :
  single_shot_chat lower_other chat LLM_MODEL MindmapDocument messages s
  = (r, s1) ->
  exists new, snd s1 = snd s ++ new /\ (length new <= 2)%nat.
Proof.
  unfold single_shot_chat, sllm_chat.
  destruct (chat LLM_MODEL _ _ _) as [[resp|e] w1]; cbn [fst snd].
  - intros H. inversion H; subst. eexists. split; [reflexivity|]. cbn. lia.
  - destruct (is_token_error lower_other e).
    + destruct (chat FALLBACK_MODEL _ _ _) as [r2 w2].
      intros H. inversion H; subst. cbn [snd].
      rewrite <- app_assoc. eexists. split; [reflexivity|]. cbn. lia.
    + intros H. inversion H; subst. eexists. split; [reflexivity|]. cbn. lia.
Qed.

(** X26.  Whatever the service and the file system do, a run of
    [transform_toc_tree_to_api_format] on a tree makes at most two calls
    more than the root has children, and no more calls than the root
    has children when the cleaned tree is over the token limit; and it
    writes no file but the output file and its intermediate files. *)
Theorem transform_toc_tree_to_api_format_effects (api_key : bool)
    (d : dict) (children : list value) (output_file : str)
    (st st' : state) (r : completion dict) :
  dict_get_default k_children (VList []) d = VList children ->
  api_format api_key (VDict d) output_file st = (r, st') ->
  exists cs ws,
    calls_of st' = calls_of st ++ cs /\
    writes_of st' = writes_of st ++ ws /\
    (length cs <= 2 + length children)%nat /\
    (forall cleaned,
       clean_toc_tree (VDict d) MAX_SECTION_TEXT_LENGTH = Ok cleaned ->
       TOKEN_LIMIT < Z.of_nat (count_tokens_in_json cleaned) ->
       (length cs <= length children)%nat) /\
    Forall (file_of_run output_file) ws.
Proof.
  intros Hch. unfold transform_toc_tree_to_api_format.
  assert (Hnone : forall r0 : completion dict,
            (r0, st) = (r, st') ->
            exists cs ws,
              calls_of st' = calls_of st ++ cs /\
              writes_of st' = writes_of st ++ ws /\
              (length cs <= 2 + length children)%nat /\
              (forall cleaned,
                 clean_toc_tree (VDict d) MAX_SECTION_TEXT_LENGTH = Ok cleaned ->
                 TOKEN_LIMIT < Z.of_nat (count_tokens_in_json cleaned) ->
                 (length cs <= length children)%nat) /\
              Forall (file_of_run output_file) ws).
  { intros r0 H. inversion H; subst. exists [], [].
    rewrite !app_nil_r. cbn [length].
    split; [reflexivity|]. split; [reflexivity|]. split; [lia|].
    split; [intros; lia | constructor]. }
  destruct api_key; cbn [negb]; [|apply Hnone].
  destruct (clean_toc_tree (VDict d) MAX_SECTION_TEXT_LENGTH)
    as [cleaned|e] eqn:Hc; [|apply Hnone].
  destruct (clean_toc_tree_children_length d _ cleaned children Hc Hch)
    as (d' & cs' & -> & Hi & Hlen).
  cbv zeta.
  destruct (TOKEN_LIMIT <? Z.of_nat (count_tokens_in_json (VDict d'))) eqn:Et.
  - intros H.
    destruct (transform_large_tree_chunked_log _ _ _ _ _ _ _ _ Hi H)
      as (cs & ws & H1 & H2 & H3 & H4).
    exists cs, ws. split; [exact H1|]. split; [exact H2|]. split; [lia|].
    split; [intros; lia | exact H4].
  - apply Z.ltb_ge in Et.
    assert (Hlimit : forall cs : list (call Schema (list ChatMessage)),
              forall cleaned,
                Ok (VDict d') = Ok cleaned ->
                TOKEN_LIMIT < Z.of_nat (count_tokens_in_json cleaned) ->
                (length cs <= length children)%nat).
    { intros cs cleaned H. inversion H; subst. lia. }
    destruct (single_shot_chat _ _ _ _ _ _) as [r0 s1] eqn:Es.
    destruct (single_shot_chat_log _ _ _ _ Es) as (new & Hnew & Hn2).
    destruct r0 as [resp|e].
    + destruct (model_dump resp) as [result|e].
      * destruct (dump_json write_json output_file (Some result) (s1, snd st))
          as [written st2] eqn:Ed.
        destruct (dump_json_logs _ _ _ _ _ _ _ _ Ed) as (_ & Hc2 & Hw2).
        unfold calls_of, writes_of in *. cbn [fst snd] in *.
        destruct written as [u|e].
        -- intros H. inversion H; subst.
           exists new, [(output_file, Some result)].
           split; [rewrite Hc2; exact Hnew|]. split; [exact Hw2|].
           split; [lia|]. split; [apply Hlimit|].
           constructor; [left; reflexivity | constructor].
        -- intros H.
           destruct (transform_large_tree_chunked_log _ _ _ _ _ _ _ _ Hi H)
             as (cs & ws & H1 & H2 & H3 & H4).
           unfold calls_of, writes_of in *. cbn [fst snd] in *.
           exists (new ++ cs), ((output_file, Some result) :: ws).
           split; [rewrite H1, Hc2, Hnew, <- app_assoc; reflexivity|].
           split; [rewrite H2, Hw2, <- app_assoc; reflexivity|].
           split; [rewrite length_app; lia|]. split; [apply Hlimit|].
           constructor; [left; reflexivity | exact H4].
      * intros H.
        destruct (transform_large_tree_chunked_log _ _ _ _ _ _ _ _ Hi H)
          as (cs & ws & H1 & H2 & H3 & H4).
        unfold calls_of, writes_of in *. cbn [fst snd] in *.
        exists (new ++ cs), ws.
        split; [rewrite H1, Hnew, <- app_assoc; reflexivity|].
        split; [exact H2|].
        split; [rewrite length_app; lia|]. split; [apply Hlimit | exact H4].
    + intros H. inversion H; subst. exists new, [].
      unfold calls_of, writes_of. cbn [fst snd]. rewrite app_nil_r.
      split; [exact Hnew|]. split; [reflexivity|]. split; [lia|].
      split; [apply Hlimit | constructor].
Qed.

End ApiFormatFacts.

Lemma transform_toc_tree_to_api_format_effects_witness :
  exists cs ws,
    calls_of (snd (sample_api_run two_children))
    = calls_of sample_state ++ cs /\
    writes_of (snd (sample_api_run two_children))
    = writes_of sample_state ++ ws /\
    (length cs <= 2 + length [leaf "a"; leaf "b"])%nat /\
    (forall cleaned,
       clean_toc_tree (VDict two_children) 3000 = Ok cleaned ->
       175000 < Z.of_nat (object_count cleaned) ->
       (length cs <= length [leaf "a"; leaf "b"])%nat) /\
    Forall (file_of_run (lit "out.json")) ws.
Proof.
  apply (transform_toc_tree_to_api_format_effects object_count keep_other
           nat unit dict counting_chat plain_dump accepting_write 175000 3000
           (lit "gpt-4.1") tt (lit "system") plain_user_prompt
           plain_first_message plain_continuation_message true two_children
           [leaf "a"; leaf "b"] (lit "out.json") sample_state
           (snd (sample_api_run two_children))
           (fst (sample_api_run two_children)));
    reflexivity.
Defined.
